(** * Sync-Talk: chat and message models, REST controllers and the
      real-time event router, embedded as pure functions over an explicit
      store.

    Conventions of the embedding.

    - A MongoDB [ObjectId] is a 96-bit number; the code compares ids through
      their [toString()] rendering, which is injective, so an id is an [N]
      and [a.toString() === b.toString()] is [a = b].  Room names of the
      socket layer are such renderings too, hence a room is an [ObjectId].
    - Dates are milliseconds since the epoch ([Z]); [Date.now()] is the
      [now] argument of the function that reads the clock.
    - A Mongoose [Number] counter is a [Z]: the counters start at 0 and only
      grow by 1, so they stay integers on which double arithmetic is exact.
    - A collection is the list of its documents in insertion order;
      [findOne] returns the first match, [create] appends and fails on a
      duplicate [_id] (the unique index of MongoDB).
    - Strings are Rocq strings (code units below 256).
    - A handler runs from its first to its last line without interleaving;
      an exception caught by the handler's [try]/[catch] is the error
      response with the store as it was when the exception was thrown. *)

From stdpp Require Import base option list strings gmap sorting.
From Stdlib Require Import ZArith Ascii String.

Local Open Scope Z_scope.
Local Open Scope string_scope.
Local Open Scope list_scope.

Definition ObjectId := N.
Definition Date := Z.

(** ** Strings: [String.prototype.trim] on the whitespace of Latin-1. *)

Definition isWhiteSpace (a : ascii) : bool :=
  let n := nat_of_ascii a in
  (Nat.leb 9 n && Nat.leb n 13) || Nat.eqb n 32 || Nat.eqb n 160.

Fixpoint dropWhite (l : list ascii) : list ascii :=
  match l with
  | [] => []
  | a :: l' => if isWhiteSpace a then dropWhite l' else l
  end.

Definition trim (s : string) : string :=
  string_of_list_ascii
    (rev (dropWhite (rev (dropWhite (list_ascii_of_string s))))).

(** ** Documents *)

(** Entry of [Chat.unreadCount]. *)
Record UnreadItem := mkUnread {
  unread_user : ObjectId;
  unread_count : Z;
  unread_lastRead : Date
}.

(** Entry of [Chat.typingUsers]. *)
Record TypingItem := mkTyping {
  typing_user : ObjectId;
  typing_timestamp : Date
}.

(** A document of the [Chat] collection (the [timestamps] fields and the
    avatar URL, which no modelled operation reads, are left out). *)
Record ChatDoc := mkChat {
  chat_id : ObjectId;
  chatName : string;
  isGroupChat : bool;
  users : list ObjectId;
  latestMessage : option ObjectId;
  groupAdmin : option ObjectId;
  groupDescription : string;
  unreadCount : list UnreadItem;
  typingUsers : list TypingItem
}.

(** Entry of [Message.reactions]. *)
Record Reaction := mkReaction {
  reaction_user : ObjectId;
  reaction_emoji : string;
  reaction_createdAt : Date
}.

(** Entry of [Message.readBy]. *)
Record ReadReceipt := mkRead {
  read_user : ObjectId;
  read_readAt : Date
}.

(** A document of the [Message] collection.  No modelled path sets an
    attachment, so the field is left out.  [content] is [None] when the
    document has no content: the schema's [required] function for it is
    [!this.attachment], and [attachment] is a nested path, which a document
    always has as an object, so the function is never true and a message is
    stored with an empty content or with none. *)
Record MessageDoc := mkMessage {
  message_id : ObjectId;
  sender : ObjectId;
  content : option string;
  chat : ObjectId;
  messageType : string;
  readBy : list ReadReceipt;
  reactions : list Reaction;
  replyTo : option ObjectId;
  isEdited : bool;
  editedAt : option Date;
  isDeleted : bool;
  deletedAt : option Date;
  deletedBy : option ObjectId;
  createdAt : Date
}.

#[global] Instance UnreadItem_eq_dec : EqDecision UnreadItem.
Proof. solve_decision. Defined.
#[global] Instance TypingItem_eq_dec : EqDecision TypingItem.
Proof. solve_decision. Defined.
#[global] Instance ChatDoc_eq_dec : EqDecision ChatDoc.
Proof. solve_decision. Defined.
#[global] Instance Reaction_eq_dec : EqDecision Reaction.
Proof. solve_decision. Defined.
#[global] Instance ReadReceipt_eq_dec : EqDecision ReadReceipt.
Proof. solve_decision. Defined.
#[global] Instance MessageDoc_eq_dec : EqDecision MessageDoc.
Proof. solve_decision. Defined.

(** Field updates of a chat document. *)
Definition set_users (v : list ObjectId) (c : ChatDoc) : ChatDoc :=
  mkChat (chat_id c) (chatName c) (isGroupChat c) v (latestMessage c)
         (groupAdmin c) (groupDescription c)
         (unreadCount c) (typingUsers c).
Definition set_latestMessage (v : option ObjectId) (c : ChatDoc) : ChatDoc :=
  mkChat (chat_id c) (chatName c) (isGroupChat c) (users c) v
         (groupAdmin c) (groupDescription c)
         (unreadCount c) (typingUsers c).
Definition set_groupAdmin (v : option ObjectId) (c : ChatDoc) : ChatDoc :=
  mkChat (chat_id c) (chatName c) (isGroupChat c) (users c) (latestMessage c)
         v (groupDescription c)
         (unreadCount c) (typingUsers c).
Definition set_unreadCount (v : list UnreadItem) (c : ChatDoc) : ChatDoc :=
  mkChat (chat_id c) (chatName c) (isGroupChat c) (users c) (latestMessage c)
         (groupAdmin c) (groupDescription c)
         v (typingUsers c).
Definition set_typingUsers (v : list TypingItem) (c : ChatDoc) : ChatDoc :=
  mkChat (chat_id c) (chatName c) (isGroupChat c) (users c) (latestMessage c)
         (groupAdmin c) (groupDescription c)
         (unreadCount c) v.

(** Field updates of a message document. *)
Definition set_reactions (v : list Reaction) (m : MessageDoc) : MessageDoc :=
  mkMessage (message_id m) (sender m) (content m) (chat m) (messageType m)
            (readBy m) v (replyTo m) (isEdited m) (editedAt m)
            (isDeleted m) (deletedAt m) (deletedBy m) (createdAt m).
Definition set_edit (newContent : string) (at_ : Date) (m : MessageDoc)
  : MessageDoc :=
  mkMessage (message_id m) (sender m) (Some newContent) (chat m)
            (messageType m)
            (readBy m) (reactions m) (replyTo m) true (Some at_)
            (isDeleted m) (deletedAt m) (deletedBy m) (createdAt m).

(** ** The store *)

Record DB := mkDB {
  User_coll : list ObjectId;
  Chat_coll : list ChatDoc;
  Message_coll : list MessageDoc
}.

(** ** Instance methods of the Chat schema *)

Module Chat.

(** [this.unreadCount.find(item => item.user.toString() === userId.toString())] *)
Definition findUnread (userId : ObjectId) (c : ChatDoc) : option UnreadItem :=
  List.find (fun item => bool_decide (unread_user item = userId))
            (unreadCount c).

Definition initializeUnreadCount (now : Date) (userId : ObjectId)
           (c : ChatDoc) : ChatDoc :=
  match findUnread userId c with
  | Some _ => c
  | None => set_unreadCount (unreadCount c ++ [mkUnread userId 0 now]) c
  end.

Definition incrementUnreadCount (excludeUserId : ObjectId) (c : ChatDoc)
  : ChatDoc :=
  set_unreadCount
    (map (fun item =>
            if decide (unread_user item ≠ excludeUserId)
            then mkUnread (unread_user item) (unread_count item + 1)
                          (unread_lastRead item)
            else item)
         (unreadCount c)) c.

(** Only the first matching entry is reset ([find]). *)
Fixpoint resetFirst (now : Date) (userId : ObjectId) (l : list UnreadItem)
  : list UnreadItem :=
  match l with
  | [] => []
  | item :: l' =>
      if decide (unread_user item = userId)
      then mkUnread (unread_user item) 0 now :: l'
      else item :: resetFirst now userId l'
  end.

Definition resetUnreadCount (now : Date) (userId : ObjectId) (c : ChatDoc)
  : ChatDoc :=
  set_unreadCount (resetFirst now userId (unreadCount c)) c.

Definition addTypingUser (now : Date) (userId : ObjectId) (c : ChatDoc)
  : ChatDoc :=
  set_typingUsers
    (filter (fun item => typing_user item ≠ userId) (typingUsers c)
       ++ [mkTyping userId now]) c.

Definition removeTypingUser (userId : ObjectId) (c : ChatDoc) : ChatDoc :=
  set_typingUsers
    (filter (fun item => typing_user item ≠ userId) (typingUsers c)) c.

(** [fiveSecondsAgo = Date.now() - 5000]; an entry is kept when
    [item.timestamp > fiveSecondsAgo]. *)
Definition cleanOldTypingIndicators (now : Date) (c : ChatDoc) : ChatDoc :=
  let fiveSecondsAgo := now - 5000 in
  set_typingUsers
    (filter (fun item => typing_timestamp item > fiveSecondsAgo)
            (typingUsers c)) c.

(** The counter a client is shown ([getChats], [accessChat]):
    [unreadItem ? unreadItem.count : 0]. *)
Definition unreadFor (userId : ObjectId) (c : ChatDoc) : Z :=
  match findUnread userId c with
  | Some item => unread_count item
  | None => 0
  end.

End Chat.

(** ** Instance methods of the Message schema *)

Module Message.

Definition addReaction (now : Date) (userId : ObjectId) (emoji : string)
           (m : MessageDoc) : MessageDoc :=
  set_reactions
    (filter (fun reaction => reaction_user reaction ≠ userId) (reactions m)
       ++ [mkReaction userId emoji now]) m.

Definition removeReaction (userId : ObjectId) (m : MessageDoc) : MessageDoc :=
  set_reactions
    (filter (fun reaction => reaction_user reaction ≠ userId) (reactions m)) m.

Definition editContent (now : Date) (newContent : string) (m : MessageDoc)
  : MessageDoc :=
  set_edit newContent now m.

End Message.

(** ** Store operations (Mongoose statics used by the handlers) *)

Module Store.

Definition userExists (id : ObjectId) (db : DB) : bool :=
  bool_decide (id ∈ User_coll db).

(** [Chat.findById] *)
Definition findChat (id : ObjectId) (db : DB) : option ChatDoc :=
  List.find (fun c => bool_decide (chat_id c = id)) (Chat_coll db).

(** [Message.findById] *)
Definition findMessage (id : ObjectId) (db : DB) : option MessageDoc :=
  List.find (fun m => bool_decide (message_id m = id)) (Message_coll db).

Definition withChats (cs : list ChatDoc) (db : DB) : DB :=
  mkDB (User_coll db) cs (Message_coll db).

Definition withMessages (ms : list MessageDoc) (db : DB) : DB :=
  mkDB (User_coll db) (Chat_coll db) ms.

(** [Chat.findByIdAndUpdate(id, update)]: nothing happens when no document
    has the id. *)
Definition updateChat (id : ObjectId) (f : ChatDoc -> ChatDoc) (db : DB) : DB :=
  withChats
    (map (fun c => if decide (chat_id c = id) then f c else c) (Chat_coll db))
    db.

(** [chat.save()] of a document loaded from the store. *)
Definition saveChat (c : ChatDoc) (db : DB) : DB :=
  updateChat (chat_id c) (fun _ => c) db.

(** [message.save()] of a document loaded from the store. *)
Definition saveMessage (m : MessageDoc) (db : DB) : DB :=
  withMessages
    (map (fun d => if decide (message_id d = message_id m) then m else d)
         (Message_coll db))
    db.

(** [Chat.findByIdAndDelete] *)
Definition deleteChatById (id : ObjectId) (db : DB) : DB :=
  withChats (filter (fun c => chat_id c ≠ id) (Chat_coll db)) db.

(** [Message.deleteMany({ chat: id })] *)
Definition deleteMessagesOf (id : ObjectId) (db : DB) : DB :=
  withMessages (filter (fun m => chat m ≠ id) (Message_coll db)) db.

(** Schema validation of a chat: the two [maxlength] bounds. *)
Definition validChat (c : ChatDoc) : bool :=
  Nat.leb (String.length (chatName c)) 100
  && Nat.leb (String.length (groupDescription c)) 500.

(** [Chat.create]: [None] is a thrown error (validation, duplicate key). *)
Definition createChat (c : ChatDoc) (db : DB) : option DB :=
  if validChat c && negb (bool_decide (chat_id c ∈ map chat_id (Chat_coll db)))
  then Some (withChats (Chat_coll db ++ [c]) db)
  else None.

(** Schema validation of a message.  [content] is never required (see
    [MessageDoc]); when there is one it is at most 1000 long, the empty
    string included.  [messageType] is one of the enum. *)
Definition validContent (s : string) : bool :=
  Nat.leb (String.length s) 1000.

Definition validContentField (content_ : option string) : bool :=
  match content_ with
  | Some s => validContent s
  | None => true
  end.

Definition validMessage (m : MessageDoc) : bool :=
  validContentField (content m)
  && bool_decide (messageType m ∈ ["text"; "image"; "file"; "system"]).

(** The document [Message.create] builds from the data both senders pass:
    the schema trims [content] when there is one; every other field takes
    its default. *)
Definition newMessage (now : Date) (newId senderId : ObjectId)
           (content_ : option string) (chatId : ObjectId)
           (messageType_ : string) (replyTo_ : option ObjectId)
  : MessageDoc :=
  mkMessage newId senderId (trim <$> content_) chatId messageType_ [] []
            replyTo_ false None false None None now.

(** [Message.create]: validation, then the [pre('save')] hook, which points
    the owning chat's [latestMessage] at the new message, then the insert.
    [inl db'] is a thrown error with the store as the throw leaves it. *)
Definition createMessage (now : Date) (newId senderId : ObjectId)
           (content_ : option string) (chatId : ObjectId)
           (messageType_ : string) (replyTo_ : option ObjectId) (db : DB)
  : DB + (MessageDoc * DB) :=
  let m := newMessage now newId senderId content_ chatId messageType_
                       replyTo_ in
  if validMessage m then
    let db1 := updateChat chatId (set_latestMessage (Some newId)) db in
    if bool_decide (newId ∈ map message_id (Message_coll db1))
    then inl db1
    else inr (m, withMessages (Message_coll db1 ++ [m]) db1)
  else inl db.

End Store.

(** ** Static methods of the Chat schema *)

Module ChatStatics.

(** The query of [findOrCreateOneOnOneChat]:
    [{ isGroupChat: false, $and: [users has userId1, users has userId2] }]. *)
Definition oneOnOneQuery (userId1 userId2 : ObjectId) (c : ChatDoc) : bool :=
  negb (isGroupChat c)
  && bool_decide (userId1 ∈ users c)
  && bool_decide (userId2 ∈ users c).

(** [None] is a thrown error; the chat returned is nullable as in the
    source ([findById] after the create). *)
Definition findOrCreateOneOnOneChat (now : Date) (newId : ObjectId)
           (userId1 userId2 : ObjectId) (db : DB)
  : option (option ChatDoc * DB) :=
  match List.find (oneOnOneQuery userId1 userId2) (Chat_coll db) with
  | Some c => Some (Some c, db)
  | None =>
      let newChat :=
        mkChat newId "Private Chat" false [userId1; userId2] None None EmptyString
               [mkUnread userId1 0 now; mkUnread userId2 0 now] [] in
      match Store.createChat newChat db with
      | None => None
      | Some db' => Some (Store.findChat newId db', db')
      end
  end.

End ChatStatics.

(** ** HTTP responses and socket emissions *)

Record Response := mkRes {
  res_status : nat;
  res_success : bool;
  res_message : string
}.

#[global] Instance Response_eq_dec : EqDecision Response.
Proof. solve_decision. Defined.

Definition SocketId := N.

Inductive Event :=
| message_received (message : MessageDoc) (chatId : ObjectId)
| notification (chatId : ObjectId) (message : MessageDoc) (senderId : ObjectId)
| chat_updated (chatId : ObjectId) (latest : MessageDoc)
| message_edited (messageId : ObjectId) (newContent : option string)
                 (edited : bool) (at_ : option Date)
| user_typing (userId chatId : ObjectId)
| user_stopped_typing (userId chatId : ObjectId)
| error (message : string).

#[global] Instance Event_eq_dec : EqDecision Event.
Proof. solve_decision. Defined.

(** One call of [emit]:
    [io.to(room).emit(e)] reaches every socket in the room,
    [socket.to(room).emit(e)] every socket in the room but the emitting one,
    [socket.emit(e)] the emitting socket only. *)
Inductive Emit :=
| io_to (room : ObjectId) (e : Event)
| socket_to (from : SocketId) (room : ObjectId) (e : Event)
| socket_emit (from : SocketId) (e : Event).

#[global] Instance Emit_eq_dec : EqDecision Emit.
Proof. solve_decision. Defined.

(** A live connection: its socket id, the authenticated user and the rooms
    the socket has joined. *)
Record Connection := mkConn {
  conn_socket : SocketId;
  conn_user : ObjectId;
  conn_rooms : list ObjectId
}.

(** Whether an emission reaches a connection. *)
Definition reaches (e : Emit) (k : Connection) : bool :=
  match e with
  | io_to room _ => bool_decide (room ∈ conn_rooms k)
  | socket_to from room _ =>
      bool_decide (room ∈ conn_rooms k)
      && negb (bool_decide (conn_socket k = from))
  | socket_emit from _ => bool_decide (conn_socket k = from)
  end.

Definition eventOf (e : Emit) : Event :=
  match e with
  | io_to _ ev | socket_to _ _ ev | socket_emit _ ev => ev
  end.

(** The events a connection receives from a list of emissions. *)
Definition received (out : list Emit) (k : Connection) : list Event :=
  map eventOf (List.filter (fun e => reaches e k) out).

(** ** REST controllers of chats

    Every controller runs behind [protect]; [me] is [req.user._id], the
    authenticated user.  A controller returns its response and the store it
    leaves. *)

Module chatController.

Definition reply (status : nat) (ok : bool) (msg : string) (db : DB)
  : Response * DB := (mkRes status ok msg, db).

(** [[...new Set(ids)]]: duplicates removed, first occurrences kept in
    order. *)
Fixpoint uniqueOf (ids : list ObjectId) : list ObjectId :=
  match ids with
  | [] => []
  | id :: rest => id :: filter (fun x => x ≠ id) (uniqueOf rest)
  end.

Definition accessChat (now : Date) (newId me : ObjectId)
           (userId : option ObjectId) (db : DB) : Response * DB :=
  match userId with
  | None => reply 400 false "UserId parameter is required" db
  | Some target =>
      if decide (target = me)
      then reply 400 false "Cannot create chat with yourself" db
      else if negb (Store.userExists target db)
      then reply 404 false "User not found" db
      else
        match ChatStatics.findOrCreateOneOnOneChat now newId me target db with
        | None => reply 500 false "Server error while accessing chat" db
        | Some (None, db') =>
            reply 500 false "Server error while accessing chat" db'
        | Some (Some c, db') =>
            match List.find (fun u => negb (bool_decide (u = me))) (users c) with
            | None => reply 500 false "Server error while accessing chat" db'
            | Some _ => reply 200 true "Chat accessed successfully" db'
            end
        end
  end.

(** [users] is [None] when the body has no array under that key. *)
Definition createGroupChat (now : Date) (newId me : ObjectId)
           (users_ : option (list ObjectId)) (chatName_ : option string)
           (groupDescription_ : option string) (db : DB) : Response * DB :=
  match users_ with
  | None => reply 400 false "Group chat must have at least 2 other users" db
  | Some us =>
      if Nat.ltb (List.length us) 2
      then reply 400 false "Group chat must have at least 2 other users" db
      else
        match chatName_ with
        | None => reply 400 false "Group chat name is required" db
        | Some name =>
            if Nat.eqb (String.length (trim name)) 0
            then reply 400 false "Group chat name is required" db
            else
              let validUsers :=
                List.filter (fun u => bool_decide (u ∈ us)) (User_coll db) in
              if negb (Nat.eqb (List.length validUsers) (List.length us))
              then reply 400 false "One or more user IDs are invalid" db
              else
                let allUsers := me :: us in
                let uniqueUsers := uniqueOf allUsers in
                let groupChat :=
                  mkChat newId (trim name) true uniqueUsers None (Some me)
                         (match groupDescription_ with
                          | Some d => trim d
                          | None => EmptyString
                          end)
                         (map (fun userId => mkUnread userId 0 now) uniqueUsers)
                         [] in
                match Store.createChat groupChat db with
                | None =>
                    reply 500 false "Server error while creating group chat" db
                | Some db' =>
                    reply 201 true "Group chat created successfully" db'
                end
        end
  end.

(** The [isGroupAdmin] middleware: either a response that ends the request,
    or [req.chat]. *)
Definition isGroupAdmin (me chatId : ObjectId) (db : DB)
  : Response + ChatDoc :=
  match Store.findChat chatId db with
  | None => inl (mkRes 404 false "Chat not found")
  | Some c =>
      if negb (isGroupChat c)
      then inl (mkRes 400 false "This is not a group chat")
      else
        match groupAdmin c with
        | None => inl (mkRes 500 false "Server error during authorization check")
        | Some admin =>
            if decide (admin ≠ me)
            then inl (mkRes 403 false "Only group admin can perform this action")
            else inr c
        end
  end.

Definition addToGroup (now : Date) (req_chat : ChatDoc) (chatId : ObjectId)
           (userId : option ObjectId) (db : DB) : Response * DB :=
  match userId with
  | None => reply 400 false "User ID is required" db
  | Some u =>
      if negb (Store.userExists u db)
      then reply 404 false "User not found" db
      else if bool_decide (u ∈ users req_chat)
      then reply 400 false "User is already in the group" db
      else
        reply 200 true "User added to group successfully"
          (Store.updateChat chatId
             (fun c =>
                set_unreadCount (unreadCount c ++ [mkUnread u 0 now])
                  (set_users (users c ++ [u]) c))
             db)
  end.

Definition removeFromGroup (req_chat : ChatDoc) (chatId : ObjectId)
           (userId : option ObjectId) (db : DB) : Response * DB :=
  match userId with
  | None => reply 400 false "User ID is required" db
  | Some u =>
      if negb (bool_decide (u ∈ users req_chat))
      then reply 400 false "User is not in the group" db
      else
        match groupAdmin req_chat with
        | None => reply 500 false "Server error while removing user from group" db
        | Some admin =>
            if decide (admin = u)
            then reply 400 false
                   "Cannot remove group admin. Transfer admin rights first." db
            else
              reply 200 true "User removed from group successfully"
                (Store.updateChat chatId
                   (fun c =>
                      set_unreadCount
                        (filter (fun item => unread_user item ≠ u)
                                (unreadCount c))
                        (set_users (filter (fun x => x ≠ u) (users c)) c))
                   db)
        end
  end.

(** The routes [PUT /group/:chatId/add] and [PUT /group/:chatId/remove]:
    middleware, then controller. *)
Definition route_add (now : Date) (me chatId : ObjectId)
           (userId : option ObjectId) (db : DB) : Response * DB :=
  match isGroupAdmin me chatId db with
  | inl r => (r, db)
  | inr c => addToGroup now c chatId userId db
  end.

Definition route_remove (me chatId : ObjectId)
           (userId : option ObjectId) (db : DB) : Response * DB :=
  match isGroupAdmin me chatId db with
  | inl r => (r, db)
  | inr c => removeFromGroup c chatId userId db
  end.

Definition leaveGroup (me chatId : ObjectId) (db : DB) : Response * DB :=
  match Store.findChat chatId db with
  | None => reply 404 false "Chat not found" db
  | Some c =>
      if negb (isGroupChat c)
      then reply 400 false "This is not a group chat" db
      else if negb (bool_decide (me ∈ users c))
      then reply 400 false "You are not a member of this group" db
      else
        let leave (c' : ChatDoc) :=
          reply 200 true "Left group successfully"
            (Store.saveChat
               (set_unreadCount
                  (filter (fun item => unread_user item ≠ me) (unreadCount c'))
                  (set_users (filter (fun x => x ≠ me) (users c')) c'))
               db) in
        match groupAdmin c with
        | None => reply 500 false "Server error while leaving group" db
        | Some admin =>
            if decide (admin = me) then
              let otherUsers := filter (fun x => x ≠ me) (users c) in
              match otherUsers with
              | first :: _ => leave (set_groupAdmin (Some first) c)
              | [] =>
                  reply 200 true "Group deleted as you were the last member"
                    (Store.deleteChatById (chat_id c) db)
              end
            else leave c
        end
  end.

Definition deleteChat (me chatId : ObjectId) (db : DB) : Response * DB :=
  match Store.findChat chatId db with
  | None => reply 404 false "Chat not found" db
  | Some c =>
      if negb (bool_decide (me ∈ users c))
      then reply 403 false "You are not authorized to delete this chat" db
      else
        let delete :=
          reply 200 true "Chat deleted successfully"
            (Store.deleteChatById (chat_id c)
               (Store.deleteMessagesOf (chat_id c) db)) in
        if isGroupChat c then
          match groupAdmin c with
          | None => reply 500 false "Server error while deleting chat" db
          | Some admin =>
              if decide (admin ≠ me)
              then reply 403 false "Only group admin can delete the group" db
              else delete
          end
        else delete
  end.

End chatController.

(** ** REST controllers of messages

    [server.js] registers the socket server under ['io'] before any route is
    served, so [req.app.get('io')] is always set and the emissions below
    always happen.  A controller returns its response, the store it leaves
    and the emissions it made. *)

Module messageController.

Definition reply (status : nat) (ok : bool) (msg : string) (db : DB)
  : Response * DB * list Emit := (mkRes status ok msg, db, []).

(** The update of the chat both senders make after the message is stored:
    [chat.latestMessage = message._id; chat.incrementUnreadCount(sender);
     chat.removeTypingUser(sender)]. *)
Definition chatAfterSend (senderId messageId : ObjectId) (c : ChatDoc)
  : ChatDoc :=
  Chat.removeTypingUser senderId
    (Chat.incrementUnreadCount senderId
       (set_latestMessage (Some messageId) c)).

Definition sendMessage (now : Date) (newId me : ObjectId)
           (content_ : option string) (chatId_ : option ObjectId)
           (messageType_ : option string) (replyTo_ : option ObjectId)
           (db : DB) : Response * DB * list Emit :=
  let messageType := default "text" messageType_ in
  match chatId_ with
  | None => reply 400 false "Chat ID is required" db
  | Some chatId =>
      if bool_decide (content_ = None ∨ content_ = Some EmptyString)
         && String.eqb messageType "text"
      then reply 400 false "Message content is required" db
      else
        match Store.findChat chatId db with
        | None => reply 404 false "Chat not found" db
        | Some c =>
            if negb (bool_decide (me ∈ users c))
            then reply 403 false "You are not a member of this chat" db
            else
              let replyOk :=
                match replyTo_ with
                | None => true
                | Some r =>
                    match Store.findMessage r db with
                    | None => false
                    | Some replyMessage =>
                        bool_decide (chat replyMessage = chatId)
                    end
                end in
              if negb replyOk
              then reply 400 false "Invalid reply message" db
              else
                match Store.createMessage now newId me (trim <$> content_)
                        chatId messageType replyTo_ db with
                | inl db' =>
                    reply 500 false "Server error while sending message" db'
                | inr (message, db1) =>
                    let c' := chatAfterSend me (message_id message) c in
                    let db2 := Store.saveChat c' db1 in
                    (mkRes 201 true "Message sent successfully", db2,
                     map (fun userId =>
                            io_to userId (message_received message chatId))
                         (filter (fun userId => userId ≠ me) (users c'))
                       ++ [io_to chatId (chat_updated chatId message)])
                end
        end
  end.

Definition editMessage (now : Date) (me messageId : ObjectId)
           (content_ : option string) (db : DB) : Response * DB * list Emit :=
  match content_ with
  | None => reply 400 false "Message content is required" db
  | Some s =>
      if bool_decide (s = EmptyString) || Nat.eqb (String.length (trim s)) 0
      then reply 400 false "Message content is required" db
      else
        match Store.findMessage messageId db with
        | None => reply 404 false "Message not found" db
        | Some message =>
            (* [populate('sender')] leaves [null] for a sender that is not
               in the collection and [message.sender._id] then throws *)
            if negb (Store.userExists (sender message) db)
            then reply 500 false "Server error while editing message" db
            else if decide (sender message ≠ me)
            then reply 403 false "You can only edit your own messages" db
            else
              let twentyFourHoursAgo := now - 24 * 60 * 60 * 1000 in
              if decide (createdAt message < twentyFourHoursAgo)
              then reply 400 false "Cannot edit messages older than 24 hours" db
              else
                let message' := Message.editContent now (trim s) message in
                if negb (Store.validContentField (content message'))
                then reply 500 false "Server error while editing message" db
                else
                  (mkRes 200 true "Message edited successfully",
                   Store.saveMessage message' db,
                   [io_to (chat message')
                      (message_edited (message_id message') (content message')
                                      (isEdited message') (editedAt message'))])
        end
  end.

End messageController.

(** ** The real-time event router *)

Module socket.

(** The handlers of one connection close over its [socket]: the socket id
    and [socket.userId], the user authenticated at the handshake. *)
Record Socket := mkSocket {
  socket_id : SocketId;
  userId : ObjectId
}.

(** [send_message].  [connectedUsers] is the registry (user id to socket
    id) the handler consults for the notifications. *)
Definition on_send_message (connectedUsers : gmap ObjectId SocketId)
           (s : Socket) (now : Date) (newId : ObjectId)
           (content_ : option string) (chatId_ : option ObjectId)
           (messageType_ : option string) (replyTo_ : option ObjectId)
           (db : DB) : DB * list Emit :=
  let messageType := default "text" messageType_ in
  let notAuthorized :=
    (db, [socket_emit (socket_id s)
            (error "Not authorized to send message to this chat")]) in
  match chatId_ with
  | None => notAuthorized
  | Some chatId =>
      match Store.findChat chatId db with
      | None => notAuthorized
      | Some c =>
          if negb (bool_decide (userId s ∈ users c)) then notAuthorized
          else
            match Store.createMessage now newId (userId s) (trim <$> content_)
                    chatId messageType replyTo_ db with
            | inl db' =>
                (db', [socket_emit (socket_id s)
                         (error "Failed to send message")])
            | inr (message, db1) =>
                let c' :=
                  messageController.chatAfterSend
                    (userId s) (message_id message) c in
                let db2 := Store.saveChat c' db1 in
                (db2,
                 io_to chatId (message_received message chatId)
                   :: map (fun u =>
                             io_to u (notification chatId message (userId s)))
                          (filter (fun u => u ≠ userId s
                                            ∧ is_Some (connectedUsers !! u))
                                  (users c')))
            end
      end
  end.

(** A pending [setTimeout] callback of the [typing] handler: when it is due
    and what its closure holds. *)
Record Timer := mkTimer {
  timer_due : Date;
  timer_socket : Socket;
  timer_chat : ObjectId
}.

(** [typing]: the store, the emissions and the timers it schedules. *)
Definition on_typing (s : Socket) (now : Date) (chatId : ObjectId) (db : DB)
  : DB * list Emit * list Timer :=
  match Store.findChat chatId db with
  | None => (db, [], [])
  | Some c =>
      if bool_decide (userId s ∈ users c) then
        (Store.saveChat (Chat.addTypingUser now (userId s) c) db,
         [socket_to (socket_id s) chatId (user_typing (userId s) chatId)],
         [mkTimer (now + 5000) s chatId])
      else (db, [], [])
  end.

(** The callback the [typing] handler passes to [setTimeout]. *)
Definition typingTimeout (t : Timer) (db : DB) : DB * list Emit :=
  let s := timer_socket t in
  match Store.findChat (timer_chat t) db with
  | None => (db, [])
  | Some updatedChat =>
      (Store.saveChat (Chat.removeTypingUser (userId s) updatedChat) db,
       [socket_to (socket_id s) (timer_chat t)
          (user_stopped_typing (userId s) (timer_chat t))])
  end.

(** [stop_typing] *)
Definition on_stop_typing (s : Socket) (chatId : ObjectId) (db : DB)
  : DB * list Emit :=
  match Store.findChat chatId db with
  | None => (db, [])
  | Some c =>
      if bool_decide (userId s ∈ users c) then
        (Store.saveChat (Chat.removeTypingUser (userId s) c) db,
         [socket_to (socket_id s) chatId
            (user_stopped_typing (userId s) chatId)])
      else (db, [])
  end.

End socket.

(** ** The event loop around the typing handlers

    The server state the typing handlers and their timers act on: the
    store, the pending [setTimeout] callbacks in the order they were
    scheduled, and the log of emissions, each tagged with what made it: an
    event handler or a timer callback. *)

Module eventLoop.

Import socket.

Inductive Origin := by_handler | by_timer.

#[global] Instance Origin_eq_dec : EqDecision Origin.
Proof. solve_decision. Defined.

Record Server := mkServer {
  srv_db : DB;
  srv_timers : list Timer;
  srv_log : list (Origin * Emit)
}.

Inductive Input :=
| typing (s : Socket) (chatId : ObjectId)
| stop_typing (s : Socket) (chatId : ObjectId).

(** Run one timer callback. *)
Definition fire (t : Timer) (srv : Server) : Server :=
  let '(db', out) := typingTimeout t (srv_db srv) in
  mkServer db' (srv_timers srv)
           (srv_log srv ++ map (pair by_timer) out).

Definition fireAll (due : list Timer) (srv : Server) : Server :=
  fold_left (fun acc t => fire t acc) due srv.

(** The clock reaches [now]: the callbacks due by then run, in the order
    they were scheduled, and leave the pending list. *)
Definition advance (now : Date) (srv : Server) : Server :=
  let due := List.filter (fun t => bool_decide (timer_due t <= now))
                         (srv_timers srv) in
  let pending := List.filter (fun t => negb (bool_decide (timer_due t <= now)))
                             (srv_timers srv) in
  fireAll due (mkServer (srv_db srv) pending (srv_log srv)).

(** Dispatch one inbound event read at time [now]. *)
Definition handle (now : Date) (i : Input) (srv : Server) : Server :=
  match i with
  | typing s chatId =>
      let '(db', out, timers) := on_typing s now chatId (srv_db srv) in
      mkServer db' (srv_timers srv ++ timers)
               (srv_log srv ++ map (pair by_handler) out)
  | stop_typing s chatId =>
      let '(db', out) := on_stop_typing s chatId (srv_db srv) in
      mkServer db' (srv_timers srv)
               (srv_log srv ++ map (pair by_handler) out)
  end.

(** A trace of inbound events with the times they arrive at. *)
Fixpoint run (trace : list (Date * Input)) (srv : Server) : Server :=
  match trace with
  | [] => srv
  | (now, i) :: rest => run rest (handle now i (advance now srv))
  end.

(** The [user_stopped_typing] broadcasts for a user and chat that timer
    callbacks made. *)
Definition expiryBroadcasts (u chatId : ObjectId) (log : list (Origin * Emit))
  : list (Origin * Emit) :=
  List.filter
    (fun e => bool_decide (e.1 = by_timer
                           ∧ eventOf e.2 = user_stopped_typing u chatId))
    log.

(** Whether user [u] is a member of an existing chat [chatId]: the guard
    [chat && chat.users.includes(socket.userId)] of the typing handlers. *)
Definition memberOf (db : DB) (u chatId : ObjectId) : bool :=
  match Store.findChat chatId db with
  | Some c => bool_decide (u ∈ users c)
  | None => false
  end.

(** Whether a trace entry is a typing-start of user [u] in chat [chatId]
    that the handler accepts. *)
Definition acceptedTyping (db : DB) (u chatId : ObjectId) (e : Date * Input)
  : bool :=
  match e.2 with
  | typing s chatId' =>
      bool_decide (userId s = u ∧ chatId' = chatId) && memberOf db u chatId
  | stop_typing _ _ => false
  end.

(** Whether a pending timer belongs to user [u] and chat [chatId]. *)
Definition timerFor (u chatId : ObjectId) (t : Timer) : bool :=
  bool_decide (userId (timer_socket t) = u ∧ timer_chat t = chatId).

(** The log entry of a timer callback that found its chat. *)
Definition expiryEntry (t : Timer) : Origin * Emit :=
  (by_timer,
   socket_to (socket_id (timer_socket t)) (timer_chat t)
     (user_stopped_typing (userId (timer_socket t)) (timer_chat t))).

(** The bookkeeping of a run that started from store [db0], for user [u]
    and chat [chatId]: memberships are those of [db0]; every pending timer
    is due by [T] and belongs to a member of an existing chat; and the
    expiry broadcasts made so far plus the timers still pending number
    [n]. *)
Definition timersAccounted (T : Date) (db0 : DB) (u chatId : ObjectId)
           (n : nat) (srv : Server) : Prop :=
  (∀ u' id, memberOf (srv_db srv) u' id = memberOf db0 u' id)
  ∧ Forall (fun t => timer_due t <= T
                     ∧ memberOf db0 (userId (timer_socket t)) (timer_chat t)
                       = true)
           (srv_timers srv)
  ∧ (List.length (expiryBroadcasts u chatId (srv_log srv))
     + List.length (List.filter (timerFor u chatId) (srv_timers srv)))%nat = n.

End eventLoop.

(** ** Sequences of operations *)

(** The two reaction operations of a message. *)
Inductive ReactionOp :=
| add_reaction (now : Date) (userId : ObjectId) (emoji : string)
| remove_reaction (userId : ObjectId).

Definition applyReactionOp (m : MessageDoc) (op : ReactionOp) : MessageDoc :=
  match op with
  | add_reaction now u e => Message.addReaction now u e m
  | remove_reaction u => Message.removeReaction u m
  end.

(** The reactions of user [u] on message [m]. *)
Definition reactionsOf (u : ObjectId) (m : MessageDoc) : list Reaction :=
  filter (fun r => reaction_user r = u) (reactions m).

(** The three typing operations of a chat. *)
Inductive TypingOp :=
| typing_add (now : Date) (userId : ObjectId)
| typing_remove (userId : ObjectId)
| typing_clean (now : Date).

Definition applyTypingOp (c : ChatDoc) (op : TypingOp) : ChatDoc :=
  match op with
  | typing_add now u => Chat.addTypingUser now u c
  | typing_remove u => Chat.removeTypingUser u c
  | typing_clean now => Chat.cleanOldTypingIndicators now c
  end.

(** The typing entries of user [u] in chat [c]. *)
Definition typingOf (u : ObjectId) (c : ChatDoc) : list TypingItem :=
  filter (fun item => typing_user item = u) (typingUsers c).

(** The membership operations on the chat collection, as requests. *)
Inductive ChatOp :=
| op_accessChat (now : Date) (newId me : ObjectId) (userId : option ObjectId)
| op_createGroupChat (now : Date) (newId me : ObjectId)
    (users_ : option (list ObjectId)) (chatName_ : option string)
    (groupDescription_ : option string)
| op_addToGroup (now : Date) (me chatId : ObjectId) (userId : option ObjectId)
| op_removeFromGroup (me chatId : ObjectId) (userId : option ObjectId)
| op_leaveGroup (me chatId : ObjectId).

Definition applyChatOp (db : DB) (op : ChatOp) : DB :=
  match op with
  | op_accessChat now newId me userId =>
      (chatController.accessChat now newId me userId db).2
  | op_createGroupChat now newId me us name descr =>
      (chatController.createGroupChat now newId me us name descr db).2
  | op_addToGroup now me chatId userId =>
      (chatController.route_add now me chatId userId db).2
  | op_removeFromGroup me chatId userId =>
      (chatController.route_remove me chatId userId db).2
  | op_leaveGroup me chatId =>
      (chatController.leaveGroup me chatId db).2
  end.

(** A user is in [users] exactly when [unreadCount] has an entry for it. *)
Definition membersTracked (c : ChatDoc) : Prop :=
  ∀ u, u ∈ users c ↔ ∃ item, item ∈ unreadCount c ∧ unread_user item = u.

(** The entries' users are the members, in the same order. *)
Definition unreadMatchesUsers (c : ChatDoc) : Prop :=
  map unread_user (unreadCount c) = users c.

(** ** Example data

    Users 1 (Alice), 2 (Bob) and 3 (Carol); chat 100 is the one-on-one chat
    of Alice and Bob. *)

Definition exChat : ChatDoc :=
  mkChat 100%N "Private Chat" false [1%N; 2%N] None None EmptyString
         [mkUnread 1%N 0 0; mkUnread 2%N 0 0] [].

Definition exDB : DB := mkDB [1%N; 2%N; 3%N] [exChat] [].

(** Alice's and Bob's sockets; both are in the registry. *)
Definition exAlice : socket.Socket := socket.mkSocket 11%N 1%N.
Definition exBob : socket.Socket := socket.mkSocket 12%N 2%N.

Definition exConnected : gmap ObjectId SocketId :=
  <[1%N := 11%N]> (<[2%N := 12%N]> ∅).

(** Alice's connection has joined her private room and the chat room. *)
Definition exAliceConn : Connection := mkConn 11%N 1%N [1%N; 100%N].

(** The message either sender stores for Alice's "hi" at time 5000 under
    the fresh id 200. *)
Definition exHi : MessageDoc :=
  mkMessage 200%N 1%N (Some "hi") 100%N "text" [] [] None false None false
            None None 5000.

(** The store after Alice's "hi" has been stored. *)
Definition exEditDB : DB := mkDB [1%N; 2%N; 3%N] [exChat] [exHi].

(** Group 500 has lost every member but its admin Alice; message 600 was
    sent in it. *)
Definition exSoloGroup : ChatDoc :=
  mkChat 500%N "team" true [1%N] (Some 600%N) (Some 1%N) EmptyString
         [mkUnread 1%N 0 0] [].

Definition exGroupMessage : MessageDoc :=
  mkMessage 600%N 1%N (Some "bye") 500%N "text" [] [] None false None false
            None None 4000.

Definition exSoloDB : DB :=
  mkDB [1%N; 2%N; 3%N] [exSoloGroup] [exGroupMessage].

(** The chat of Alice and Bob while Bob's typing entry of time 1000 is
    stored. *)
Definition exTypingChat : ChatDoc :=
  mkChat 100%N "Private Chat" false [1%N; 2%N] None None EmptyString
         [mkUnread 1%N 0 0; mkUnread 2%N 0 0] [mkTyping 2%N 1000].

(** The server with the example store, no pending timer and an empty log. *)
Definition exServer : eventLoop.Server := eventLoop.mkServer exDB [] [].

(** Group 800 "team" of Alice (admin), Bob and Carol; user 4 (Dave) is
    registered too.  Message 201 is Bob's in the group. *)
Definition exTeam : ChatDoc :=
  mkChat 800%N "team" true [1%N; 2%N; 3%N] (Some 201%N) (Some 1%N)
         EmptyString
         [mkUnread 1%N 1 0; mkUnread 2%N 0 0; mkUnread 3%N 1 0] [].

Definition exTeamMessage : MessageDoc :=
  mkMessage 201%N 2%N (Some "hello team") 800%N "text" [] [] None false None
            false None None 5500.

Definition exTeamDB : DB :=
  mkDB [1%N; 2%N; 3%N; 4%N] [exChat; exTeam] [exHi; exTeamMessage].

(** ** Further instance methods of the Message schema *)

Module MessageMethods.

Definition set_readBy (v : list ReadReceipt) (m : MessageDoc) : MessageDoc :=
  mkMessage (message_id m) (sender m) (content m) (chat m) (messageType m)
            v (reactions m) (replyTo m) (isEdited m) (editedAt m)
            (isDeleted m) (deletedAt m) (deletedBy m) (createdAt m).

Definition markAsReadBy (now : Date) (userId : ObjectId) (m : MessageDoc)
  : MessageDoc :=
  match List.find (fun read => bool_decide (read_user read = userId))
                  (readBy m) with
  | Some _ => m
  | None => set_readBy (readBy m ++ [mkRead userId now]) m
  end.

Definition softDelete (now : Date) (deletedByUserId : ObjectId)
           (m : MessageDoc) : MessageDoc :=
  mkMessage (message_id m) (sender m) (Some "This message was deleted")
            (chat m)
            (messageType m) (readBy m) (reactions m) (replyTo m)
            (isEdited m) (editedAt m)
            true (Some now) (Some deletedByUserId) (createdAt m).

(** [message.save()] after the reactions were reassigned: the entries of
    the array are validated, and [emoji] is required. [None] is the thrown
    validation error. *)
Definition saveReactions (m : MessageDoc) (db : DB) : option DB :=
  if forallb (fun r => negb (String.eqb (reaction_emoji r) EmptyString))
             (reactions m)
  then Some (Store.saveMessage m db)
  else None.

End MessageMethods.

(** ** Further static methods of the Message schema *)

Module MessageStatics.

(** [sort({ createdAt: -1 })]: newest first.  MongoDB leaves the order of
    documents with equal keys open; here one of two such documents comes
    first. *)
Fixpoint insertDesc (m : MessageDoc) (l : list MessageDoc) : list MessageDoc :=
  match l with
  | [] => [m]
  | x :: l' =>
      if decide (createdAt x < createdAt m) then m :: l
      else x :: insertDesc m l'
  end.

Definition sortByCreatedDesc (l : list MessageDoc) : list MessageDoc :=
  foldr insertDesc [] l.

(** The filter [{ chat: chatId, isDeleted: false }]. *)
Definition visibleIn (chatId : ObjectId) (db : DB) : list MessageDoc :=
  filter (fun m => chat m = chatId ∧ isDeleted m = false) (Message_coll db).

(** [getChatMessages(chatId, page, limit)]: page and limit are positive
    integers; [skip = (page - 1) * limit]. *)
Definition getChatMessages (chatId : ObjectId) (page limit : positive)
           (db : DB) : list MessageDoc :=
  let skip := ((Pos.to_nat page - 1) * Pos.to_nat limit)%nat in
  take (Pos.to_nat limit) (drop skip (sortByCreatedDesc (visibleIn chatId db))).

(** [getUnreadCount(chatId, userId, lastReadTime)] *)
Definition getUnreadCount (chatId userId : ObjectId) (lastReadTime : Date)
           (db : DB) : nat :=
  List.length
    (filter (fun m => chat m = chatId ∧ sender m ≠ userId
                      ∧ createdAt m > lastReadTime ∧ isDeleted m = false)
            (Message_coll db)).

End MessageStatics.

(** ** Events and emissions of the remaining handlers

    A [Signal] is an outbound event of any handler: one of the events above
    or one of those the remaining handlers send.  ([user_status_change]
    also carries the user document, which is not modelled.) *)

Inductive Signal :=
| event (e : Event)
| joined_chat (chatId : ObjectId)
| left_chat (chatId : ObjectId)
| user_status_change (userId : ObjectId) (online : bool)
| reaction_added (messageId : ObjectId) (rs : list Reaction)
| reaction_removed (messageId : ObjectId) (rs : list Reaction)
| message_deleted (messageId chatId : ObjectId).

#[global] Instance Signal_eq_dec : EqDecision Signal.
Proof. solve_decision. Defined.

(** [io.to(room).emit], [socket.to(room).emit] and [socket.emit]. *)
Inductive Send :=
| to_room (room : ObjectId) (s : Signal)
| to_others (from : SocketId) (room : ObjectId) (s : Signal)
| to_self (from : SocketId) (s : Signal).

#[global] Instance Send_eq_dec : EqDecision Send.
Proof. solve_decision. Defined.

(** ** Further REST controllers of chats *)

Module chatRest.

Import chatController.

(** The [isChatMember] middleware with [req.params.chatId]. *)
Definition isChatMember (me chatId : ObjectId) (db : DB)
  : Response + ChatDoc :=
  match Store.findChat chatId db with
  | None => inl (mkRes 404 false "Chat not found")
  | Some c =>
      if bool_decide (me ∈ users c) then inr c
      else inl (mkRes 403 false "You are not a member of this chat")
  end.

Definition set_chatName (v : string) (c : ChatDoc) : ChatDoc :=
  mkChat (chat_id c) v (isGroupChat c) (users c) (latestMessage c)
         (groupAdmin c) (groupDescription c) (unreadCount c) (typingUsers c).

(** [renameGroup]: [findByIdAndUpdate] runs no validator, so the name is
    stored whatever its length. *)
Definition renameGroup (chatId : ObjectId) (chatName_ : option string)
           (db : DB) : Response * DB :=
  match chatName_ with
  | None => reply 400 false "Group chat name is required" db
  | Some name =>
      if Nat.eqb (String.length (trim name)) 0
      then reply 400 false "Group chat name is required" db
      else
        match Store.findChat chatId db with
        | None => reply 404 false "Chat not found" db
        | Some _ =>
            reply 200 true "Group chat renamed successfully"
              (Store.updateChat chatId (set_chatName (trim name)) db)
        end
  end.

Definition markChatAsRead (now : Date) (me chatId : ObjectId) (db : DB)
  : Response * DB :=
  match Store.findChat chatId db with
  | None => reply 404 false "Chat not found" db
  | Some c =>
      if negb (bool_decide (me ∈ users c))
      then reply 403 false "You are not a member of this chat" db
      else
        reply 200 true "Chat marked as read"
          (Store.saveChat (Chat.resetUnreadCount now me c) db)
  end.

(** The routes [PUT /group/:chatId/rename] and [PUT /:chatId/read]. *)
Definition route_rename (me chatId : ObjectId) (chatName_ : option string)
           (db : DB) : Response * DB :=
  match isGroupAdmin me chatId db with
  | inl r => (r, db)
  | inr _ => renameGroup chatId chatName_ db
  end.

Definition route_read (now : Date) (me chatId : ObjectId) (db : DB)
  : Response * DB :=
  match isChatMember me chatId db with
  | inl r => (r, db)
  | inr _ => markChatAsRead now me chatId db
  end.

(** What [getChats] computes for one chat of the caller: the unread counter
    shown and the users shown as typing.  [cleanOldTypingIndicators] changes
    the loaded document only; nothing is saved. *)
Definition shownUnread (me : ObjectId) (c : ChatDoc) : Z :=
  Chat.unreadFor me c.

Definition shownTyping (now : Date) (me : ObjectId) (c : ChatDoc)
  : list ObjectId :=
  map typing_user
      (filter (fun item => typing_user item ≠ me)
              (typingUsers (Chat.cleanOldTypingIndicators now c))).

End chatRest.

(** ** Further REST controllers of messages *)

Module messageRest.

Definition reply (status : nat) (ok : bool) (msg : string) (db : DB)
  : Response * DB * list Send := (mkRes status ok msg, db, []).

(** [deleteMessage].  The newest visible message of the chat is the head of
    the descending sort. *)
Definition deleteMessage (now : Date) (me messageId : ObjectId) (db : DB)
  : Response * DB * list Send :=
  let failed := reply 500 false "Server error while deleting message" in
  match Store.findMessage messageId db with
  | None => reply 404 false "Message not found" db
  | Some message =>
      let proceed :=
        let db1 :=
          Store.saveMessage (MessageMethods.softDelete now me message) db in
        match Store.findChat (chat message) db1 with
        | None => failed db1
        | Some c =>
            let db2 :=
              if bool_decide (latestMessage c = Some messageId) then
                let latest :=
                  head (MessageStatics.sortByCreatedDesc
                          (MessageStatics.visibleIn (chat message) db1)) in
                Store.saveChat
                  (set_latestMessage (message_id <$> latest) c) db1
              else db1 in
            (mkRes 200 true "Message deleted successfully", db2,
             [to_room (chat message)
                (message_deleted (message_id message) (chat message))])
        end in
      if bool_decide (sender message = me) then proceed
      else
        match Store.findChat (chat message) db with
        | None => reply 403 false
                    "You can only delete your own messages or as group admin" db
        | Some c =>
            if isGroupChat c then
              match groupAdmin c with
              | None => failed db
              | Some admin =>
                  if bool_decide (admin = me) then proceed
                  else reply 403 false
                         "You can only delete your own messages or as group admin"
                         db
              end
            else reply 403 false
                   "You can only delete your own messages or as group admin" db
        end
  end.

(** [addReaction] of the REST facade. *)
Definition addReaction (now : Date) (me messageId : ObjectId)
           (emoji : option string) (db : DB) : Response * DB * list Send :=
  match emoji with
  | None => reply 400 false "Emoji is required" db
  | Some e =>
      if bool_decide (e = EmptyString)
      then reply 400 false "Emoji is required" db
      else
        match Store.findMessage messageId db with
        | None => reply 404 false "Message not found" db
        | Some message =>
            match Store.findChat (chat message) db with
            | None => reply 500 false "Server error while adding reaction" db
            | Some c =>
                if negb (bool_decide (me ∈ users c))
                then reply 403 false "You are not a member of this chat" db
                else
                  match MessageMethods.saveReactions
                          (Message.addReaction now me e message) db with
                  | None =>
                      reply 500 false "Server error while adding reaction" db
                  | Some db' =>
                      match Store.findMessage messageId db' with
                      | None =>
                          reply 500 false "Server error while adding reaction"
                                db'
                      | Some updatedMessage =>
                          (mkRes 200 true "Reaction added successfully", db',
                           [to_room (chat message)
                              (reaction_added (message_id message)
                                              (reactions updatedMessage))])
                      end
                  end
            end
        end
  end.

(** [removeReaction] of the REST facade. *)
Definition removeReaction (me messageId : ObjectId) (db : DB)
  : Response * DB * list Send :=
  match Store.findMessage messageId db with
  | None => reply 404 false "Message not found" db
  | Some message =>
      match MessageMethods.saveReactions
              (Message.removeReaction me message) db with
      | None => reply 500 false "Server error while removing reaction" db
      | Some db' =>
          match Store.findMessage messageId db' with
          | None => reply 500 false "Server error while removing reaction" db'
          | Some updatedMessage =>
              (mkRes 200 true "Reaction removed successfully", db',
               [to_room (chat message)
                  (reaction_removed (message_id message)
                                    (reactions updatedMessage))])
          end
      end
  end.

(** The data of a [getMessages] response. *)
Record MessagesPage := mkPage {
  page_messages : list MessageDoc;
  page_current : nat;
  page_pages : nat;
  page_total : nat;
  page_hasMore : bool
}.

(** [getMessages] for positive integers [page] and [limit] (defaults 1 and
    50): the page oldest first, [pages = Math.ceil(total / limit)] and
    [hasMore = page * limit < total]. *)
Definition getMessages (me chatId : ObjectId) (page_ limit_ : option positive)
           (db : DB) : Response * option MessagesPage :=
  let page := default 1%positive page_ in
  let limit := default 50%positive limit_ in
  match Store.findChat chatId db with
  | None => (mkRes 404 false "Chat not found", None)
  | Some c =>
      if negb (bool_decide (me ∈ users c))
      then (mkRes 403 false "You are not a member of this chat", None)
      else
        let messages := MessageStatics.getChatMessages chatId page limit db in
        let sortedMessages := rev messages in
        let totalMessages :=
          List.length (MessageStatics.visibleIn chatId db) in
        (mkRes 200 true EmptyString,
         Some (mkPage sortedMessages (Pos.to_nat page)
                 (Nat.div (totalMessages + Pos.to_nat limit - 1)
                          (Pos.to_nat limit))
                 totalMessages
                 (Nat.ltb (Pos.to_nat page * Pos.to_nat limit) totalMessages)))
  end.

End messageRest.

(** ** Further handlers of the event router *)

Module router.

Import socket.

(** [socket.join(room)] and [socket.leave(room)]: the rooms of a socket are
    a set. *)
Definition joinRoom (room : ObjectId) (k : Connection) : Connection :=
  if bool_decide (room ∈ conn_rooms k) then k
  else mkConn (conn_socket k) (conn_user k) (conn_rooms k ++ [room]).

Definition leaveRoom (room : ObjectId) (k : Connection) : Connection :=
  mkConn (conn_socket k) (conn_user k)
         (filter (fun r => r ≠ room) (conn_rooms k)).

(** Whether a [Send] reaches a connection, as [reaches] for an [Emit]. *)
Definition delivered (e : Send) (k : Connection) : bool :=
  match e with
  | to_room room _ => bool_decide (room ∈ conn_rooms k)
  | to_others from room _ =>
      bool_decide (room ∈ conn_rooms k)
      && negb (bool_decide (conn_socket k = from))
  | to_self from _ => bool_decide (conn_socket k = from)
  end.

(** [join_chat]: the handler of the connection [k], whose socket is
    authenticated as [conn_user k]. *)
Definition on_join_chat (now : Date) (k : Connection) (chatId : ObjectId)
           (db : DB) : DB * Connection * list Send :=
  match Store.findChat chatId db with
  | None =>
      (db, k, [to_self (conn_socket k)
                 (event (error "Not authorized to join this chat"))])
  | Some c =>
      if bool_decide (conn_user k ∈ users c) then
        (Store.saveChat (Chat.resetUnreadCount now (conn_user k) c) db,
         joinRoom chatId k,
         [to_self (conn_socket k) (joined_chat chatId)])
      else
        (db, k, [to_self (conn_socket k)
                   (event (error "Not authorized to join this chat"))])
  end.

(** [leave_chat] *)
Definition on_leave_chat (k : Connection) (chatId : ObjectId)
  : Connection * list Send :=
  (leaveRoom chatId k, [to_self (conn_socket k) (left_chat chatId)]).

(** [add_reaction]: an absent [emoji] is the empty string here; both fail
    the validation of [save], after which nothing is emitted. *)
Definition on_add_reaction (now : Date) (s : Socket) (messageId : ObjectId)
           (emoji : option string) (db : DB) : DB * list Send :=
  match Store.findMessage messageId db with
  | None => (db, [])
  | Some message =>
      match Store.findChat (chat message) db with
      | None => (db, [])
      | Some c =>
          if bool_decide (userId s ∈ users c) then
            match MessageMethods.saveReactions
                    (Message.addReaction now (userId s)
                       (default EmptyString emoji) message) db with
            | None => (db, [])
            | Some db' =>
                match Store.findMessage messageId db' with
                | None => (db', [])
                | Some updatedMessage =>
                    (db', [to_room (chat message)
                             (reaction_added messageId
                                             (reactions updatedMessage))])
                end
            end
          else (db, [])
      end
  end.

(** [remove_reaction] *)
Definition on_remove_reaction (s : Socket) (messageId : ObjectId) (db : DB)
  : DB * list Send :=
  match Store.findMessage messageId db with
  | None => (db, [])
  | Some message =>
      match MessageMethods.saveReactions
              (Message.removeReaction (userId s) message) db with
      | None => (db, [])
      | Some db' =>
          match Store.findMessage messageId db' with
          | None => (db', [])
          | Some updatedMessage =>
              (db', [to_room (chat message)
                       (reaction_removed messageId (reactions updatedMessage))])
          end
      end
  end.

(** [sendNotificationToUser]: whether the user is in the registry, and the
    emission made if so. *)
Definition sendNotificationToUser (connectedUsers : gmap ObjectId SocketId)
           (userId : ObjectId) (n : Signal) : bool * list Send :=
  match connectedUsers !! userId with
  | Some _ => (true, [to_room userId n])
  | None => (false, [])
  end.

End router.

(** ** Presence: user documents, the connection registry, connect and
       disconnect *)

(** The fields of a User document the presence code writes.  [socketId] is
    [None] for the empty string. *)
Record UserDoc := mkUser {
  user_id : ObjectId;
  isOnline : bool;
  lastSeen : Date;
  socketId : option SocketId
}.

#[global] Instance UserDoc_eq_dec : EqDecision UserDoc.
Proof. solve_decision. Defined.

(** What connect and disconnect act on: the User collection, the registry
    [connectedUsers] and the store of chats and messages. *)
Record World := mkWorld {
  w_users : list UserDoc;
  w_registry : gmap ObjectId SocketId;
  w_db : DB
}.

Module presence.

Import socket.

(** [User.findByIdAndUpdate(id, update)] *)
Definition updateUser (id : ObjectId) (f : UserDoc → UserDoc)
           (us : list UserDoc) : list UserDoc :=
  map (fun u => if decide (user_id u = id) then f u else u) us.

(** [Chat.find({ users: { $elemMatch: { $eq: userId } } })] *)
Definition chatsOf (u : ObjectId) (db : DB) : list ChatDoc :=
  filter (fun c => u ∈ users c) (Chat_coll db).

(** The body of [handleConnection] up to the registration of the
    handlers: the connection starts in the user's private room and in the
    room of every chat of the user.  (The room socket.io names after the
    socket's own id is left out: nothing is ever sent to it.) *)
Definition on_connection (now : Date) (s : Socket) (w : World)
  : World * Connection * list Send :=
  let us := updateUser (userId s)
              (fun u => mkUser (user_id u) true now (Some (socket_id s)))
              (w_users w) in
  let registry := <[userId s := socket_id s]> (w_registry w) in
  let userChats := chatsOf (userId s) (w_db w) in
  let k := foldl (fun k c => router.joinRoom (chat_id c) k)
                 (router.joinRoom (userId s)
                    (mkConn (socket_id s) (userId s) []))
                 userChats in
  (mkWorld us registry (w_db w), k,
   map (fun c => to_others (socket_id s) (chat_id c)
                   (user_status_change (userId s) true))
       userChats).

(** What [disconnect] does to the store: for every chat of the user,
    [chat.removeTypingUser(socket.userId); await chat.save()]. *)
Definition clearTyping (u : ObjectId) (db : DB) : DB :=
  foldl (fun db c => Store.saveChat (Chat.removeTypingUser u c) db)
        db (chatsOf u db).

(** [disconnect].  The callbacks of [userChats.forEach] are asynchronous;
    the emissions are listed chat by chat in the order of [userChats]. *)
Definition on_disconnect (now : Date) (s : Socket) (w : World)
  : World * list Send :=
  let us := updateUser (userId s)
              (fun u => mkUser (user_id u) false now None)
              (w_users w) in
  let registry := delete (userId s) (w_registry w) in
  let userChats := chatsOf (userId s) (w_db w) in
  (mkWorld us registry (clearTyping (userId s) (w_db w)),
   flat_map
     (fun c =>
        [to_others (socket_id s) (chat_id c)
           (user_status_change (userId s) false);
         to_others (socket_id s) (chat_id c)
           (event (user_stopped_typing (userId s) (chat_id c)))])
     userChats).

End presence.

(** ** Reachable stores

    The requests and events that change the store of chats and messages. *)

Inductive SysOp :=
| sys_chat (op : ChatOp)
| sys_deleteChat (me chatId : ObjectId)
| sys_rename (me chatId : ObjectId) (chatName_ : option string)
| sys_read (now : Date) (me chatId : ObjectId)
| sys_sendMessage (now : Date) (newId me : ObjectId)
    (content_ : option string) (chatId_ : option ObjectId)
    (messageType_ : option string) (replyTo_ : option ObjectId)
| sys_send_message (conn : gmap ObjectId SocketId) (s : socket.Socket)
    (now : Date) (newId : ObjectId)
    (content_ : option string) (chatId_ : option ObjectId)
    (messageType_ : option string) (replyTo_ : option ObjectId)
| sys_editMessage (now : Date) (me messageId : ObjectId)
    (content_ : option string)
| sys_deleteMessage (now : Date) (me messageId : ObjectId)
| sys_addReaction (now : Date) (me messageId : ObjectId)
    (emoji : option string)
| sys_removeReaction (me messageId : ObjectId)
| sys_add_reaction (now : Date) (s : socket.Socket) (messageId : ObjectId)
    (emoji : option string)
| sys_remove_reaction (s : socket.Socket) (messageId : ObjectId)
| sys_join_chat (now : Date) (k : Connection) (chatId : ObjectId)
| sys_typing (s : socket.Socket) (now : Date) (chatId : ObjectId)
| sys_stop_typing (s : socket.Socket) (chatId : ObjectId)
| sys_typingTimeout (t : socket.Timer)
| sys_disconnect (u : ObjectId).

Definition applySysOp (db : DB) (op : SysOp) : DB :=
  match op with
  | sys_chat op => applyChatOp db op
  | sys_deleteChat me chatId => (chatController.deleteChat me chatId db).2
  | sys_rename me chatId name => (chatRest.route_rename me chatId name db).2
  | sys_read now me chatId => (chatRest.route_read now me chatId db).2
  | sys_sendMessage now newId me content_ chatId_ mt reply =>
      (messageController.sendMessage now newId me content_ chatId_ mt reply
         db).1.2
  | sys_send_message conn s now newId content_ chatId_ mt reply =>
      (socket.on_send_message conn s now newId content_ chatId_ mt reply db).1
  | sys_editMessage now me messageId content_ =>
      (messageController.editMessage now me messageId content_ db).1.2
  | sys_deleteMessage now me messageId =>
      (messageRest.deleteMessage now me messageId db).1.2
  | sys_addReaction now me messageId emoji =>
      (messageRest.addReaction now me messageId emoji db).1.2
  | sys_removeReaction me messageId =>
      (messageRest.removeReaction me messageId db).1.2
  | sys_add_reaction now s messageId emoji =>
      (router.on_add_reaction now s messageId emoji db).1
  | sys_remove_reaction s messageId =>
      (router.on_remove_reaction s messageId db).1
  | sys_join_chat now k chatId => (router.on_join_chat now k chatId db).1.1
  | sys_typing s now chatId => (socket.on_typing s now chatId db).1.1
  | sys_stop_typing s chatId => (socket.on_stop_typing s chatId db).1
  | sys_typingTimeout t => (socket.typingTimeout t db).1
  | sys_disconnect u => presence.clearTyping u db
  end.

(** ObjectIds are generated fresh: a request that stores a message does so
    under an id no stored message has. *)
Definition freshFor (db : DB) (op : SysOp) : Prop :=
  match op with
  | sys_sendMessage _ newId _ _ _ _ _
  | sys_send_message _ _ _ newId _ _ _ _ =>
      newId ∉ map message_id (Message_coll db)
  | _ => True
  end.

(** The stores the system reaches from one without chats and messages. *)
Inductive reachable : DB → Prop :=
| reach_init (userIds : list ObjectId) : reachable (mkDB userIds [] [])
| reach_step (db : DB) (op : SysOp) :
    reachable db → freshFor db op → reachable (applySysOp db op).

(** What the membership invariants of a chat speak of. *)
Definition structure (c : ChatDoc)
  : ObjectId * bool * list ObjectId * option ObjectId * list ObjectId :=
  (chat_id c, isGroupChat c, users c, groupAdmin c,
   map unread_user (unreadCount c)).

(** The invariants of the chat collection. *)
Definition adminIsMember (c : ChatDoc) : Prop :=
  isGroupChat c = true → ∃ admin, groupAdmin c = Some admin ∧ admin ∈ users c.

Definition pairIfPrivate (c : ChatDoc) : Prop :=
  isGroupChat c = false → ∃ a b, users c = [a; b] ∧ a ≠ b.

Definition chatWellFormed (c : ChatDoc) : Prop :=
  adminIsMember c ∧ pairIfPrivate c ∧ NoDup (users c) ∧ unreadMatchesUsers c.

(** [latestMessage], when set, is the id of a stored message of the chat
    that is not deleted. *)
Definition latestStored (db : DB) (c : ChatDoc) : Prop :=
  ∀ id, latestMessage c = Some id →
        ∃ m, m ∈ Message_coll db ∧ message_id m = id ∧ chat m = chat_id c
             ∧ isDeleted m = false.

(** A store reached: distinct chat ids, distinct message ids, well-formed
    chats, stored latest messages. *)
Definition storeWellFormed (db : DB) : Prop :=
  NoDup (map chat_id (Chat_coll db))
  ∧ NoDup (map message_id (Message_coll db))
  ∧ Forall chatWellFormed (Chat_coll db)
  ∧ Forall (latestStored db) (Chat_coll db).

(** A store the system reaches: Alice opens the chat with Bob at time 0 and
    sends "hi" into it at time 5000. *)
Definition exOpened : DB :=
  applySysOp (mkDB [1%N; 2%N; 3%N] [] [])
             (sys_chat (op_accessChat 0 100%N 1%N (Some 2%N))).

Definition exSent : DB :=
  applySysOp exOpened
             (sys_sendMessage 5000 200%N 1%N (Some "hi") (Some 100%N)
                              None None).

(** Alice and Bob are connected while Bob's typing entry is stored. *)
Definition exWorld : World :=
  mkWorld [mkUser 1%N true 0 (Some 11%N); mkUser 2%N true 0 (Some 12%N)]
          exConnected
          (mkDB [1%N; 2%N; 3%N] [exTypingChat] []).

(** * Properties *)

(** ** Lists *)

Section ListFacts.
Context {A : Type}.

Lemma filter_filter_length (P Q : A → Prop)
      `{∀ x, Decision (P x)} `{∀ x, Decision (Q x)} (l : list A) :
  (List.length (filter P (filter Q l)) ≤ List.length (filter P l))%nat.
Proof.
  induction l as [|x l IH]; [done|].
  rewrite !filter_cons.
  destruct (decide (Q x)); destruct (decide (P x)); simpl;
    rewrite ?filter_cons; repeat case_decide; simpl; try tauto; lia.
Qed.

Lemma filter_excluded (B : Type) `{EqDecision B} (f : A → B) (b : B)
      (l : list A) :
  filter (fun x => f x = b) (filter (fun x => f x ≠ b) l) = [].
Proof.
  induction l as [|x l IH]; [done|].
  rewrite filter_cons. destruct (decide (f x ≠ b)); [|done].
  rewrite filter_cons. destruct (decide (f x = b)); [congruence|done].
Qed.

Lemma filter_other (B : Type) `{EqDecision B} (f : A → B) (b b' : B)
      (l : list A) :
  b ≠ b' →
  filter (fun x => f x = b) (filter (fun x => f x ≠ b') l)
  = filter (fun x => f x = b) l.
Proof.
  intros Hne. induction l as [|x l IH]; [done|].
  rewrite !filter_cons.
  destruct (decide (f x ≠ b')) as [Hx|Hx].
  - rewrite filter_cons. destruct (decide (f x = b)); by rewrite IH.
  - destruct (decide (f x = b)) as [Hb|Hb]; [|done].
    exfalso. apply Hx. congruence.
Qed.

End ListFacts.

(** ** C2: reactions *)

Lemma reactionsOf_add_same now u e m :
  reactionsOf u (Message.addReaction now u e m) = [mkReaction u e now].
Proof.
  unfold reactionsOf, Message.addReaction. simpl.
  rewrite filter_app, (filter_excluded _ reaction_user).
  rewrite filter_cons. simpl. by destruct (decide (u = u)).
Qed.

Lemma reactionsOf_add_other now u u' e m :
  u ≠ u' →
  reactionsOf u (Message.addReaction now u' e m) = reactionsOf u m.
Proof.
  intros Hne. unfold reactionsOf, Message.addReaction. simpl.
  rewrite filter_app, (filter_other _ reaction_user) by done.
  rewrite filter_cons. simpl.
  destruct (decide (u' = u)); [congruence|]. by rewrite app_nil_r.
Qed.

Lemma reactionsOf_remove_length u u' m :
  (List.length (reactionsOf u (Message.removeReaction u' m))
   ≤ List.length (reactionsOf u m))%nat.
Proof. apply filter_filter_length. Qed.

Lemma reactionsOf_step u m op :
  (List.length (reactionsOf u m) ≤ 1)%nat →
  (List.length (reactionsOf u (applyReactionOp m op)) ≤ 1)%nat.
Proof.
  intros Hm. destruct op as [now u' e|u']; simpl.
  - destruct (decide (u = u')) as [->|Hne].
    + by rewrite reactionsOf_add_same.
    + by rewrite reactionsOf_add_other.
  - etrans; [apply reactionsOf_remove_length|done].
Qed.

(** C2. Adding a reaction for user [U] twice leaves exactly one reaction of
    [U] on the message, the one with the second emoji; and a message on which
    every user has at most one reaction still has at most one reaction per
    user after any sequence of add-reaction and remove-reaction
    operations. *)
Theorem one_reaction_per_user :
  (∀ now1 now2 U emoji1 emoji2 M,
      reactionsOf U
        (Message.addReaction now2 U emoji2
           (Message.addReaction now1 U emoji1 M))
      = [mkReaction U emoji2 now2])
  ∧ (∀ M ops,
        (∀ U, (List.length (reactionsOf U M) ≤ 1)%nat) →
        ∀ U, (List.length (reactionsOf U (foldl applyReactionOp M ops)) ≤ 1)%nat).
Proof.
  split.
  - intros. apply reactionsOf_add_same.
  - intros M ops. revert M.
    induction ops as [|op ops IH]; intros M HM U; simpl; [apply HM|].
    apply IH. intros U'. apply reactionsOf_step, HM.
Qed.

Lemma one_reaction_per_user_witness :
  (List.length
          (reactionsOf 1%N
             (foldl applyReactionOp exHi
                [add_reaction 10%Z 1%N "a"; add_reaction 20%Z 2%N "b";
                 add_reaction 30%Z 1%N "c"; remove_reaction 2%N])) ≤ 1)%nat.
Proof.
  apply (proj2 one_reaction_per_user exHi).
  intros U. simpl. lia.
Defined.

(** ** Typing entries *)

Lemma typingOf_step u c op :
  (List.length (typingOf u c) ≤ 1)%nat →
  (List.length (typingOf u (applyTypingOp c op)) ≤ 1)%nat.
Proof.
  intros Hc. destruct op as [now u'|u'|now]; unfold typingOf; simpl.
  - rewrite filter_app, filter_cons. simpl.
    destruct (decide (u' = u)) as [->|Hne].
    + by rewrite (filter_excluded _ typing_user).
    + rewrite (filter_other _ typing_user), app_nil_r by done. exact Hc.
  - etrans; [apply filter_filter_length|exact Hc].
  - etrans; [apply filter_filter_length|exact Hc].
Qed.

(** A chat starts without typing entries, and the three typing operations
    keep at most one entry per user. *)
Lemma typing_at_most_one_per_user c ops :
  (∀ u, (List.length (typingOf u c) ≤ 1)%nat) →
  ∀ u, (List.length (typingOf u (foldl applyTypingOp c ops)) ≤ 1)%nat.
Proof.
  revert c. induction ops as [|op ops IH]; intros c Hc u; simpl; [apply Hc|].
  apply IH. intros u'. apply typingOf_step, Hc.
Qed.

(** What [cleanOldTypingIndicators] keeps: the entries less than 5000 ms
    old, unchanged and in order. *)
Lemma cleanOldTypingIndicators_keeps now c item :
  item ∈ typingUsers (Chat.cleanOldTypingIndicators now c)
  ↔ item ∈ typingUsers c ∧ now - typing_timestamp item < 5000.
Proof.
  unfold Chat.cleanOldTypingIndicators. simpl.
  rewrite list_elem_of_filter. split; intros [? ?]; split; auto; lia.
Qed.

(** ** The store *)

Lemma findChat_Some id db c :
  Store.findChat id db = Some c → c ∈ Chat_coll db ∧ chat_id c = id.
Proof.
  unfold Store.findChat. intros H. apply find_some in H as [Hin Hid].
  apply bool_decide_eq_true in Hid. split; [by apply list_elem_of_In|done].
Qed.

Lemma find_chat_map id (g : ChatDoc → ChatDoc) (l : list ChatDoc) :
  (∀ d, chat_id (g d) = chat_id d) →
  List.find (fun c => bool_decide (chat_id c = id)) (map g l)
  = g <$> List.find (fun c => bool_decide (chat_id c = id)) l.
Proof.
  intros Hg. induction l as [|d l IH]; [done|]. simpl.
  rewrite Hg. by destruct (bool_decide (chat_id d = id)).
Qed.

Lemma findChat_updateChat id id' f db :
  (∀ d, chat_id d = id' → chat_id (f d) = id') →
  Store.findChat id (Store.updateChat id' f db)
  = (fun c => if decide (chat_id c = id') then f c else c)
      <$> Store.findChat id db.
Proof.
  intros Hf. unfold Store.findChat, Store.updateChat. simpl.
  apply find_chat_map. intros d.
  destruct (decide (chat_id d = id')) as [Hd|Hd]; [|done].
  by rewrite (Hf d Hd).
Qed.

Lemma findChat_saveChat id db c c' :
  Store.findChat id db = Some c → chat_id c' = id →
  Store.findChat id (Store.saveChat c' db) = Some c'.
Proof.
  intros Hc Hid. apply findChat_Some in Hc as Hc'. destruct Hc' as [_ Hcid].
  unfold Store.findChat, Store.saveChat, Store.updateChat in *. simpl.
  revert Hc. induction (Chat_coll db) as [|d l IH]; [done|]. simpl.
  destruct (decide (chat_id d = chat_id c')) as [Hd|Hd].
  - intros _. rewrite bool_decide_eq_true_2; done.
  - rewrite (bool_decide_eq_false_2 (chat_id d = id)) by congruence. exact IH.
Qed.

Lemma findChat_withMessages id ms db :
  Store.findChat id (Store.withMessages ms db) = Store.findChat id db.
Proof. done. Qed.

Lemma Forall_updateChat (P : ChatDoc → Prop) id f db :
  (∀ c, c ∈ Chat_coll db → chat_id c = id → P c → P (f c)) →
  Forall P (Chat_coll db) →
  Forall P (Chat_coll (Store.updateChat id f db)).
Proof.
  intros Hf HP. unfold Store.updateChat. simpl.
  rewrite Forall_forall in HP. apply Forall_forall. intros x Hx.
  apply list_elem_of_In, in_map_iff in Hx as (d & <- & Hd).
  apply list_elem_of_In in Hd.
  destruct (decide (chat_id d = id)); auto.
Qed.

Lemma Forall_deleteChatById (P : ChatDoc → Prop) id db :
  Forall P (Chat_coll db) →
  Forall P (Chat_coll (Store.deleteChatById id db)).
Proof.
  intros HP. unfold Store.deleteChatById. simpl.
  rewrite Forall_forall in *. intros x Hx.
  apply list_elem_of_filter in Hx as [_ Hx]. auto.
Qed.

Lemma createChat_Some c db db' :
  Store.createChat c db = Some db' →
  db' = Store.withChats (Chat_coll db ++ [c]) db
  ∧ chat_id c ∉ map chat_id (Chat_coll db).
Proof.
  unfold Store.createChat. intros H.
  destruct (Store.validChat c); simpl in H; [|done].
  case_bool_decide; simpl in H; [done|]. by inversion H.
Qed.

(** ** C3: unread counters on send *)

Lemma findUnread_increment u sender_ c :
  Chat.findUnread u (Chat.incrementUnreadCount sender_ c)
  = (fun item =>
       if decide (unread_user item ≠ sender_)
       then mkUnread (unread_user item) (unread_count item + 1)
                     (unread_lastRead item)
       else item) <$> Chat.findUnread u c.
Proof.
  unfold Chat.findUnread, Chat.incrementUnreadCount. simpl.
  induction (unreadCount c) as [|item l IH]; [done|]. simpl.
  destruct (decide (unread_user item ≠ sender_)) as [Hd|Hd]; simpl;
    destruct (bool_decide (unread_user item = u)); simpl; auto.
  all: destruct (decide (unread_user item ≠ sender_)); done.
Qed.

Lemma findUnread_Some u c item :
  Chat.findUnread u c = Some item → unread_user item = u.
Proof.
  unfold Chat.findUnread. intros H. apply find_some in H as [_ H].
  by apply bool_decide_eq_true in H.
Qed.

Lemma findUnread_member u c :
  membersTracked c → u ∈ users c → is_Some (Chat.findUnread u c).
Proof.
  intros Hc Hu. apply Hc in Hu as (item & Hin & Hitem).
  unfold Chat.findUnread.
  destruct (List.find _ (unreadCount c)) eqn:E; [by eexists|].
  exfalso. apply list_elem_of_In in Hin.
  pose proof (find_none _ _ E _ Hin) as Hn. simpl in Hn.
  apply bool_decide_eq_false in Hn. done.
Qed.

Lemma unreadFor_chatAfterSend_other u sender_ mid c :
  is_Some (Chat.findUnread u c) → u ≠ sender_ →
  Chat.unreadFor u (messageController.chatAfterSend sender_ mid c)
  = Chat.unreadFor u c + 1.
Proof.
  intros [item Hitem] Hne.
  unfold Chat.unreadFor, messageController.chatAfterSend.
  change (Chat.findUnread u (Chat.removeTypingUser sender_ ?x))
    with (Chat.findUnread u x).
  rewrite findUnread_increment.
  change (Chat.findUnread u (set_latestMessage ?v c))
    with (Chat.findUnread u c).
  rewrite Hitem. simpl. apply findUnread_Some in Hitem.
  destruct (decide (unread_user item ≠ sender_)) as [|Hn]; [done|].
  exfalso. apply Hn. congruence.
Qed.

Lemma unreadFor_chatAfterSend_sender sender_ mid c :
  Chat.unreadFor sender_ (messageController.chatAfterSend sender_ mid c)
  = Chat.unreadFor sender_ c.
Proof.
  unfold Chat.unreadFor, messageController.chatAfterSend.
  change (Chat.findUnread sender_ (Chat.removeTypingUser sender_ ?x))
    with (Chat.findUnread sender_ x).
  rewrite findUnread_increment.
  change (Chat.findUnread sender_ (set_latestMessage ?v c))
    with (Chat.findUnread sender_ c).
  destruct (Chat.findUnread sender_ c) as [item|] eqn:E; [|done]. simpl.
  apply findUnread_Some in E.
  destruct (decide (unread_user item ≠ sender_)); done.
Qed.

Lemma unreadMatchesUsers_tracked c : unreadMatchesUsers c → membersTracked c.
Proof.
  unfold unreadMatchesUsers, membersTracked. intros <- u.
  rewrite list_elem_of_In, in_map_iff. split.
  - intros (item & Hu & Hin). exists item. by rewrite list_elem_of_In.
  - intros (item & Hin & Hu). exists item. by rewrite <- list_elem_of_In.
Qed.

Lemma createMessage_ok now newId senderId content_ chatId mt reply db :
  (∀ text, content_ = Some text → Store.validContent (trim text) = true) →
  mt ∈ ["text"; "image"; "file"; "system"] →
  newId ∉ map message_id (Message_coll db) →
  Store.createMessage now newId senderId content_ chatId mt reply db
  = inr (Store.newMessage now newId senderId content_ chatId mt reply,
         Store.withMessages
           (Message_coll db
              ++ [Store.newMessage now newId senderId content_ chatId mt
                                   reply])
           (Store.updateChat chatId (set_latestMessage (Some newId)) db)).
Proof.
  intros Hc Hmt Hid. unfold Store.createMessage, Store.validMessage. simpl.
  assert (Store.validContentField (trim <$> content_) = true) as ->.
  { destruct content_ as [text|]; [|done]. simpl. by apply Hc. }
  rewrite (bool_decide_eq_true_2 _ Hmt). simpl.
  by rewrite (bool_decide_eq_false_2 _ Hid).
Qed.

Lemma createMessage_inr now newId senderId content_ chatId mt reply db m db1 :
  Store.createMessage now newId senderId content_ chatId mt reply db
  = inr (m, db1) →
  db1 = Store.withMessages (Message_coll db ++ [m])
          (Store.updateChat chatId (set_latestMessage (Some newId)) db)
  ∧ message_id m = newId
  ∧ m = Store.newMessage now newId senderId content_ chatId mt reply.
Proof.
  unfold Store.createMessage.
  destruct (Store.validMessage _); [|done].
  case_bool_decide; [done|]. intros Heq. by inversion Heq.
Qed.

Lemma on_send_message_ok conn s now newId content_ chatId mt reply db c m db1 :
  Store.findChat chatId db = Some c →
  socket.userId s ∈ users c →
  Store.createMessage now newId (socket.userId s) (trim <$> content_) chatId
    (default "text" mt) reply db = inr (m, db1) →
  socket.on_send_message conn s now newId content_ (Some chatId) mt reply db
  = (Store.saveChat
       (messageController.chatAfterSend (socket.userId s) (message_id m) c) db1,
     io_to chatId (message_received m chatId)
       :: map (fun u => io_to u (notification chatId m (socket.userId s)))
              (filter (fun u => u ≠ socket.userId s ∧ is_Some (conn !! u))
                      (users c))).
Proof.
  intros Hc Hu Hm. unfold socket.on_send_message.
  rewrite Hc, (bool_decide_eq_true_2 _ Hu). simpl. by rewrite Hm.
Qed.

(** C3. In a chat where the members are exactly the users with an unread
    entry, a [send_message] by a member that stores its message raises the
    unread counter of every member other than the sender by exactly one and
    leaves the sender's counter as it was.  The message is stored when its
    content, if it has one, is at most 1000 long once trimmed by the handler
    and by the schema (an empty content, or none, is stored too), its type
    is one of the enum and its id is fresh. *)
Theorem send_message_unread_counters
        conn s now newId content_ chatId mt reply db c U :
  Store.findChat chatId db = Some c →
  membersTracked c →
  socket.userId s ∈ users c →
  (∀ text, content_ = Some text →
           Store.validContent (trim (trim text)) = true) →
  default "text" mt ∈ ["text"; "image"; "file"; "system"] →
  newId ∉ map message_id (Message_coll db) →
  U ∈ users c → U ≠ socket.userId s →
  ∃ c',
    Store.findChat chatId
      (socket.on_send_message conn s now newId content_ (Some chatId)
         mt reply db).1 = Some c'
    ∧ Chat.unreadFor U c' = Chat.unreadFor U c + 1
    ∧ Chat.unreadFor (socket.userId s) c'
      = Chat.unreadFor (socket.userId s) c.
Proof.
  intros Hc Htracked Hs Htext Hmt Hid HU Hne.
  assert (∀ text, trim <$> content_ = Some text →
                  Store.validContent (trim text) = true) as Htext'.
  { intros text Heq. destruct content_ as [t|]; [|done].
    inversion Heq; subst text. by apply Htext. }
  pose proof (createMessage_ok now newId (socket.userId s) (trim <$> content_)
                chatId _ reply db Htext' Hmt Hid) as Hm.
  rewrite (on_send_message_ok conn s now newId content_ chatId mt reply
             db c _ _ Hc Hs Hm). simpl.
  eexists. split; [|split].
  - apply findChat_saveChat with
      (c := set_latestMessage (Some newId) c).
    + rewrite findChat_withMessages, findChat_updateChat, Hc by done.
      simpl. apply findChat_Some in Hc as [_ ->].
      by destruct (decide (chatId = chatId)).
    + simpl. by apply findChat_Some in Hc as [_ ->].
  - apply unreadFor_chatAfterSend_other; [|done].
    by apply findUnread_member.
  - apply unreadFor_chatAfterSend_sender.
Qed.

Lemma send_message_unread_counters_witness :
  ∃ c',
    Store.findChat 100%N
      (socket.on_send_message exConnected exAlice 5000 200%N (Some "hi")
         (Some 100%N) None None exDB).1 = Some c'
    ∧ Chat.unreadFor 2%N c' = Chat.unreadFor 2%N exChat + 1
    ∧ Chat.unreadFor 1%N c' = Chat.unreadFor 1%N exChat.
Proof.
  apply (send_message_unread_counters exConnected exAlice 5000 200%N
           (Some "hi") 100%N None None exDB exChat 2%N).
  - reflexivity.
  - apply unreadMatchesUsers_tracked. reflexivity.
  - compute_done.
  - intros text Heq. inversion Heq; subst text. reflexivity.
  - compute_done.
  - compute_done.
  - compute_done.
  - discriminate.
Defined.

(** ** C1: the REST sender and the real-time sender *)

Lemma sendMessage_success now newId me content_ chatId mt reply db res db' out :
  messageController.sendMessage now newId me content_ (Some chatId) mt reply db
  = (res, db', out) →
  res_success res = true →
  ∃ c m db1,
    Store.findChat chatId db = Some c
    ∧ me ∈ users c
    ∧ Store.createMessage now newId me (trim <$> content_) chatId
        (default "text" mt) reply db = inr (m, db1)
    ∧ db' = Store.saveChat
              (messageController.chatAfterSend me (message_id m) c) db1
    ∧ out = map (fun u => io_to u (message_received m chatId))
                (filter (fun u => u ≠ me) (users c))
              ++ [io_to chatId (chat_updated chatId m)].
Proof.
  unfold messageController.sendMessage, messageController.reply.
  intros Hrun Hok.
  destruct (bool_decide (content_ = None ∨ content_ = Some EmptyString)
            && String.eqb (default "text" mt) "text");
    [inversion Hrun; subst; done|].
  destruct (Store.findChat chatId db) as [c|];
    [|inversion Hrun; subst; done].
  case_bool_decide as Hmem; simpl in Hrun; [|inversion Hrun; subst; done].
  match type of Hrun with
  | (if negb ?b then _ else _) = _ => destruct b
  end; simpl in Hrun; [|inversion Hrun; subst; done].
  destruct (Store.createMessage _ _ _ _ _ _ _ _) as [db0|[m db1]] eqn:Hm;
    [inversion Hrun; subst; done|].
  inversion Hrun; subst. by exists c, m, db1.
Qed.

(** C1, as the code has it.  Whenever the REST endpoint accepts a message
    (which it does for a text of blanks only, and for a message without
    content whose type is not text, as for any other), the real-time
    [send_message] handler, given the same request by the same user, leaves
    the same store: the new message appended, and the chat saved
    with [latestMessage] set, the other members' unread counters
    incremented and the sender's typing entry removed.  The fan-out is not
    the same.  The REST endpoint emits [message_received] to the private
    room of every member except the sender and then [chat_updated] to the
    chat room; the real-time handler emits [message_received] to the chat
    room and then [notification] to the private room of every other member
    that is in the connection registry. *)
Theorem sendMessage_store_parity_and_fanout
        conn s now newId content_ chatId mt reply db res db' out :
  messageController.sendMessage now newId (socket.userId s) content_
    (Some chatId) mt reply db = (res, db', out) →
  res_success res = true →
  ∃ c m,
    Store.findChat chatId db = Some c
    ∧ m = Store.newMessage now newId (socket.userId s) (trim <$> content_)
            chatId (default "text" mt) reply
    ∧ db' = Store.saveChat
              (messageController.chatAfterSend (socket.userId s) newId c)
              (Store.withMessages (Message_coll db ++ [m])
                 (Store.updateChat chatId (set_latestMessage (Some newId)) db))
    ∧ socket.on_send_message conn s now newId content_ (Some chatId) mt reply db
      = (db',
         io_to chatId (message_received m chatId)
           :: map (fun u => io_to u (notification chatId m (socket.userId s)))
                  (filter (fun u => u ≠ socket.userId s ∧ is_Some (conn !! u))
                          (users c)))
    ∧ out = map (fun u => io_to u (message_received m chatId))
                (filter (fun u => u ≠ socket.userId s) (users c))
              ++ [io_to chatId (chat_updated chatId m)].
Proof.
  intros Hrun Hok.
  destruct (sendMessage_success _ _ _ _ _ _ _ _ _ _ _ Hrun Hok)
    as (c & m & db1 & Hc & Hmem & Hm & -> & ->).
  exists c, m.
  destruct (createMessage_inr _ _ _ _ _ _ _ _ _ _ Hm) as (Hdb1 & Hid & Hnew).
  split; [done|]. split; [done|]. split; [by rewrite Hid, Hdb1|].
  split; [|done].
  by rewrite (on_send_message_ok conn s now newId content_ chatId mt reply
                db c m db1 Hc Hmem Hm).
Qed.

Lemma sendMessage_store_parity_and_fanout_witness :
  ∃ c m,
    Store.findChat 100%N exDB = Some c
    ∧ m = Store.newMessage 5000 200%N 1%N (Some (trim "hi")) 100%N "text"
            None
    ∧ Store.saveChat (messageController.chatAfterSend 1%N 200%N exChat)
        (Store.withMessages [exHi]
           (Store.updateChat 100%N (set_latestMessage (Some 200%N)) exDB))
      = Store.saveChat (messageController.chatAfterSend 1%N 200%N c)
          (Store.withMessages (Message_coll exDB ++ [m])
             (Store.updateChat 100%N (set_latestMessage (Some 200%N)) exDB))
    ∧ socket.on_send_message exConnected exAlice 5000 200%N (Some "hi")
        (Some 100%N) None None exDB
      = (Store.saveChat (messageController.chatAfterSend 1%N 200%N exChat)
           (Store.withMessages [exHi]
              (Store.updateChat 100%N (set_latestMessage (Some 200%N)) exDB)),
         io_to 100%N (message_received m 100%N)
           :: map (fun u => io_to u (notification 100%N m 1%N))
                  (filter (fun u => u ≠ 1%N ∧ is_Some (exConnected !! u))
                          (users c)))
    ∧ [io_to 2%N (message_received exHi 100%N);
       io_to 100%N (chat_updated 100%N exHi)]
      = map (fun u => io_to u (message_received m 100%N))
            (filter (fun u => u ≠ 1%N) (users c))
          ++ [io_to 100%N (chat_updated 100%N m)].
Proof.
  apply (sendMessage_store_parity_and_fanout exConnected exAlice 5000 200%N
           (Some "hi") 100%N None None exDB
           (mkRes 201 true "Message sent successfully")).
  - vm_compute. reflexivity.
  - reflexivity.
Defined.

(** C1 as stated fails: Alice sends "hi" into her chat with Bob, her socket
    being in her private room and in the chat room.  Both senders leave the
    same store, but through the REST endpoint Alice's connection gets
    [chat_updated] and no [message_received], while through the real-time
    handler it gets [message_received]; the two lists of emissions
    differ. *)
Lemma rest_send_not_received_by_sender :
  let rest := messageController.sendMessage 5000 200%N 1%N (Some "hi")
                (Some 100%N) None None exDB in
  let rt := socket.on_send_message exConnected exAlice 5000 200%N (Some "hi")
              (Some 100%N) None None exDB in
  res_success rest.1.1 = true
  ∧ rest.1.2 = rt.1
  ∧ received rest.2 exAliceConn = [chat_updated 100%N exHi]
  ∧ received rt.2 exAliceConn = [message_received exHi 100%N]
  ∧ rest.2 ≠ rt.2.
Proof.
  vm_compute. repeat split; discriminate.
Qed.

(** ** C4: the one-on-one chat of two users *)

Section FindFacts.
Context {A : Type}.

Lemma find_app_first (p : A → bool) (l l' : list A) (x : A) :
  List.find p l = Some x → List.find p (l ++ l') = Some x.
Proof.
  induction l as [|y l IH]; [done|]. simpl. by destruct (p y).
Qed.

Lemma find_app_rest (p : A → bool) (l l' : list A) :
  List.find p l = None → List.find p (l ++ l') = List.find p l'.
Proof.
  induction l as [|y l IH]; [done|]. simpl. by destruct (p y).
Qed.

Lemma find_pointwise (p q : A → bool) (l : list A) :
  (∀ x, p x = q x) → List.find p l = List.find q l.
Proof.
  intros Hpq. induction l as [|y l IH]; [done|]. simpl.
  by rewrite Hpq, IH.
Qed.

End FindFacts.

Lemma oneOnOneQuery_sym userId1 userId2 c :
  ChatStatics.oneOnOneQuery userId1 userId2 c
  = ChatStatics.oneOnOneQuery userId2 userId1 c.
Proof.
  unfold ChatStatics.oneOnOneQuery.
  destruct (isGroupChat c), (bool_decide (userId1 ∈ users c)),
    (bool_decide (userId2 ∈ users c)); done.
Qed.

Lemma findChat_fresh_last c db :
  chat_id c ∉ map chat_id (Chat_coll db) →
  Store.findChat (chat_id c) (Store.withChats (Chat_coll db ++ [c]) db)
  = Some c.
Proof.
  intros Hfresh. unfold Store.findChat. simpl.
  rewrite find_app_rest.
  - simpl. by rewrite bool_decide_eq_true_2.
  - destruct (List.find _ (Chat_coll db)) as [d|] eqn:E; [|done].
    exfalso. apply Hfresh. apply find_some in E as [Hin Hid].
    apply bool_decide_eq_true in Hid. rewrite <- Hid.
    apply list_elem_of_In, in_map, Hin.
Qed.

(** The first request, whatever it did, makes later requests find its
    chat. *)
Lemma findOrCreateOneOnOneChat_found now newId userId1 userId2 db r db1 :
  ChatStatics.findOrCreateOneOnOneChat now newId userId1 userId2 db
  = Some (r, db1) →
  ∃ c, r = Some c
       ∧ List.find (ChatStatics.oneOnOneQuery userId1 userId2) (Chat_coll db1)
         = Some c.
Proof.
  unfold ChatStatics.findOrCreateOneOnOneChat.
  destruct (List.find _ (Chat_coll db)) as [c|] eqn:Hfind.
  - intros Heq. inversion Heq; subst. by exists c.
  - destruct (Store.createChat _ db) as [db'|] eqn:Hcreate; [|done].
    intros Heq. inversion Heq; subst. clear Heq.
    apply createChat_Some in Hcreate as [-> Hfresh].
    eexists. split.
    + apply (findChat_fresh_last _ db Hfresh).
    + simpl. rewrite find_app_rest by done. simpl.
      unfold ChatStatics.oneOnOneQuery. simpl.
      rewrite !bool_decide_eq_true_2; [done| |]; set_solver.
Qed.

Lemma oneOnOneQuery_true userId1 userId2 c :
  ChatStatics.oneOnOneQuery userId1 userId2 c = true
  ↔ isGroupChat c = false ∧ userId1 ∈ users c ∧ userId2 ∈ users c.
Proof.
  unfold ChatStatics.oneOnOneQuery.
  rewrite !andb_true_iff, negb_true_iff, !bool_decide_eq_true. tauto.
Qed.

(** C4. A request for the one-on-one chat of [A] and [B] returns a chat of
    the store it leaves that is not a group and has both [A] and [B] among
    its users.  When the store already held such a chat, nothing is created:
    the store is left as it was; otherwise the chat returned is the only
    addition, under the new id and with exactly the users [A] and [B].  Once
    the request has returned, a second request for the same two users, in
    either order, returns the same chat document (hence the same chat
    identity) and creates nothing: the store is left as the first request
    left it. *)
Theorem findOrCreateOneOnOneChat_idempotent
        now1 now2 newId1 newId2 A B db r db1 :
  ChatStatics.findOrCreateOneOnOneChat now1 newId1 A B db = Some (r, db1) →
  ∃ c,
    r = Some c
    ∧ c ∈ Chat_coll db1
    ∧ isGroupChat c = false ∧ A ∈ users c ∧ B ∈ users c
    ∧ ((∃ c0, c0 ∈ Chat_coll db ∧ isGroupChat c0 = false
              ∧ A ∈ users c0 ∧ B ∈ users c0) →
       db1 = db ∧ c ∈ Chat_coll db)
    ∧ ((¬ ∃ c0, c0 ∈ Chat_coll db ∧ isGroupChat c0 = false
                ∧ A ∈ users c0 ∧ B ∈ users c0) →
       Chat_coll db1 = Chat_coll db ++ [c]
       ∧ chat_id c = newId1 ∧ users c = [A; B])
    ∧ ChatStatics.findOrCreateOneOnOneChat now2 newId2 A B db1 = Some (r, db1)
    ∧ ChatStatics.findOrCreateOneOnOneChat now2 newId2 B A db1 = Some (r, db1).
Proof.
  intros Hfirst.
  pose proof (findOrCreateOneOnOneChat_found _ _ _ _ _ _ _ Hfirst)
    as (c & -> & Hfind).
  exists c. split; [done|].
  pose proof (find_some _ _ Hfind) as [Hin Hquery].
  apply list_elem_of_In in Hin.
  apply oneOnOneQuery_true in Hquery as (Hgroup & HA & HB).
  split; [done|]. split; [done|]. split; [done|]. split; [done|].
  unfold ChatStatics.findOrCreateOneOnOneChat in Hfirst.
  destruct (List.find (ChatStatics.oneOnOneQuery A B) (Chat_coll db))
    as [c0|] eqn:Hfind0.
  - inversion Hfirst; subst c0 db1; clear Hfirst.
    split; [done|]. split.
    { intros Hnone. exfalso. apply Hnone. by exists c. }
    unfold ChatStatics.findOrCreateOneOnOneChat. split.
    + by rewrite Hfind.
    + rewrite (find_pointwise _ (ChatStatics.oneOnOneQuery A B)), Hfind;
        [done|].
      intros x. apply oneOnOneQuery_sym.
  - destruct (Store.createChat _ db) as [db'|] eqn:Hcreate; [|done].
    apply createChat_Some in Hcreate as [-> Hfresh].
    pose proof (findChat_fresh_last _ db Hfresh) as Hlast.
    cbn [chat_id] in Hlast. rewrite Hlast in Hfirst.
    injection Hfirst as Hc Hdb. subst c db1.
    split.
    { intros (c0 & Hc0 & Hg0 & HA0 & HB0). exfalso.
      pose proof (find_none _ _ Hfind0 c0
                    (proj1 (list_elem_of_In _ _) Hc0)) as Hq.
      assert (ChatStatics.oneOnOneQuery A B c0 = true) as Hq'
        by (by apply oneOnOneQuery_true).
      congruence. }
    split; [done|].
    unfold ChatStatics.findOrCreateOneOnOneChat. split.
    + by rewrite Hfind.
    + rewrite (find_pointwise _ (ChatStatics.oneOnOneQuery A B)), Hfind;
        [done|].
      intros x. apply oneOnOneQuery_sym.
Qed.

Lemma findOrCreateOneOnOneChat_idempotent_witness :
  let first := ChatStatics.findOrCreateOneOnOneChat 7000 300%N 1%N 3%N exDB in
  ∃ r db1,
    first = Some (r, db1)
    ∧ ∃ c,
        r = Some c
        ∧ c ∈ Chat_coll db1
        ∧ isGroupChat c = false ∧ 1%N ∈ users c ∧ 3%N ∈ users c
        ∧ ((∃ c0, c0 ∈ Chat_coll exDB ∧ isGroupChat c0 = false
                  ∧ 1%N ∈ users c0 ∧ 3%N ∈ users c0) →
           db1 = exDB ∧ c ∈ Chat_coll exDB)
        ∧ ((¬ ∃ c0, c0 ∈ Chat_coll exDB ∧ isGroupChat c0 = false
                    ∧ 1%N ∈ users c0 ∧ 3%N ∈ users c0) →
           Chat_coll db1 = Chat_coll exDB ++ [c]
           ∧ chat_id c = 300%N ∧ users c = [1%N; 3%N])
        ∧ ChatStatics.findOrCreateOneOnOneChat 8000 301%N 1%N 3%N db1
          = Some (r, db1)
        ∧ ChatStatics.findOrCreateOneOnOneChat 8000 301%N 3%N 1%N db1
          = Some (r, db1).
Proof.
  eexists _, _. split; [vm_compute; reflexivity|].
  apply (findOrCreateOneOnOneChat_idempotent 7000 8000 300%N 301%N 1%N 3%N
           exDB).
  vm_compute. reflexivity.
Defined.

(** ** C5: members and unread entries *)

Lemma map_unread_user_filter u (l : list UnreadItem) :
  map unread_user (filter (fun item => unread_user item ≠ u) l)
  = filter (fun x => x ≠ u) (map unread_user l).
Proof.
  induction l as [|item l IH]; [done|]. simpl.
  rewrite !filter_cons. destruct (decide (unread_user item ≠ u)); simpl;
    by rewrite IH.
Qed.

Lemma map_unread_user_fresh now (l : list ObjectId) :
  map unread_user (map (fun userId => mkUnread userId 0 now) l) = l.
Proof. induction l as [|x l IH]; [done|]. simpl. by rewrite IH. Qed.

Lemma unreadMatchesUsers_remove u c :
  unreadMatchesUsers c →
  unreadMatchesUsers
    (set_unreadCount (filter (fun item => unread_user item ≠ u) (unreadCount c))
       (set_users (filter (fun x => x ≠ u) (users c)) c)).
Proof.
  unfold unreadMatchesUsers. simpl. intros <-. apply map_unread_user_filter.
Qed.

Lemma Forall_createChat (P : ChatDoc → Prop) c db db' :
  Store.createChat c db = Some db' →
  P c → Forall P (Chat_coll db) → Forall P (Chat_coll db').
Proof.
  intros Hcreate Hc Hdb. apply createChat_Some in Hcreate as [-> _]. simpl.
  apply Forall_app. split; [done|]. by apply Forall_singleton.
Qed.

Lemma accessChat_preserves now newId me userId db :
  Forall unreadMatchesUsers (Chat_coll db) →
  Forall unreadMatchesUsers
    (Chat_coll (chatController.accessChat now newId me userId db).2).
Proof.
  intros Hdb. unfold chatController.accessChat, chatController.reply.
  destruct userId as [target|]; [|done].
  destruct (decide (target = me)); [done|].
  destruct (negb (Store.userExists target db)); [done|].
  destruct (ChatStatics.findOrCreateOneOnOneChat now newId me target db)
    as [[r db']|] eqn:Hfc; [|done].
  assert (Forall unreadMatchesUsers (Chat_coll db')) as Hdb'.
  { unfold ChatStatics.findOrCreateOneOnOneChat in Hfc.
    destruct (List.find _ (Chat_coll db)); [by inversion Hfc; subst|].
    destruct (Store.createChat _ db) as [db''|] eqn:Hcreate; [|done].
    inversion Hfc; subst.
    by apply (Forall_createChat _ _ _ _ Hcreate). }
  destruct r as [c|]; [|done].
  by destruct (List.find _ (users c)).
Qed.

Lemma createGroupChat_preserves now newId me us name descr db :
  Forall unreadMatchesUsers (Chat_coll db) →
  Forall unreadMatchesUsers
    (Chat_coll (chatController.createGroupChat now newId me us name descr db).2).
Proof.
  intros Hdb. unfold chatController.createGroupChat, chatController.reply.
  destruct us as [us|]; [|done].
  destruct (Nat.ltb _ _); [done|].
  destruct name as [name|]; [|done].
  destruct (Nat.eqb _ _); [done|].
  destruct (negb _); [done|].
  destruct (Store.createChat _ db) as [db'|] eqn:Hcreate; [|done].
  simpl. apply (Forall_createChat _ _ _ _ Hcreate); [|done].
  apply map_unread_user_fresh.
Qed.

Lemma route_add_preserves now me chatId userId db :
  Forall unreadMatchesUsers (Chat_coll db) →
  Forall unreadMatchesUsers
    (Chat_coll (chatController.route_add now me chatId userId db).2).
Proof.
  intros Hdb. unfold chatController.route_add.
  destruct (chatController.isGroupAdmin me chatId db) as [r|c]; [done|].
  unfold chatController.addToGroup, chatController.reply.
  destruct userId as [u|]; [|done].
  destruct (negb _); [done|].
  destruct (bool_decide _); [done|]. simpl.
  apply Forall_updateChat; [|done].
  intros d _ _ Hd. unfold unreadMatchesUsers in *. simpl.
  by rewrite map_app, Hd.
Qed.

Lemma route_remove_preserves me chatId userId db :
  Forall unreadMatchesUsers (Chat_coll db) →
  Forall unreadMatchesUsers
    (Chat_coll (chatController.route_remove me chatId userId db).2).
Proof.
  intros Hdb. unfold chatController.route_remove.
  destruct (chatController.isGroupAdmin me chatId db) as [r|c]; [done|].
  unfold chatController.removeFromGroup, chatController.reply.
  destruct userId as [u|]; [|done].
  destruct (negb _); [done|].
  destruct (groupAdmin c) as [admin|]; [|done].
  destruct (decide (admin = u)); [done|]. simpl.
  apply Forall_updateChat; [|done].
  intros d _ _ Hd. by apply unreadMatchesUsers_remove.
Qed.

Lemma leaveGroup_preserves me chatId db :
  Forall unreadMatchesUsers (Chat_coll db) →
  Forall unreadMatchesUsers
    (Chat_coll (chatController.leaveGroup me chatId db).2).
Proof.
  intros Hdb. unfold chatController.leaveGroup, chatController.reply.
  destruct (Store.findChat chatId db) as [c|] eqn:Hc; [|done].
  destruct (negb (isGroupChat c)); [done|].
  destruct (negb (bool_decide _)); [done|].
  destruct (groupAdmin c) as [admin|]; [|done].
  apply findChat_Some in Hc as [Hin _].
  assert (unreadMatchesUsers c) as Hcinv.
  { rewrite Forall_forall in Hdb. by apply Hdb. }
  assert (∀ c', unreadMatchesUsers c' →
            Forall unreadMatchesUsers
              (Chat_coll
                 (Store.saveChat
                    (set_unreadCount
                       (filter (fun item => unread_user item ≠ me)
                               (unreadCount c'))
                       (set_users (filter (fun x => x ≠ me) (users c')) c'))
                    db))) as Hleave.
  { intros c' Hc'. apply Forall_updateChat; [|done].
    intros _ _ _ _. by apply unreadMatchesUsers_remove. }
  destruct (decide (admin = me)).
  - destruct (filter _ (users c)) as [|first rest] eqn:Hothers.
    + simpl. by apply Forall_deleteChatById.
    + apply (Hleave (set_groupAdmin (Some first) c)). exact Hcinv.
  - apply (Hleave c). exact Hcinv.
Qed.

Lemma applyChatOp_preserves db op :
  Forall unreadMatchesUsers (Chat_coll db) →
  Forall unreadMatchesUsers (Chat_coll (applyChatOp db op)).
Proof.
  destruct op; simpl.
  - apply accessChat_preserves.
  - apply createGroupChat_preserves.
  - apply route_add_preserves.
  - apply route_remove_preserves.
  - apply leaveGroup_preserves.
Qed.

(** C5. From a store without chats, after any sequence of one-on-one
    accesses, group creations, member additions, member removals and
    departures, every chat of the store has a user in [users] exactly when
    [unreadCount] has an entry for that user. *)
Theorem members_iff_unread_entries
        (userIds : list ObjectId) (messages : list MessageDoc)
        (ops : list ChatOp) :
  Forall membersTracked
    (Chat_coll (foldl applyChatOp (mkDB userIds [] messages) ops)).
Proof.
  eapply Forall_impl; [|apply unreadMatchesUsers_tracked].
  assert (∀ db, Forall unreadMatchesUsers (Chat_coll db) →
                Forall unreadMatchesUsers
                  (Chat_coll (foldl applyChatOp db ops))) as Hgen.
  { induction ops as [|op ops' IH]; intros db Hdb; simpl; [done|].
    apply IH. by apply applyChatOp_preserves. }
  apply Hgen. simpl. constructor.
Qed.

(** ** C7: the edit window *)

Lemma findMessage_Some id db m :
  Store.findMessage id db = Some m → message_id m = id.
Proof.
  unfold Store.findMessage. intros H. apply find_some in H as [_ H].
  by apply bool_decide_eq_true in H.
Qed.

Lemma findMessage_saveMessage id db m m' :
  Store.findMessage id db = Some m → message_id m' = id →
  Store.findMessage id (Store.saveMessage m' db) = Some m'.
Proof.
  intros Hm Hid.
  unfold Store.findMessage, Store.saveMessage in *. simpl.
  revert Hm. induction (Message_coll db) as [|d l IH]; [done|]. simpl.
  destruct (decide (message_id d = message_id m')) as [Hd|Hd].
  - intros _. by rewrite bool_decide_eq_true_2.
  - rewrite (bool_decide_eq_false_2 (message_id d = id)) by congruence.
    exact IH.
Qed.

Lemma nonblank_length s : s ≠ EmptyString → String.length s ≠ 0%nat.
Proof. by destruct s. Qed.

(** C7. For a message and an edit request by its sender:
    if the message was created more than 24 hours before the request, the
    request is answered with an error, nothing is emitted and the store,
    hence the message's content, [isEdited] and [editedAt], is unchanged;
    if the message is within the window, the sender is a registered user
    and the new content is acceptable (not blank and at most 1000 long once
    trimmed), the request succeeds and the stored message has the trimmed
    new content, [isEdited] set and [editedAt] stamped. *)
Theorem editMessage_window now me messageId content_ db message :
  Store.findMessage messageId db = Some message →
  sender message = me →
  (createdAt message < now - 24 * 60 * 60 * 1000 →
   ∃ res,
     messageController.editMessage now me messageId content_ db = (res, db, [])
     ∧ res_success res = false
     ∧ Store.findMessage messageId db = Some message)
  ∧ (now - 24 * 60 * 60 * 1000 <= createdAt message →
     me ∈ User_coll db →
     ∀ s, content_ = Some s →
          trim s ≠ EmptyString → Store.validContent (trim s) = true →
     ∃ res db' out message',
       messageController.editMessage now me messageId content_ db
       = (res, db', out)
       ∧ res_success res = true
       ∧ Store.findMessage messageId db' = Some message'
       ∧ message' = Message.editContent now (trim s) message
       ∧ content message' = Some (trim s)
       ∧ isEdited message' = true
       ∧ editedAt message' = Some now).
Proof.
  intros Hm Hsender. split.
  - intros Hold. unfold messageController.editMessage, messageController.reply.
    destruct content_ as [s|]; [|by eexists].
    destruct (bool_decide (s = EmptyString) || Nat.eqb (String.length (trim s)) 0);
      [by eexists|].
    rewrite Hm.
    destruct (negb (Store.userExists (sender message) db)); [by eexists|].
    destruct (decide (sender message ≠ me)); [done|].
    destruct (decide (createdAt message < now - 24 * 60 * 60 * 1000));
      [by eexists|lia].
  - intros Hnew Hme s -> Hblank Hvalid.
    unfold messageController.editMessage, messageController.reply.
    pose proof (nonblank_length _ Hblank) as Hlen.
    assert (s ≠ EmptyString) as Hs by (intros ->; by apply Hlen).
    rewrite (bool_decide_eq_false_2 _ Hs).
    rewrite (proj2 (Nat.eqb_neq _ _) Hlen). simpl.
    rewrite Hm. unfold Store.userExists.
    rewrite Hsender, (bool_decide_eq_true_2 _ Hme). simpl.
    destruct (decide (me ≠ me)); [done|].
    destruct (decide (createdAt message < now - 24 * 60 * 60 * 1000)); [lia|].
    simpl. rewrite Hvalid. simpl.
    eexists _, _, _, (Message.editContent now (trim s) message).
    split; [reflexivity|]. split; [done|]. split; [|done].
    apply (findMessage_saveMessage _ _ message); [done|].
    simpl. by apply findMessage_Some in Hm.
Qed.

Lemma editMessage_window_witness :
  (∃ res,
      messageController.editMessage 86405001 1%N 200%N (Some "hello")
        exEditDB = (res, exEditDB, [])
      ∧ res_success res = false
      ∧ Store.findMessage 200%N exEditDB = Some exHi)
  ∧ (∃ res db' out message',
        messageController.editMessage 6000 1%N 200%N (Some " hello ")
          exEditDB = (res, db', out)
        ∧ res_success res = true
        ∧ Store.findMessage 200%N db' = Some message'
        ∧ message' = Message.editContent 6000 (trim " hello ") exHi
        ∧ content message' = Some (trim " hello ")
        ∧ isEdited message' = true
        ∧ editedAt message' = Some 6000).
Proof.
  split.
  - apply (proj1 (editMessage_window 86405001 1%N 200%N (Some "hello")
                    exEditDB exHi eq_refl eq_refl)).
    simpl. lia.
  - apply (proj2 (editMessage_window 6000 1%N 200%N (Some " hello ")
                    exEditDB exHi eq_refl eq_refl)).
    + simpl. lia.
    + compute_done.
    + reflexivity.
    + discriminate.
    + reflexivity.
Defined.

(** ** C6: leaving a group *)

(** When the admin leaves and other members remain, the first of them
    becomes admin and the chat is kept with the remaining members. *)
Lemma leaveGroup_admin_handover me chatId db c first rest :
  Store.findChat chatId db = Some c →
  isGroupChat c = true →
  me ∈ users c →
  groupAdmin c = Some me →
  filter (fun x => x ≠ me) (users c) = first :: rest →
  ∃ c',
    chatController.leaveGroup me chatId db
    = (mkRes 200 true "Left group successfully", Store.saveChat c' db)
    ∧ Store.findChat chatId (Store.saveChat c' db) = Some c'
    ∧ groupAdmin c' = Some first
    ∧ users c' = first :: rest.
Proof.
  intros Hc Hgroup Hme Hadmin Hothers.
  unfold chatController.leaveGroup, chatController.reply.
  rewrite Hc, Hgroup, (bool_decide_eq_true_2 _ Hme), Hadmin. simpl.
  destruct (decide (me = me)); [|done]. rewrite Hothers.
  eexists. split; [reflexivity|]. split; [|split; [done|]].
  - apply (findChat_saveChat _ _ c); [done|].
    simpl. by apply findChat_Some in Hc as [_ ?].
  - simpl. done.
Qed.

(** [leaveGroup] never touches the message collection. *)
Lemma leaveGroup_keeps_messages me chatId db :
  Message_coll (chatController.leaveGroup me chatId db).2 = Message_coll db.
Proof.
  unfold chatController.leaveGroup, chatController.reply.
  destruct (Store.findChat chatId db) as [c|]; [|done].
  destruct (negb (isGroupChat c)); [done|].
  destruct (negb (bool_decide _)); [done|].
  destruct (groupAdmin c) as [admin|]; [|done].
  destruct (decide (admin = me)); [|done].
  by destruct (filter _ (users c)).
Qed.

(** C6, at the input where the code departs from it.  Alice, admin and only
    member left of group 500, leaves: the chat document is deleted but the
    group's message 600 stays in the message collection.  [deleteChat] on
    the same store removes the messages with the chat. *)
Theorem leaveGroup_last_member_leaves_messages :
  chatController.leaveGroup 1%N 500%N exSoloDB
  = (mkRes 200 true "Group deleted as you were the last member",
     mkDB [1%N; 2%N; 3%N] [] [exGroupMessage])
  ∧ chatController.deleteChat 1%N 500%N exSoloDB
    = (mkRes 200 true "Chat deleted successfully", mkDB [1%N; 2%N; 3%N] [] []).
Proof. split; vm_compute; reflexivity. Qed.

(** ** C9: group creation *)

Lemma uniqueOf_NoDup (l : list ObjectId) :
  NoDup l → chatController.uniqueOf l = l.
Proof.
  induction 1 as [|x l Hx Hl IH]; [done|]. simpl. rewrite IH. f_equal.
  clear IH Hl. induction l as [|y l IH]; [done|].
  rewrite filter_cons. destruct (decide (y ≠ x)) as [Hy|Hy].
  - f_equal. apply IH. intros Hin. apply Hx. by right.
  - exfalso. apply Hx. destruct (decide (y = x)) as [->|]; [by left|done].
Qed.

Lemma NoDup_bool_filter {A} (q : A → bool) (l : list A) :
  NoDup l → NoDup (List.filter q l).
Proof.
  induction 1 as [|x l Hx Hl IH]; simpl; [constructor|].
  destruct (q x); [|done]. constructor; [|done].
  intros Hin. apply Hx.
  apply list_elem_of_In, filter_In in Hin as [Hin _].
  by apply list_elem_of_In.
Qed.

(** The validity check [validUsers.length !== users.length] passes only
    for a list without repetition, the user ids being unique. *)
Lemma validUsers_NoDup (registered us : list ObjectId) :
  NoDup registered →
  List.length (List.filter (fun u => bool_decide (u ∈ us)) registered)
  = List.length us →
  NoDup us.
Proof.
  intros Hreg Hlen.
  assert (List.filter (fun u => bool_decide (u ∈ us)) registered ⊆+ us) as Hsub.
  { apply NoDup_submseteq; [by apply NoDup_bool_filter|].
    intros x Hx. apply list_elem_of_In, filter_In in Hx as [_ Hx].
    by apply bool_decide_eq_true in Hx. }
  apply submseteq_length_Permutation in Hsub; [|lia].
  rewrite <- Hsub. by apply NoDup_bool_filter.
Qed.

(** When the requester is not in the list it sends, an accepted request
    does create a group of at least three: the requester and the listed
    users. *)
Lemma createGroupChat_three_members now newId me us name descr db res db' :
  NoDup (User_coll db) → me ∉ us →
  chatController.createGroupChat now newId me (Some us) name descr db
  = (res, db') →
  res_success res = true →
  ∃ c,
    Chat_coll db' = Chat_coll db ++ [c]
    ∧ isGroupChat c = true
    ∧ users c = me :: us
    ∧ (3 ≤ List.length (users c))%nat.
Proof.
  intros Hreg Hme. unfold chatController.createGroupChat, chatController.reply.
  destruct (Nat.ltb (List.length us) 2) eqn:Hlen;
    [intros Heq; by inversion Heq; subst|].
  destruct name as [name|]; [|intros Heq; by inversion Heq; subst].
  destruct (Nat.eqb (String.length (trim name)) 0);
    [intros Heq; by inversion Heq; subst|].
  destruct (Nat.eqb _ (List.length us)) eqn:Hvalid; simpl;
    [|intros Heq; by inversion Heq; subst].
  destruct (Store.createChat _ db) as [db1|] eqn:Hcreate;
    [|intros Heq; by inversion Heq; subst].
  intros Heq _. inversion Heq; subst. clear Heq.
  apply createChat_Some in Hcreate as [-> _].
  apply Nat.eqb_eq in Hvalid. apply Nat.ltb_ge in Hlen.
  assert (NoDup (me :: us)) as Hnodup.
  { constructor; [done|]. by apply (validUsers_NoDup (User_coll db)). }
  pose proof (uniqueOf_NoDup _ Hnodup) as Huniq. simpl in Huniq.
  injection Huniq as Huniq.
  eexists. split; [reflexivity|]. simpl. rewrite !Huniq.
  repeat split. lia.
Qed.

(** C9, at the input where the code departs from it.  Alice asks for a
    group with the user list [Alice, Bob]: the list has two entries, both
    are registered users, so every check passes; after the duplicates are
    removed the group is created with two members. *)
Theorem createGroupChat_with_requester_listed :
  chatController.createGroupChat 9000 700%N 1%N (Some [1%N; 2%N])
    (Some "team") None exDB
  = (mkRes 201 true "Group chat created successfully",
     mkDB [1%N; 2%N; 3%N]
          [exChat;
           mkChat 700%N "team" true [1%N; 2%N] None (Some 1%N) EmptyString
                  [mkUnread 1%N 0 9000; mkUnread 2%N 0 9000] []]
          []).
Proof. vm_compute. reflexivity. Qed.

(** ** C10: typing entries *)

(** C10, at the input where the code departs from it.  Bob's typing entry
    has timestamp 1000; at time 6000 it is exactly 5000 ms old, not more,
    and [cleanOldTypingIndicators] removes it. *)
Theorem cleanOldTypingIndicators_at_five_seconds :
  typingUsers exTypingChat = [mkTyping 2%N 1000]
  ∧ 6000 - 1000 = 5000
  ∧ typingUsers (Chat.cleanOldTypingIndicators 6000 exTypingChat) = [].
Proof. repeat split; vm_compute; reflexivity. Qed.

(** ** C8: typing timers *)

Section TypingTimers.
Import socket eventLoop.

Lemma memberOf_saveChat db chatId c c' :
  Store.findChat chatId db = Some c →
  chat_id c' = chatId → users c' = users c →
  ∀ u id, memberOf (Store.saveChat c' db) u id = memberOf db u id.
Proof.
  intros Hc Hid Hus u id. unfold memberOf, Store.saveChat.
  rewrite findChat_updateChat by done.
  destruct (Store.findChat id db) as [d|] eqn:Hd; [|done]. simpl.
  destruct (decide (chat_id d = chat_id c')) as [E|E]; [|done].
  apply findChat_Some in Hd as Hd'. destruct Hd' as [_ Hdid].
  assert (id = chatId) as -> by congruence.
  rewrite Hc in Hd. inversion Hd; subst. by rewrite Hus.
Qed.

Lemma memberOf_chat db u chatId :
  memberOf db u chatId = true →
  ∃ c, Store.findChat chatId db = Some c ∧ chat_id c = chatId ∧ u ∈ users c.
Proof.
  unfold memberOf.
  destruct (Store.findChat chatId db) as [c|] eqn:Hc; [|done].
  intros Hu. apply bool_decide_eq_true in Hu. exists c.
  by apply findChat_Some in Hc as [_ ?].
Qed.

Lemma on_typing_spec s now chatId db :
  ∃ db',
    on_typing s now chatId db
    = (db',
       if memberOf db (userId s) chatId
       then [socket_to (socket_id s) chatId (user_typing (userId s) chatId)]
       else [],
       if memberOf db (userId s) chatId
       then [mkTimer (now + 5000) s chatId] else [])
    ∧ ∀ u id, memberOf db' u id = memberOf db u id.
Proof.
  unfold on_typing, memberOf at 1 2.
  destruct (Store.findChat chatId db) as [c|] eqn:Hc; [|by eexists].
  destruct (bool_decide (userId s ∈ users c)); [|by eexists].
  eexists. split; [reflexivity|].
  apply (memberOf_saveChat _ _ _ _ Hc); [|done].
  simpl. by apply findChat_Some in Hc as [_ ?].
Qed.

Lemma on_stop_typing_spec s chatId db :
  ∃ db' out,
    on_stop_typing s chatId db = (db', out)
    ∧ ∀ u id, memberOf db' u id = memberOf db u id.
Proof.
  unfold on_stop_typing.
  destruct (Store.findChat chatId db) as [c|] eqn:Hc; [|by eexists _, _].
  destruct (bool_decide (userId s ∈ users c)); [|by eexists _, _].
  eexists _, _. split; [reflexivity|].
  apply (memberOf_saveChat _ _ _ _ Hc); [|done].
  simpl. by apply findChat_Some in Hc as [_ ?].
Qed.

(** The callback removes the user's typing entry whatever its timestamp and
    broadcasts once. *)
Lemma typingTimeout_spec t db c :
  Store.findChat (timer_chat t) db = Some c →
  ∃ c',
    typingTimeout t db
    = (Store.saveChat c' db,
       [socket_to (socket_id (timer_socket t)) (timer_chat t)
          (user_stopped_typing (userId (timer_socket t)) (timer_chat t))])
    ∧ Store.findChat (timer_chat t) (Store.saveChat c' db) = Some c'
    ∧ typingOf (userId (timer_socket t)) c' = []
    ∧ users c' = users c
    ∧ ∀ u id, memberOf (Store.saveChat c' db) u id = memberOf db u id.
Proof.
  intros Hc. unfold typingTimeout. rewrite Hc.
  assert (chat_id c = timer_chat t) as Hid
      by (by apply findChat_Some in Hc as [_ ?]).
  eexists. split; [reflexivity|]. split; [|split; [|split; [done|]]].
  - by apply (findChat_saveChat _ _ c).
  - unfold typingOf, Chat.removeTypingUser. simpl.
    apply (filter_excluded _ typing_user).
  - by apply (memberOf_saveChat _ _ _ _ Hc).
Qed.

Lemma fire_spec t srv :
  memberOf (srv_db srv) (userId (timer_socket t)) (timer_chat t) = true →
  ∃ db',
    fire t srv
    = mkServer db' (srv_timers srv) (srv_log srv ++ [expiryEntry t])
    ∧ ∀ u id, memberOf db' u id = memberOf (srv_db srv) u id.
Proof.
  intros Hm. apply memberOf_chat in Hm as (c & Hc & _ & _).
  destruct (typingTimeout_spec t _ c Hc) as (c' & Hrun & _ & _ & _ & Heq).
  unfold fire. rewrite Hrun. by eexists.
Qed.

Lemma fireAll_spec l srv :
  Forall (fun t => memberOf (srv_db srv) (userId (timer_socket t))
                     (timer_chat t) = true) l →
  ∃ db',
    fireAll l srv
    = mkServer db' (srv_timers srv) (srv_log srv ++ map expiryEntry l)
    ∧ ∀ u id, memberOf db' u id = memberOf (srv_db srv) u id.
Proof.
  revert srv. induction l as [|t l IH]; intros srv Hl.
  - exists (srv_db srv). simpl. rewrite app_nil_r. by destruct srv.
  - inversion Hl as [|? ? Ht Hrest]; subst.
    destruct (fire_spec t srv Ht) as (db1 & Hfire & Heq1).
    unfold fireAll. simpl. rewrite Hfire.
    destruct (IH (mkServer db1 (srv_timers srv) (srv_log srv ++ [expiryEntry t])))
      as (db' & Hall & Heq').
    + simpl. eapply Forall_impl; [exact Hrest|].
      intros x Hx. simpl in Hx. by rewrite Heq1.
    + exists db'. unfold fireAll in Hall. rewrite Hall. simpl.
      rewrite <- app_assoc. split; [done|].
      intros u id. by rewrite Heq', <- Heq1.
Qed.

Lemma Forall_bool_filter {A} (P : A → Prop) (q : A → bool) (l : list A) :
  Forall P l → Forall P (List.filter q l).
Proof.
  induction 1 as [|x l Hx Hl IH]; simpl; [constructor|].
  destruct (q x); [by constructor|done].
Qed.

Lemma bool_filter_split {A} (p q : A → bool) (l : list A) :
  List.length (List.filter p l)
  = (List.length (List.filter p (List.filter q l))
     + List.length (List.filter p (List.filter (fun x => negb (q x)) l)))%nat.
Proof.
  induction l as [|x l IH]; [done|]. simpl.
  destruct (q x); simpl; destruct (p x); simpl; lia.
Qed.

Lemma expiryBroadcasts_app u chatId l1 l2 :
  expiryBroadcasts u chatId (l1 ++ l2)
  = expiryBroadcasts u chatId l1 ++ expiryBroadcasts u chatId l2.
Proof. apply List.filter_app. Qed.

Lemma expiryBroadcasts_entries u chatId l :
  List.length (expiryBroadcasts u chatId (map expiryEntry l))
  = List.length (List.filter (timerFor u chatId) l).
Proof.
  induction l as [|t l IH]; [done|]. simpl.
  replace (bool_decide
             (by_timer = by_timer
              ∧ user_stopped_typing (userId (timer_socket t)) (timer_chat t)
                = user_stopped_typing u chatId))
    with (timerFor u chatId t).
  - destruct (timerFor u chatId t); simpl; by rewrite IH.
  - unfold timerFor. apply bool_decide_ext. split.
    + intros [-> ->]. done.
    + intros [_ Heq]. by inversion Heq.
Qed.

Lemma expiryBroadcasts_handler u chatId out :
  expiryBroadcasts u chatId (map (pair by_handler) out) = [].
Proof. induction out as [|e out IH]; [done|]. simpl. exact IH. Qed.

End TypingTimers.

Section TypingRuns.
Import socket eventLoop.

Variables (T : Date) (db0 : DB) (u chatId : ObjectId).

Lemma advance_accounted now n srv :
  timersAccounted T db0 u chatId n srv →
  timersAccounted T db0 u chatId n (advance now srv).
Proof.
  intros (Hdb & Htimers & Hcount). unfold advance.
  pose (q := fun t => bool_decide (timer_due t <= now)).
  change (fun t => bool_decide (timer_due t <= now)) with q.
  change (fun t => negb (bool_decide (timer_due t <= now)))
    with (fun t => negb (q t)).
  destruct (fireAll_spec (List.filter q (srv_timers srv))
              (mkServer (srv_db srv)
                 (List.filter (fun t => negb (q t)) (srv_timers srv))
                 (srv_log srv))) as (db' & Hrun & Heq).
  { simpl. apply Forall_bool_filter.
    eapply Forall_impl; [exact Htimers|].
    intros t [_ Ht]. simpl. by rewrite Hdb. }
  rewrite Hrun. simpl in *. split; [|split]; simpl.
  - intros u' id. by rewrite Heq.
  - by apply Forall_bool_filter.
  - rewrite expiryBroadcasts_app, length_app, expiryBroadcasts_entries.
    pose proof (bool_filter_split (timerFor u chatId) q (srv_timers srv)).
    lia.
Qed.

Lemma advance_all n srv :
  timersAccounted T db0 u chatId n srv →
  srv_timers (advance T srv) = []
  ∧ List.length (expiryBroadcasts u chatId (srv_log (advance T srv))) = n.
Proof.
  intros Hacc. pose proof (advance_accounted T n srv Hacc) as (_ & _ & Hcount).
  destruct Hacc as (Hdb & Htimers & _).
  assert (srv_timers (advance T srv) = []) as Hnone.
  { unfold advance.
    pose (q := fun t => bool_decide (timer_due t <= T)).
    change (fun t => bool_decide (timer_due t <= T)) with q.
    change (fun t => negb (bool_decide (timer_due t <= T)))
      with (fun t => negb (q t)).
    destruct (fireAll_spec (List.filter q (srv_timers srv))
                (mkServer (srv_db srv)
                   (List.filter (fun t => negb (q t)) (srv_timers srv))
                   (srv_log srv))) as (db' & Hrun & _).
    { simpl. apply Forall_bool_filter.
      eapply Forall_impl; [exact Htimers|].
      intros t [_ Ht]. simpl. by rewrite Hdb. }
    rewrite Hrun. simpl. clear Hrun Hcount.
    induction Htimers as [|t l [Hdue _] _ IH]; [done|]. simpl.
    unfold q at 1. by rewrite (bool_decide_eq_true_2 _ Hdue). }
  split; [done|]. rewrite Hnone in Hcount. simpl in Hcount. lia.
Qed.

Lemma handle_accounted now i n srv :
  now + 5000 <= T →
  timersAccounted T db0 u chatId n srv →
  timersAccounted T db0 u chatId
    (n + (if acceptedTyping db0 u chatId (now, i) then 1 else 0))%nat
    (handle now i srv).
Proof.
  intros Hnow (Hdb & Htimers & Hcount).
  destruct i as [s chatId'|s chatId']; unfold handle, acceptedTyping; simpl.
  - destruct (on_typing_spec s now chatId' (srv_db srv)) as (db' & -> & Heq).
    rewrite Hdb. split; [|split]; simpl.
    + intros u' id. by rewrite Heq.
    + apply Forall_app. split; [done|].
      destruct (memberOf db0 (userId s) chatId') eqn:Hm; [|constructor].
      by repeat constructor.
    + rewrite expiryBroadcasts_app, length_app, expiryBroadcasts_handler.
      rewrite List.filter_app, length_app. simpl.
      case_bool_decide as Hfor.
      * destruct Hfor as [Hu Hc]. rewrite Hu, Hc. simpl.
        destruct (memberOf db0 u chatId) eqn:Hm; simpl.
        -- unfold timerFor in *. simpl.
           rewrite bool_decide_eq_true_2 by done. simpl. lia.
        -- lia.
      * simpl. destruct (memberOf db0 (userId s) chatId'); simpl; [|lia].
        unfold timerFor in *. simpl.
        rewrite bool_decide_eq_false_2 by done. simpl. lia.
  - destruct (on_stop_typing_spec s chatId' (srv_db srv))
      as (db' & out & -> & Heq).
    split; [|split]; simpl.
    + intros u' id. by rewrite Heq.
    + done.
    + rewrite expiryBroadcasts_app, length_app, expiryBroadcasts_handler.
      simpl. lia.
Qed.

Lemma run_accounted trace n srv :
  Forall (fun e => e.1 + 5000 <= T) trace →
  timersAccounted T db0 u chatId n srv →
  timersAccounted T db0 u chatId
    (n + List.length (List.filter (acceptedTyping db0 u chatId) trace))%nat
    (run trace srv).
Proof.
  intros Htrace. revert n srv.
  induction Htrace as [|[now i] trace Hnow _ IH]; intros n srv Hacc; simpl.
  - by rewrite Nat.add_0_r.
  - simpl in Hnow.
    pose proof (handle_accounted now i n _ Hnow
                  (advance_accounted now n srv Hacc)) as Hstep.
    apply IH in Hstep.
    destruct (acceptedTyping db0 u chatId (now, i)); simpl in *.
    + by replace (n + S (List.length
                           (List.filter (acceptedTyping db0 u chatId) trace)))%nat
        with (n + 1 + List.length
                        (List.filter (acceptedTyping db0 u chatId) trace))%nat
        by lia.
    + by rewrite Nat.add_0_r in Hstep.
Qed.

End TypingRuns.

(** C8, as the code has it.  The callback a typing-start schedules does not
    look at the typing entry's timestamp: whenever its chat still exists it
    removes the user's entry and broadcasts [user_stopped_typing] once.
    And timers stack: in a run that starts without pending timers, once the
    clock has passed every typing-start by 5 seconds no timer is pending
    and, for every user and chat, the timers have made exactly as many
    [user_stopped_typing] broadcasts as the run has typing-starts of that
    user accepted for that chat, whatever typing-stops and further
    typing-starts came in between.  So a lone typing-start gives exactly one
    expiry broadcast, a typing-start followed by a typing-stop still gives
    one, and [n] typing-starts give [n]. *)
Theorem typing_timers_fire_unconditionally_and_stack :
  (∀ t db c,
      Store.findChat (socket.timer_chat t) db = Some c →
      ∃ c',
        socket.typingTimeout t db
        = (Store.saveChat c' db,
           [socket_to (socket.socket_id (socket.timer_socket t))
              (socket.timer_chat t)
              (user_stopped_typing (socket.userId (socket.timer_socket t))
                 (socket.timer_chat t))])
        ∧ Store.findChat (socket.timer_chat t) (Store.saveChat c' db) = Some c'
        ∧ typingOf (socket.userId (socket.timer_socket t)) c' = [])
  ∧ (∀ T db trace u chatId,
        Forall (fun e => e.1 + 5000 <= T) trace →
        eventLoop.srv_timers
          (eventLoop.advance T
             (eventLoop.run trace (eventLoop.mkServer db [] []))) = []
        ∧ List.length
            (eventLoop.expiryBroadcasts u chatId
               (eventLoop.srv_log
                  (eventLoop.advance T
                     (eventLoop.run trace (eventLoop.mkServer db [] [])))))
          = List.length
              (List.filter (eventLoop.acceptedTyping db u chatId) trace)).
Proof.
  split.
  - intros t db c Hc.
    destruct (typingTimeout_spec t db c Hc) as (c' & ? & ? & ? & _).
    by exists c'.
  - intros T db trace u chatId Htrace.
    apply (advance_all T db u chatId).
    apply (run_accounted T db u chatId trace 0 _ Htrace).
    split; [done|]. split; [constructor|done].
Qed.

Lemma typing_timers_fire_unconditionally_and_stack_witness :
  (∃ c',
      socket.typingTimeout (socket.mkTimer 6000 exBob 100%N)
        (mkDB [1%N; 2%N; 3%N] [exTypingChat] [])
      = (Store.saveChat c' (mkDB [1%N; 2%N; 3%N] [exTypingChat] []),
         [socket_to 12%N 100%N (user_stopped_typing 2%N 100%N)])
      ∧ Store.findChat 100%N
          (Store.saveChat c' (mkDB [1%N; 2%N; 3%N] [exTypingChat] []))
        = Some c'
      ∧ typingOf 2%N c' = [])
  ∧ (eventLoop.srv_timers
       (eventLoop.advance 10000
          (eventLoop.run
             [(1000, eventLoop.typing exBob 100%N);
              (2000, eventLoop.stop_typing exBob 100%N);
              (3000, eventLoop.typing exBob 100%N)]
             (eventLoop.mkServer exDB [] []))) = []
     ∧ List.length
         (eventLoop.expiryBroadcasts 2%N 100%N
            (eventLoop.srv_log
               (eventLoop.advance 10000
                  (eventLoop.run
                     [(1000, eventLoop.typing exBob 100%N);
                      (2000, eventLoop.stop_typing exBob 100%N);
                      (3000, eventLoop.typing exBob 100%N)]
                     (eventLoop.mkServer exDB [] [])))))
       = 2%nat).
Proof.
  split.
  - apply (proj1 typing_timers_fire_unconditionally_and_stack
             (socket.mkTimer 6000 exBob 100%N)
             (mkDB [1%N; 2%N; 3%N] [exTypingChat] []) exTypingChat).
    reflexivity.
  - apply (proj2 typing_timers_fire_unconditionally_and_stack 10000 exDB
             [(1000, eventLoop.typing exBob 100%N);
              (2000, eventLoop.stop_typing exBob 100%N);
              (3000, eventLoop.typing exBob 100%N)] 2%N 100%N).
    repeat constructor; simpl; lia.
Defined.

(** C8 as stated fails.  Bob starts typing at 1000 and stops at 2000: at
    6000 the timer still makes its [user_stopped_typing] broadcast.  Bob
    starts typing at 1000 and again at 3000: the entry stored is the one of
    3000, yet at 6500, 3.5 seconds after the refresh, the first timer has
    removed it; and by 8000 the timers have made two broadcasts. *)
Lemma typing_stop_does_not_cancel_expiry :
  eventLoop.expiryBroadcasts 2%N 100%N
    (eventLoop.srv_log
       (eventLoop.advance 6000
          (eventLoop.run
             [(1000, eventLoop.typing exBob 100%N);
              (2000, eventLoop.stop_typing exBob 100%N)] exServer)))
  = [eventLoop.expiryEntry (socket.mkTimer 6000 exBob 100%N)]
  ∧ map typingUsers
      (Chat_coll
         (eventLoop.srv_db
            (eventLoop.run
               [(1000, eventLoop.typing exBob 100%N);
                (3000, eventLoop.typing exBob 100%N)] exServer)))
    = [[mkTyping 2%N 3000]]
  ∧ map typingUsers
      (Chat_coll
         (eventLoop.srv_db
            (eventLoop.advance 6500
               (eventLoop.run
                  [(1000, eventLoop.typing exBob 100%N);
                   (3000, eventLoop.typing exBob 100%N)] exServer))))
    = [[]]
  ∧ List.length
      (eventLoop.expiryBroadcasts 2%N 100%N
         (eventLoop.srv_log
            (eventLoop.advance 8000
               (eventLoop.run
                  [(1000, eventLoop.typing exBob 100%N);
                   (3000, eventLoop.typing exBob 100%N)] exServer))))
    = 2%nat.
Proof. repeat split; vm_compute; reflexivity. Qed.

(** * Further properties *)

(** ** Unread counters of a chat *)

Lemma findUnread_resetFirst_same now u (l : list UnreadItem) :
  List.find (fun item => bool_decide (unread_user item = u))
            (Chat.resetFirst now u l)
  = (fun item => mkUnread (unread_user item) 0 now)
      <$> List.find (fun item => bool_decide (unread_user item = u)) l.
Proof.
  induction l as [|item l IH]; [done|]. simpl.
  destruct (decide (unread_user item = u)) as [Hu|Hu]; simpl.
  - by rewrite !bool_decide_eq_true_2.
  - by rewrite !bool_decide_eq_false_2.
Qed.

Lemma findUnread_resetFirst_other now u v (l : list UnreadItem) :
  v ≠ u →
  List.find (fun item => bool_decide (unread_user item = v))
            (Chat.resetFirst now u l)
  = List.find (fun item => bool_decide (unread_user item = v)) l.
Proof.
  intros Hne. induction l as [|item l IH]; [done|]. simpl.
  destruct (decide (unread_user item = u)) as [Hu|Hu]; simpl.
  - by rewrite !bool_decide_eq_false_2 by congruence.
  - by rewrite IH.
Qed.

Lemma map_unread_user_resetFirst now u (l : list UnreadItem) :
  map unread_user (Chat.resetFirst now u l) = map unread_user l.
Proof.
  induction l as [|item l IH]; [done|]. simpl.
  destruct (decide (unread_user item = u)); simpl; by rewrite ?IH.
Qed.

(** X1. [resetUnreadCount] brings the counter shown to the user to zero,
    leaves the counter shown to every other user as it was, and keeps the
    users of the unread entries. *)
Theorem resetUnreadCount_only_resets_caller now u c :
  Chat.unreadFor u (Chat.resetUnreadCount now u c) = 0
  ∧ (∀ v, v ≠ u →
          Chat.unreadFor v (Chat.resetUnreadCount now u c)
          = Chat.unreadFor v c)
  ∧ map unread_user (unreadCount (Chat.resetUnreadCount now u c))
    = map unread_user (unreadCount c).
Proof.
  split; [|split].
  - unfold Chat.unreadFor, Chat.findUnread. simpl.
    rewrite findUnread_resetFirst_same. by destruct (List.find _ _).
  - intros v Hv. unfold Chat.unreadFor, Chat.findUnread. simpl.
    by rewrite findUnread_resetFirst_other.
  - apply map_unread_user_resetFirst.
Qed.

Lemma resetUnreadCount_only_resets_caller_witness :
  Chat.unreadFor 2%N
    (Chat.resetUnreadCount 9000 1%N
       (Chat.incrementUnreadCount 3%N exChat))
  = Chat.unreadFor 2%N (Chat.incrementUnreadCount 3%N exChat).
Proof.
  apply (proj1 (proj2 (resetUnreadCount_only_resets_caller 9000 1%N
                         (Chat.incrementUnreadCount 3%N exChat))) 2%N).
  discriminate.
Defined.

Lemma findUnread_app_new u (l : list UnreadItem) item :
  List.find (fun i => bool_decide (unread_user i = u)) (l ++ [item])
  = match List.find (fun i => bool_decide (unread_user i = u)) l with
    | Some x => Some x
    | None => if bool_decide (unread_user item = u) then Some item else None
    end.
Proof.
  induction l as [|x l IH]; simpl; [done|].
  by destruct (bool_decide (unread_user x = u)).
Qed.

(** X2. [initializeUnreadCount] gives the user an unread entry, changes the
    counter shown to no user (a new entry starts at zero), and doing it
    again changes nothing. *)
Theorem initializeUnreadCount_adds_zero_entry_once now now' u c :
  is_Some (Chat.findUnread u (Chat.initializeUnreadCount now u c))
  ∧ (∀ v, Chat.unreadFor v (Chat.initializeUnreadCount now u c)
          = Chat.unreadFor v c)
  ∧ Chat.initializeUnreadCount now' u (Chat.initializeUnreadCount now u c)
    = Chat.initializeUnreadCount now u c.
Proof.
  unfold Chat.initializeUnreadCount.
  destruct (Chat.findUnread u c) as [item|] eqn:Hu.
  - split; [by eexists|]. split; [done|]. by rewrite ?Hu.
  - assert (Chat.findUnread u
              (set_unreadCount (unreadCount c ++ [mkUnread u 0 now]) c)
            = Some (mkUnread u 0 now)) as Hnew.
    { unfold Chat.findUnread in *. simpl. rewrite findUnread_app_new, Hu.
      simpl. by rewrite bool_decide_eq_true_2. }
    split; [by rewrite Hnew|]. split; [|by rewrite Hnew].
    intros v. unfold Chat.unreadFor, Chat.findUnread in *. simpl.
    rewrite findUnread_app_new. simpl.
    destruct (List.find (fun i => bool_decide (unread_user i = v))
                        (unreadCount c)) as [x|]; [done|].
    case_bool_decide; done.
Qed.

(** ** Read receipts, reactions and typing entries *)

Lemma markAsReadBy_readers now u m :
  map read_user (readBy (MessageMethods.markAsReadBy now u m))
  = if bool_decide (u ∈ map read_user (readBy m))
    then map read_user (readBy m)
    else map read_user (readBy m) ++ [u].
Proof.
  unfold MessageMethods.markAsReadBy.
  destruct (List.find _ (readBy m)) as [r|] eqn:Hfind.
  - apply find_some in Hfind as [Hin Hr]. apply bool_decide_eq_true in Hr.
    rewrite bool_decide_eq_true_2; [done|].
    rewrite <- Hr. by apply list_elem_of_In, in_map.
  - rewrite bool_decide_eq_false_2.
    + simpl. by rewrite map_app.
    + intros Hin. apply list_elem_of_In, in_map_iff in Hin as (r & Hr & Hin).
      pose proof (find_none _ _ Hfind r Hin) as Hn. simpl in Hn.
      by apply bool_decide_eq_false in Hn.
Qed.

(** X3. [markAsReadBy] records a reader once: a message whose receipts
    name distinct users keeps that after any marking, the user marked is
    among the readers, and marking again changes nothing (the first
    [readAt] stays). *)
Theorem markAsReadBy_once_per_user now now' u m :
  NoDup (map read_user (readBy m)) →
  NoDup (map read_user (readBy (MessageMethods.markAsReadBy now u m)))
  ∧ u ∈ map read_user (readBy (MessageMethods.markAsReadBy now u m))
  ∧ MessageMethods.markAsReadBy now' u (MessageMethods.markAsReadBy now u m)
    = MessageMethods.markAsReadBy now u m.
Proof.
  intros Hm.
  assert (u ∈ map read_user
                  (readBy (MessageMethods.markAsReadBy now u m))) as Hin.
  { rewrite markAsReadBy_readers. case_bool_decide; [done|].
    apply elem_of_app. right. by apply list_elem_of_singleton. }
  split; [|split; [done|]].
  - rewrite markAsReadBy_readers. case_bool_decide as Hu; [done|].
    apply NoDup_app. split; [done|]. split; [|apply NoDup_singleton].
    intros x Hx Hx'. apply list_elem_of_singleton in Hx'. by subst.
  - unfold MessageMethods.markAsReadBy at 1.
    destruct (List.find _ (readBy (MessageMethods.markAsReadBy now u m)))
      as [r|] eqn:Hfind; [done|].
    exfalso. apply list_elem_of_In, in_map_iff in Hin as (r & Hr & Hin).
    pose proof (find_none _ _ Hfind r Hin) as Hn. simpl in Hn.
    by apply bool_decide_eq_false in Hn.
Qed.

Lemma markAsReadBy_once_per_user_witness :
  NoDup (map read_user
           (readBy (MessageMethods.markAsReadBy 7000 2%N
                      (MessageMethods.markAsReadBy 6000 3%N exHi))))
  ∧ 2%N ∈ map read_user
            (readBy (MessageMethods.markAsReadBy 7000 2%N
                       (MessageMethods.markAsReadBy 6000 3%N exHi)))
  ∧ MessageMethods.markAsReadBy 8000 2%N
      (MessageMethods.markAsReadBy 7000 2%N
         (MessageMethods.markAsReadBy 6000 3%N exHi))
    = MessageMethods.markAsReadBy 7000 2%N
        (MessageMethods.markAsReadBy 6000 3%N exHi).
Proof.
  apply (markAsReadBy_once_per_user 7000 8000 2%N
           (MessageMethods.markAsReadBy 6000 3%N exHi)).
  compute_done.
Defined.

Lemma filter_filter_same {A} (P : A → Prop) `{∀ x, Decision (P x)}
      (l : list A) :
  filter P (filter P l) = filter P l.
Proof.
  induction l as [|x l IH]; [done|]. rewrite filter_cons.
  destruct (decide (P x)) as [HP|HP]; [|done].
  rewrite filter_cons. destruct (decide (P x)); [|done]. by rewrite IH.
Qed.

Lemma typingOf_addTypingUser_same now u c :
  typingOf u (Chat.addTypingUser now u c) = [mkTyping u now].
Proof.
  unfold typingOf, Chat.addTypingUser. simpl.
  rewrite filter_app, (filter_excluded _ typing_user), filter_cons. simpl.
  by destruct (decide (u = u)).
Qed.

(** X4. A typing-start stores exactly one entry for the user, stamped with
    the time of the event, whatever was stored for the user before; and a
    typing-stop after it leaves the chat as a typing-stop alone would.  The
    entries of the other users are never touched: after a typing-start and
    after a typing-stop of a user, the entries of every other user are the
    ones stored before, in the same order, and no field of the chat but
    [typingUsers] changes. *)
Theorem addTypingUser_replaces_and_is_undone now u c :
  typingOf u (Chat.addTypingUser now u c) = [mkTyping u now]
  ∧ Chat.removeTypingUser u (Chat.addTypingUser now u c)
    = Chat.removeTypingUser u c
  ∧ typingOf u (Chat.removeTypingUser u c) = []
  ∧ (∀ v, v ≠ u →
          typingOf v (Chat.addTypingUser now u c) = typingOf v c
          ∧ typingOf v (Chat.removeTypingUser u c) = typingOf v c)
  ∧ filter (fun item => typing_user item ≠ u)
           (typingUsers (Chat.addTypingUser now u c))
    = filter (fun item => typing_user item ≠ u) (typingUsers c)
  ∧ typingUsers (Chat.removeTypingUser u c)
    = filter (fun item => typing_user item ≠ u) (typingUsers c)
  ∧ Chat.addTypingUser now u c
    = set_typingUsers (typingUsers (Chat.addTypingUser now u c)) c
  ∧ Chat.removeTypingUser u c
    = set_typingUsers (typingUsers (Chat.removeTypingUser u c)) c.
Proof.
  split_and!.
  - apply typingOf_addTypingUser_same.
  - unfold Chat.removeTypingUser, Chat.addTypingUser, set_typingUsers. simpl.
    f_equal. rewrite filter_app, filter_filter_same, filter_cons. simpl.
    destruct (decide (u ≠ u)); [done|]. by rewrite app_nil_r.
  - unfold typingOf, Chat.removeTypingUser. simpl.
    apply (filter_excluded _ typing_user).
  - intros v Hv. unfold typingOf, Chat.addTypingUser, Chat.removeTypingUser.
    simpl. rewrite filter_app, filter_cons, filter_nil. simpl.
    rewrite decide_False by congruence. rewrite app_nil_r.
    split; by apply (filter_other _ typing_user).
  - unfold Chat.addTypingUser. simpl.
    rewrite filter_app, filter_filter_same, filter_cons, filter_nil. simpl.
    destruct (decide (u ≠ u)); [done|]. by rewrite app_nil_r.
  - done.
  - done.
  - done.
Qed.

(** X5. Adding a reaction and removing it again leaves the message as
    removing alone would: the reactions of the other users are never
    touched, and after the removal the user has no reaction. *)
Theorem removeReaction_undoes_addReaction now u emoji m :
  Message.removeReaction u (Message.addReaction now u emoji m)
  = Message.removeReaction u m
  ∧ reactionsOf u (Message.removeReaction u m) = []
  ∧ (∀ v, v ≠ u →
          reactionsOf v (Message.addReaction now u emoji m) = reactionsOf v m
          ∧ reactionsOf v (Message.removeReaction u m) = reactionsOf v m).
Proof.
  split; [|split].
  - unfold Message.removeReaction, Message.addReaction, set_reactions. simpl.
    f_equal. rewrite filter_app, filter_filter_same, filter_cons. simpl.
    destruct (decide (u ≠ u)); [done|]. by rewrite app_nil_r.
  - unfold reactionsOf, Message.removeReaction. simpl.
    apply (filter_excluded _ reaction_user).
  - intros v Hv. split; [by apply reactionsOf_add_other|].
    unfold reactionsOf, Message.removeReaction. simpl.
    by apply (filter_other _ reaction_user).
Qed.

Lemma removeReaction_undoes_addReaction_witness :
  reactionsOf 2%N
    (Message.addReaction 30 1%N "b" (Message.addReaction 20 2%N "a" exHi))
  = reactionsOf 2%N (Message.addReaction 20 2%N "a" exHi)
  ∧ reactionsOf 2%N
      (Message.removeReaction 1%N (Message.addReaction 20 2%N "a" exHi))
    = reactionsOf 2%N (Message.addReaction 20 2%N "a" exHi).
Proof.
  apply (proj2 (proj2 (removeReaction_undoes_addReaction 30 1%N "b"
                         (Message.addReaction 20 2%N "a" exHi))) 2%N).
  discriminate.
Defined.

(** ** Guards and effects of the typing and sending handlers *)

(** X6. The typing handlers act for members only: for a user that is not a
    member of an existing chat, [typing] and [stop_typing] change nothing,
    emit nothing and schedule nothing.  For a member, [typing] leaves
    exactly one typing entry of the user, stamped [now], broadcasts
    [user_typing] to the room without the typing socket itself, and a
    [stop_typing] after it leaves no entry of the user. *)
Theorem typing_handlers_members_only s now chatId db :
  (eventLoop.memberOf db (socket.userId s) chatId = false →
   socket.on_typing s now chatId db = (db, [], [])
   ∧ socket.on_stop_typing s chatId db = (db, []))
  ∧ (eventLoop.memberOf db (socket.userId s) chatId = true →
     ∃ db1 c1 c2,
       socket.on_typing s now chatId db
       = (db1,
          [socket_to (socket.socket_id s) chatId
             (user_typing (socket.userId s) chatId)],
          [socket.mkTimer (now + 5000) s chatId])
       ∧ Store.findChat chatId db1 = Some c1
       ∧ typingOf (socket.userId s) c1 = [mkTyping (socket.userId s) now]
       ∧ Store.findChat chatId (socket.on_stop_typing s chatId db1).1 = Some c2
       ∧ typingOf (socket.userId s) c2 = []
       ∧ ∀ k, conn_socket k = socket.socket_id s →
              received (socket.on_typing s now chatId db).1.2 k = []).
Proof.
  split.
  - unfold eventLoop.memberOf, socket.on_typing, socket.on_stop_typing.
    destruct (Store.findChat chatId db) as [c|]; [|done].
    by intros ->.
  - intros Hm. apply memberOf_chat in Hm as (c & Hc & Hid & Hu).
    unfold socket.on_typing. rewrite Hc, (bool_decide_eq_true_2 _ Hu).
    eexists _, (Chat.addTypingUser now (socket.userId s) c),
      (Chat.removeTypingUser (socket.userId s)
         (Chat.addTypingUser now (socket.userId s) c)).
    split; [reflexivity|].
    assert (Store.findChat chatId
              (Store.saveChat (Chat.addTypingUser now (socket.userId s) c) db)
            = Some (Chat.addTypingUser now (socket.userId s) c)) as Hc1
        by (by apply (findChat_saveChat _ _ c)).
    split; [done|].
    split; [apply typingOf_addTypingUser_same|].
    split; [|split].
    + unfold socket.on_stop_typing. rewrite Hc1. simpl.
      rewrite (bool_decide_eq_true_2 _ Hu). simpl.
      by apply (findChat_saveChat _ _ (Chat.addTypingUser now (socket.userId s) c)).
    + apply (filter_excluded _ typing_user).
    + intros k Hk. unfold received. simpl.
      rewrite (bool_decide_eq_true_2 _ Hk). simpl.
      by rewrite andb_false_r.
Qed.

Lemma typing_handlers_members_only_witness :
  (socket.on_typing (socket.mkSocket 13%N 3%N) 1000 100%N exDB = (exDB, [], [])
   ∧ socket.on_stop_typing (socket.mkSocket 13%N 3%N) 100%N exDB = (exDB, []))
  ∧ (∃ db1 c1 c2,
       socket.on_typing exBob 1000 100%N exDB
       = (db1,
          [socket_to 12%N 100%N (user_typing 2%N 100%N)],
          [socket.mkTimer (1000 + 5000) exBob 100%N])
       ∧ Store.findChat 100%N db1 = Some c1
       ∧ typingOf 2%N c1 = [mkTyping 2%N 1000]
       ∧ Store.findChat 100%N (socket.on_stop_typing exBob 100%N db1).1
         = Some c2
       ∧ typingOf 2%N c2 = []
       ∧ ∀ k, conn_socket k = 12%N →
              received (socket.on_typing exBob 1000 100%N exDB).1.2 k = []).
Proof.
  split.
  - apply (proj1 (typing_handlers_members_only (socket.mkSocket 13%N 3%N)
                    1000 100%N exDB)).
    reflexivity.
  - apply (proj2 (typing_handlers_members_only exBob 1000 100%N exDB)).
    reflexivity.
Defined.

Lemma findMessage_fresh_last m db chats :
  message_id m ∉ map message_id (Message_coll db) →
  Store.findMessage (message_id m)
    (mkDB (User_coll db) chats (Message_coll db ++ [m])) = Some m.
Proof.
  intros Hfresh. unfold Store.findMessage. simpl.
  rewrite find_app_rest.
  - simpl. by rewrite bool_decide_eq_true_2.
  - destruct (List.find _ (Message_coll db)) as [d|] eqn:E; [|done].
    exfalso. apply Hfresh. apply find_some in E as [Hin Hid].
    apply bool_decide_eq_true in Hid. rewrite <- Hid.
    apply list_elem_of_In, in_map, Hin.
Qed.

(** X7. A [send_message] of a member stores its message whenever the
    content, if there is one, is at most 1000 long once trimmed by the
    handler and by the schema, the type is one of the enum and the id is
    fresh; a message whose content is blank, or that has none, is stored
    like any other.  The handler appends exactly that message (sender, chat,
    trimmed content, not deleted, no reactions) to the message collection,
    points the chat's [latestMessage] at it, leaves the sender without
    typing entry in the chat, keeps the chat's members, and emits
    [message_received] to the chat room and then a [notification] to the
    room of every other member in the registry. *)
Theorem send_message_stores_message_and_updates_chat
        conn s now newId content_ chatId mt reply db c :
  Store.findChat chatId db = Some c →
  socket.userId s ∈ users c →
  (∀ text, content_ = Some text →
           Store.validContent (trim (trim text)) = true) →
  default "text" mt ∈ ["text"; "image"; "file"; "system"] →
  newId ∉ map message_id (Message_coll db) →
  ∃ c' m,
    m = mkMessage newId (socket.userId s) (trim <$> (trim <$> content_))
                  chatId (default "text" mt) [] [] reply false None false
                  None None now
    ∧ Message_coll
        (socket.on_send_message conn s now newId content_ (Some chatId)
           mt reply db).1 = Message_coll db ++ [m]
    ∧ Store.findMessage newId
        (socket.on_send_message conn s now newId content_ (Some chatId)
           mt reply db).1 = Some m
    ∧ Store.findChat chatId
        (socket.on_send_message conn s now newId content_ (Some chatId)
           mt reply db).1 = Some c'
    ∧ latestMessage c' = Some newId
    ∧ typingOf (socket.userId s) c' = []
    ∧ users c' = users c
    ∧ (socket.on_send_message conn s now newId content_ (Some chatId)
         mt reply db).2
      = io_to chatId (message_received m chatId)
          :: map (fun u => io_to u (notification chatId m (socket.userId s)))
                 (filter (fun u => u ≠ socket.userId s ∧ is_Some (conn !! u))
                         (users c)).
Proof.
  intros Hc Hs Htext Hmt Hid.
  assert (∀ text, trim <$> content_ = Some text →
                  Store.validContent (trim text) = true) as Htext'.
  { intros text Heq. destruct content_ as [t|]; [|done].
    inversion Heq; subst text. by apply Htext. }
  pose proof (createMessage_ok now newId (socket.userId s) (trim <$> content_)
                chatId _ reply db Htext' Hmt Hid) as Hm.
  rewrite (on_send_message_ok conn s now newId content_ chatId mt reply
             db c _ _ Hc Hs Hm). simpl.
  eexists _, _. split; [reflexivity|]. split; [done|]. split; [|split].
  - apply (findMessage_fresh_last
             (mkMessage newId (socket.userId s)
                (trim <$> (trim <$> content_)) chatId
                (default "text" mt) [] [] reply false None false None None now)
             db). exact Hid.
  - apply findChat_saveChat with (c := set_latestMessage (Some newId) c).
    + rewrite findChat_withMessages, findChat_updateChat, Hc by done.
      simpl. apply findChat_Some in Hc as [_ ->].
      by destruct (decide (chatId = chatId)).
    + simpl. by apply findChat_Some in Hc as [_ ->].
  - split; [done|]. split; [|done].
    apply (filter_excluded _ typing_user).
Qed.

Lemma send_message_stores_message_and_updates_chat_witness :
  ∃ c' m,
    m = mkMessage 200%N 1%N (trim <$> (trim <$> Some "   ")) 100%N "text"
                  [] [] None false None false None None 5000
    ∧ Message_coll
        (socket.on_send_message exConnected exAlice 5000 200%N (Some "   ")
           (Some 100%N) None None exDB).1 = Message_coll exDB ++ [m]
    ∧ Store.findMessage 200%N
        (socket.on_send_message exConnected exAlice 5000 200%N (Some "   ")
           (Some 100%N) None None exDB).1 = Some m
    ∧ Store.findChat 100%N
        (socket.on_send_message exConnected exAlice 5000 200%N (Some "   ")
           (Some 100%N) None None exDB).1 = Some c'
    ∧ latestMessage c' = Some 200%N
    ∧ typingOf 1%N c' = []
    ∧ users c' = users exChat
    ∧ (socket.on_send_message exConnected exAlice 5000 200%N (Some "   ")
         (Some 100%N) None None exDB).2
      = io_to 100%N (message_received m 100%N)
          :: map (fun u => io_to u (notification 100%N m 1%N))
                 (filter (fun u => u ≠ 1%N ∧ is_Some (exConnected !! u))
                         (users exChat)).
Proof.
  apply (send_message_stores_message_and_updates_chat exConnected exAlice
           5000 200%N (Some "   ") 100%N None None exDB exChat);
    [reflexivity|compute_done| |compute_done|compute_done].
  intros text Heq. inversion Heq; subst text. reflexivity.
Defined.

(** X8. A user that is not a member of an existing chat cannot send into
    it on either path: the real-time handler leaves the store as it is and
    emits one [error], to the sending socket only; the REST endpoint answers
    without success, leaves the store as it is and emits nothing. *)
Theorem send_by_non_member_is_refused
        conn s now newId content_ chatId mt reply db :
  eventLoop.memberOf db (socket.userId s) chatId = false →
  socket.on_send_message conn s now newId content_ (Some chatId) mt reply db
  = (db, [socket_emit (socket.socket_id s)
            (error "Not authorized to send message to this chat")])
  ∧ (∀ k, conn_socket k ≠ socket.socket_id s →
          received
            (socket.on_send_message conn s now newId content_ (Some chatId)
               mt reply db).2 k = [])
  ∧ ∃ res,
      messageController.sendMessage now newId (socket.userId s) content_
        (Some chatId) mt reply db = (res, db, [])
      ∧ res_success res = false.
Proof.
  intros Hm.
  assert (socket.on_send_message conn s now newId content_ (Some chatId) mt
            reply db
          = (db, [socket_emit (socket.socket_id s)
                    (error "Not authorized to send message to this chat")]))
    as Hrt.
  { unfold socket.on_send_message, eventLoop.memberOf in *.
    destruct (Store.findChat chatId db) as [c|]; [|done].
    by rewrite Hm. }
  split; [done|]. split.
  - intros k Hk. rewrite Hrt. unfold received. simpl.
    by rewrite bool_decide_eq_false_2.
  - unfold messageController.sendMessage, messageController.reply,
      eventLoop.memberOf in *.
    destruct (bool_decide _ && _); [by eexists|].
    destruct (Store.findChat chatId db) as [c|]; [|by eexists].
    rewrite Hm. by eexists.
Qed.

Lemma send_by_non_member_is_refused_witness :
  socket.on_send_message exConnected (socket.mkSocket 13%N 3%N) 5000 200%N
    (Some "hi") (Some 100%N) None None exDB
  = (exDB, [socket_emit 13%N
              (error "Not authorized to send message to this chat")])
  ∧ (∀ k, conn_socket k ≠ 13%N →
          received
            (socket.on_send_message exConnected (socket.mkSocket 13%N 3%N)
               5000 200%N (Some "hi") (Some 100%N) None None exDB).2 k = [])
  ∧ ∃ res,
      messageController.sendMessage 5000 200%N 3%N (Some "hi") (Some 100%N)
        None None exDB = (res, exDB, [])
      ∧ res_success res = false.
Proof.
  apply (send_by_non_member_is_refused exConnected (socket.mkSocket 13%N 3%N)
           5000 200%N (Some "hi") 100%N None None exDB).
  reflexivity.
Defined.

(** ** What the REST controllers accept *)

(** Case analysis on the first branching of the run named by [H]. *)
Ltac branch H :=
  match type of H with
  | context [match ?x with _ => _ end] =>
      let E := fresh "E" in destruct x eqn:E; simpl in H
  end.

Ltac leaf H := inversion H; subst; clear H; simpl in *; try discriminate.

(** X9. The REST [sendMessage] answers with success exactly for a request
    that names a chat, is not a text message without content (absent or the
    empty string), comes from a member of that chat, replies, if at all, to
    a stored message of the same chat, has a content that, if there is one,
    is at most 1000 long once trimmed, a message type of the enum, and a
    fresh message id.  A content of blanks only is accepted, and so is a
    message without content whose type is not text. *)
Theorem sendMessage_accepts_exactly_the_valid_requests
        now newId me content_ chatId_ mt reply db :
  res_success
    (messageController.sendMessage now newId me content_ chatId_ mt reply
       db).1.1 = true
  ↔ ∃ chatId c,
      chatId_ = Some chatId
      ∧ ¬ ((content_ = None ∨ content_ = Some EmptyString)
           ∧ default "text" mt = "text")
      ∧ Store.findChat chatId db = Some c
      ∧ me ∈ users c
      ∧ (∀ r, reply = Some r →
              ∃ replyMessage,
                Store.findMessage r db = Some replyMessage
                ∧ chat replyMessage = chatId)
      ∧ (∀ text, content_ = Some text →
                 Store.validContent (trim (trim text)) = true)
      ∧ default "text" mt ∈ ["text"; "image"; "file"; "system"]
      ∧ (newId ∉ map message_id (Message_coll db)).
Proof.
  unfold messageController.sendMessage, messageController.reply. split.
  - intros Hok.
    destruct chatId_ as [chatId|]; [|done].
    destruct (bool_decide (content_ = None ∨ content_ = Some EmptyString)
              && String.eqb (default "text" mt) "text") eqn:Hguard; [done|].
    destruct (Store.findChat chatId db) as [c|] eqn:Hc; [|done].
    case_bool_decide as Hmem; simpl in Hok; [|done].
    match type of Hok with
    | context [if negb ?b then _ else _] => destruct b eqn:Hreply
    end; simpl in Hok; [|done].
    destruct (Store.createMessage _ _ _ _ _ _ _ _) as [db0|[m db1]] eqn:Hm;
      [done|].
    unfold Store.createMessage in Hm.
    destruct (Store.validMessage _) eqn:Hvalid; [|done].
    case_bool_decide as Hdup; [done|]. simpl in Hdup.
    unfold Store.validMessage in Hvalid. simpl in Hvalid.
    apply andb_true_iff in Hvalid as [Hcontent Htype].
    apply bool_decide_eq_true in Htype.
    exists chatId, c. split; [done|]. split.
    { intros [Hblank Htext]. apply andb_false_iff in Hguard as [Hg|Hg].
      - by apply bool_decide_eq_false in Hg.
      - by apply String.eqb_neq in Hg. }
    split; [done|]. split; [done|]. split.
    { intros r ->. destruct (Store.findMessage r db) as [rm|]; [|done].
      apply bool_decide_eq_true in Hreply. by exists rm. }
    split; [|done]. by intros text ->.
  - intros (chatId & c & -> & Hguard & Hc & Hmem & Hreply & Hcontent & Htype
            & Hfresh).
    assert (bool_decide (content_ = None ∨ content_ = Some EmptyString)
            && String.eqb (default "text" mt) "text" = false) as ->.
    { apply andb_false_iff.
      destruct (decide (default "text" mt = "text")) as [Ht|Ht].
      - left. apply bool_decide_eq_false_2. tauto.
      - right. by apply String.eqb_neq. }
    rewrite Hc, (bool_decide_eq_true_2 _ Hmem). simpl.
    assert (match reply with
            | Some r =>
                match Store.findMessage r db with
                | Some replyMessage => bool_decide (chat replyMessage = chatId)
                | None => false
                end
            | None => true
            end = true) as ->.
    { destruct reply as [r|]; [|done].
      destruct (Hreply r eq_refl) as (rm & -> & Hchat).
      by apply bool_decide_eq_true_2. }
    simpl.
    assert (∀ text, trim <$> content_ = Some text →
                    Store.validContent (trim text) = true) as Hcontent'.
    { intros text Heq. destruct content_ as [t|]; [|done].
      inversion Heq; subst text. by apply Hcontent. }
    by rewrite (createMessage_ok now newId me (trim <$> content_) chatId _
                  reply db Hcontent' Htype Hfresh).
Qed.

(** Three blanks as the text of a message are accepted, and stored as the
    empty content. *)
Lemma sendMessage_accepts_exactly_the_valid_requests_witness :
  res_success
    (messageController.sendMessage 5000 200%N 1%N (Some "   ") (Some 100%N)
       None None exDB).1.1 = true
  ∧ content <$> Store.findMessage 200%N
      (messageController.sendMessage 5000 200%N 1%N (Some "   ") (Some 100%N)
         None None exDB).1.2 = Some (Some EmptyString).
Proof.
  split; [|reflexivity].
  apply (proj2 (sendMessage_accepts_exactly_the_valid_requests
                  5000 200%N 1%N (Some "   ") (Some 100%N) None None exDB)).
  exists 100%N, exChat.
  split; [reflexivity|]. split; [intros [[H|H] _]; discriminate|].
  split; [reflexivity|]. split; [compute_done|].
  split; [intros r H; discriminate|].
  split; [intros text H; inversion H; subst text; reflexivity|].
  split; compute_done.
Defined.

(** X10. [editMessage] fails closed and succeeds for the sender only: a
    request answered without success changes nothing and emits nothing; a
    request answered with success was made by the sender of a stored
    message, not more than 24 hours after the message was created, with
    content that is not blank, and its only effect is to store the message
    with the trimmed content, [isEdited] and [editedAt] set, and to emit
    [message_edited] to the room of the message's chat. *)
Theorem editMessage_sender_only_and_fails_closed
        now me messageId content_ db res db' out :
  messageController.editMessage now me messageId content_ db
  = (res, db', out) →
  (res_success res = false → db' = db ∧ out = [])
  ∧ (res_success res = true →
     ∃ message text,
       Store.findMessage messageId db = Some message
       ∧ sender message = me
       ∧ now - 24 * 60 * 60 * 1000 <= createdAt message
       ∧ content_ = Some text
       ∧ trim text ≠ EmptyString
       ∧ db' = Store.saveMessage (Message.editContent now (trim text) message)
                                 db
       ∧ out = [io_to (chat message)
                  (message_edited messageId (Some (trim text)) true
                                  (Some now))]).
Proof.
  unfold messageController.editMessage, messageController.reply.
  intros Hrun.
  destruct content_ as [text|]; [|by leaf Hrun].
  destruct (bool_decide (text = EmptyString)
            || Nat.eqb (String.length (trim text)) 0) eqn:Hblank;
    [by leaf Hrun|].
  destruct (Store.findMessage messageId db) as [message|] eqn:Hm;
    [|by leaf Hrun].
  destruct (negb (Store.userExists (sender message) db)); [by leaf Hrun|].
  destruct (decide (sender message ≠ me)) as [Hs|Hs]; [by leaf Hrun|].
  destruct (decide (createdAt message < now - 24 * 60 * 60 * 1000));
    [by leaf Hrun|].
  destruct (negb (Store.validContentField _)); [by leaf Hrun|].
  leaf Hrun. split; [done|]. intros _. exists message, text.
  apply orb_false_iff in Hblank as [_ Hlen]. apply Nat.eqb_neq in Hlen.
  split; [done|]. split; [by destruct (decide (sender message = me))|].
  split; [lia|]. split; [done|]. split; [by destruct (trim text)|].
  split; [done|]. by apply findMessage_Some in Hm as ->.
Qed.

Lemma editMessage_sender_only_and_fails_closed_witness :
  (messageController.editMessage 6000 2%N 200%N (Some "x") exEditDB).1.2
  = exEditDB
  ∧ (messageController.editMessage 6000 2%N 200%N (Some "x") exEditDB).2 = [].
Proof.
  apply (proj1 (editMessage_sender_only_and_fails_closed 6000 2%N 200%N
                  (Some "x") exEditDB
                  (mkRes 403 false "You can only edit your own messages")
                  _ _ eq_refl)).
  reflexivity.
Defined.

(** ** Membership changes of a group *)

Lemma isGroupAdmin_inr me chatId db c :
  chatController.isGroupAdmin me chatId db = inr c →
  Store.findChat chatId db = Some c
  ∧ chat_id c = chatId ∧ isGroupChat c = true ∧ groupAdmin c = Some me.
Proof.
  unfold chatController.isGroupAdmin.
  destruct (Store.findChat chatId db) as [d|] eqn:Hd; [|done].
  destruct (isGroupChat d) eqn:Hg; simpl; [|done].
  destruct (groupAdmin d) as [admin|] eqn:Ha; [|done].
  destruct (decide (admin ≠ me)) as [Hne|Hne]; [done|].
  intros Heq. inversion Heq; subst.
  destruct (decide (admin = me)) as [->|Hn]; [|by destruct Hne].
  by apply findChat_Some in Hd as [_ Hid].
Qed.

Lemma isGroupAdmin_inl me chatId db r :
  chatController.isGroupAdmin me chatId db = inl r → res_success r = false.
Proof.
  unfold chatController.isGroupAdmin.
  destruct (Store.findChat chatId db) as [d|]; [|by intros [= <-]].
  destruct (isGroupChat d); simpl; [|by intros [= <-]].
  destruct (groupAdmin d) as [admin|]; [|by intros [= <-]].
  destruct (decide (admin ≠ me)); [by intros [= <-]|done].
Qed.

Lemma findChat_updateChat_same id f db c :
  Store.findChat id db = Some c →
  chat_id (f c) = id →
  Store.findChat id (Store.updateChat id f db) = Some (f c).
Proof.
  intros Hc Hf. apply findChat_Some in Hc as Hc'. destruct Hc' as [_ Hid].
  unfold Store.findChat, Store.updateChat in *. simpl.
  revert Hc. induction (Chat_coll db) as [|d l IH]; [done|]. simpl.
  destruct (bool_decide (chat_id d = id)) eqn:Hd.
  - intros [= ->]. apply bool_decide_eq_true in Hd.
    destruct (decide (chat_id c = id)); [|done].
    by rewrite bool_decide_eq_true_2.
  - apply bool_decide_eq_false in Hd.
    destruct (decide (chat_id d = id)); [done|].
    by rewrite bool_decide_eq_false_2.
Qed.

Lemma find_unread_filter_other u v (l : list UnreadItem) :
  v ≠ u →
  List.find (fun i => bool_decide (unread_user i = v))
            (filter (fun item => unread_user item ≠ u) l)
  = List.find (fun i => bool_decide (unread_user i = v)) l.
Proof.
  intros Hne. induction l as [|x l IH]; [done|].
  rewrite filter_cons. destruct (decide (unread_user x ≠ u)) as [Hx|Hx]; simpl.
  - by rewrite IH.
  - rewrite IH. rewrite bool_decide_eq_false_2; [done|].
    intros Hv. apply Hx. congruence.
Qed.

Lemma find_unread_filter_same u (l : list UnreadItem) :
  List.find (fun i => bool_decide (unread_user i = u))
            (filter (fun item => unread_user item ≠ u) l) = None.
Proof.
  induction l as [|x l IH]; [done|].
  rewrite filter_cons. destruct (decide (unread_user x ≠ u)) as [Hx|Hx]; simpl;
    [|done].
  by rewrite bool_decide_eq_false_2.
Qed.

(** X11. The three routes behind [isGroupAdmin] (add a member, remove a
    member, rename) act for the admin only: a request answered with success
    came from the admin of an existing group chat, and a request answered
    without success left the store as it was. *)
Theorem group_admin_routes_admin_only now me chatId userId name db :
  let admin_only (r : Response * DB) :=
    (res_success r.1 = false → r.2 = db)
    ∧ (res_success r.1 = true →
       ∃ c, Store.findChat chatId db = Some c
            ∧ isGroupChat c = true ∧ groupAdmin c = Some me) in
  admin_only (chatController.route_add now me chatId userId db)
  ∧ admin_only (chatController.route_remove me chatId userId db)
  ∧ admin_only (chatRest.route_rename me chatId name db).
Proof.
  simpl.
  unfold chatController.route_add, chatController.route_remove,
    chatRest.route_rename.
  destruct (chatController.isGroupAdmin me chatId db) as [r|c] eqn:Hadm.
  - apply isGroupAdmin_inl in Hadm. simpl. rewrite Hadm.
    repeat split; done.
  - apply isGroupAdmin_inr in Hadm as (Hc & Hid & Hg & Ha).
    assert (∃ c, Store.findChat chatId db = Some c
                 ∧ isGroupChat c = true ∧ groupAdmin c = Some me) as Hex
        by (by exists c).
    split; [|split]; (split; [|done]).
    + unfold chatController.addToGroup, chatController.reply.
      destruct userId as [u|]; [|done].
      destruct (negb _); [done|]. by destruct (bool_decide _).
    + unfold chatController.removeFromGroup, chatController.reply.
      destruct userId as [u|]; [|done].
      destruct (negb _); [done|]. rewrite Ha.
      by destruct (decide (me = u)).
    + unfold chatRest.renameGroup, chatController.reply.
      destruct name as [name|]; [|done].
      destruct (Nat.eqb _ _); [done|]. by rewrite Hc.
Qed.

(** X12. Adding a member: a successful request names a registered user who
    was not a member; afterwards the chat's members are the old ones
    followed by the new one, the admin is unchanged, the counter shown to
    every other user is unchanged, and the new member, having had no unread
    entry, is shown zero. *)
Theorem route_add_appends_member now me chatId userId db res db' :
  chatController.route_add now me chatId userId db = (res, db') →
  res_success res = true →
  ∃ c c' u,
    userId = Some u
    ∧ Store.findChat chatId db = Some c
    ∧ (u ∈ User_coll db) ∧ (u ∉ users c)
    ∧ Store.findChat chatId db' = Some c'
    ∧ users c' = users c ++ [u]
    ∧ groupAdmin c' = groupAdmin c
    ∧ (∀ v, v ≠ u → Chat.unreadFor v c' = Chat.unreadFor v c)
    ∧ (Chat.findUnread u c = None → Chat.unreadFor u c' = 0).
Proof.
  unfold chatController.route_add. intros Hrun Hok.
  destruct (chatController.isGroupAdmin me chatId db) as [r|c] eqn:Hadm.
  { apply isGroupAdmin_inl in Hadm. inversion Hrun; subst. congruence. }
  apply isGroupAdmin_inr in Hadm as (Hc & Hid & Hg & Ha).
  unfold chatController.addToGroup, chatController.reply in Hrun.
  destruct userId as [u|]; [|leaf Hrun].
  unfold Store.userExists in Hrun.
  case_bool_decide as Hreg; simpl in Hrun; [|leaf Hrun].
  case_bool_decide as Hmem; simpl in Hrun; [leaf Hrun|].
  inversion Hrun; subst. clear Hrun.
  eexists c, _, u. repeat (split; [done|]).
  split; [by apply (findChat_updateChat_same _ _ _ c)|].
  simpl. repeat (split; [done|]). split.
  - intros v Hv. unfold Chat.unreadFor, Chat.findUnread. simpl.
    rewrite findUnread_app_new. simpl.
    destruct (List.find _ (unreadCount c)); [done|].
    by rewrite bool_decide_eq_false_2.
  - intros Hnone. unfold Chat.unreadFor, Chat.findUnread in *. simpl.
    rewrite findUnread_app_new, Hnone. simpl.
    by rewrite bool_decide_eq_true_2.
Qed.

Lemma route_add_appends_member_witness :
  ∃ c c' u,
    Some 4%N = Some u
    ∧ Store.findChat 800%N exTeamDB = Some c
    ∧ (u ∈ User_coll exTeamDB) ∧ (u ∉ users c)
    ∧ Store.findChat 800%N
        (chatController.route_add 9000 1%N 800%N (Some 4%N) exTeamDB).2
      = Some c'
    ∧ users c' = users c ++ [u]
    ∧ groupAdmin c' = groupAdmin c
    ∧ (∀ v, v ≠ u → Chat.unreadFor v c' = Chat.unreadFor v c)
    ∧ (Chat.findUnread u c = None → Chat.unreadFor u c' = 0).
Proof.
  apply (route_add_appends_member 9000 1%N 800%N (Some 4%N) exTeamDB
           (mkRes 200 true "User added to group successfully"));
    reflexivity.
Defined.

Lemma group_admin_routes_admin_only_witness :
  (chatController.route_add 9000 2%N 800%N (Some 4%N) exTeamDB).2 = exTeamDB
  ∧ (chatController.route_remove 2%N 800%N (Some 3%N) exTeamDB).2 = exTeamDB
  ∧ (chatRest.route_rename 2%N 800%N (Some "mine") exTeamDB).2 = exTeamDB.
Proof.
  pose proof (group_admin_routes_admin_only 9000 2%N 800%N (Some 3%N)
                (Some "mine") exTeamDB) as (_ & Hremove & Hrename).
  pose proof (group_admin_routes_admin_only 9000 2%N 800%N (Some 4%N)
                (Some "mine") exTeamDB) as (Hadd & _ & _).
  split; [|split].
  - apply (proj1 Hadd). reflexivity.
  - apply (proj1 Hremove). reflexivity.
  - apply (proj1 Hrename). reflexivity.
Defined.

(** X13. Removing a member: a successful request names a member other than
    the admin; afterwards the chat's members are the old ones without that
    user, in the same order, the admin is unchanged, the user has no unread
    entry and the counter shown to every other user is unchanged.  In
    particular the admin cannot be removed. *)
Theorem route_remove_drops_member me chatId userId db res db' :
  chatController.route_remove me chatId userId db = (res, db') →
  res_success res = true →
  ∃ c c' u,
    userId = Some u
    ∧ Store.findChat chatId db = Some c
    ∧ u ∈ users c ∧ u ≠ me ∧ groupAdmin c = Some me
    ∧ Store.findChat chatId db' = Some c'
    ∧ users c' = filter (fun x => x ≠ u) (users c)
    ∧ (u ∉ users c')
    ∧ groupAdmin c' = Some me
    ∧ Chat.findUnread u c' = None
    ∧ (∀ v, v ≠ u → Chat.unreadFor v c' = Chat.unreadFor v c).
Proof.
  unfold chatController.route_remove. intros Hrun Hok.
  destruct (chatController.isGroupAdmin me chatId db) as [r|c] eqn:Hadm.
  { apply isGroupAdmin_inl in Hadm. inversion Hrun; subst. congruence. }
  apply isGroupAdmin_inr in Hadm as (Hc & Hid & Hg & Ha).
  unfold chatController.removeFromGroup, chatController.reply in Hrun.
  destruct userId as [u|]; [|leaf Hrun].
  case_bool_decide as Hmem; simpl in Hrun; [|leaf Hrun].
  rewrite Ha in Hrun.
  destruct (decide (me = u)) as [Hu|Hu]; [leaf Hrun|].
  inversion Hrun; subst. clear Hrun.
  eexists c, _, u. split; [done|]. split; [done|]. split; [done|].
  split; [congruence|]. split; [done|].
  split; [by apply (findChat_updateChat_same _ _ _ c)|].
  simpl. split; [done|]. split.
  { intros Hin. by apply list_elem_of_filter in Hin as [Hne _]. }
  split; [done|]. split.
  - apply find_unread_filter_same.
  - intros v Hv. unfold Chat.unreadFor, Chat.findUnread. simpl.
    by rewrite find_unread_filter_other.
Qed.

Lemma route_remove_drops_member_witness :
  ∃ c c' u,
    Some 3%N = Some u
    ∧ Store.findChat 800%N exTeamDB = Some c
    ∧ u ∈ users c ∧ u ≠ 1%N ∧ groupAdmin c = Some 1%N
    ∧ Store.findChat 800%N
        (chatController.route_remove 1%N 800%N (Some 3%N) exTeamDB).2
      = Some c'
    ∧ users c' = filter (fun x => x ≠ u) (users c)
    ∧ (u ∉ users c')
    ∧ groupAdmin c' = Some 1%N
    ∧ Chat.findUnread u c' = None
    ∧ (∀ v, v ≠ u → Chat.unreadFor v c' = Chat.unreadFor v c).
Proof.
  apply (route_remove_drops_member 1%N 800%N (Some 3%N) exTeamDB
           (mkRes 200 true "User removed from group successfully"));
    reflexivity.
Defined.

(** X14. Leaving a group fails closed and takes the leaver out: a request
    answered without success leaves the store as it was; a request answered
    with success came from a member of an existing group chat, and
    afterwards either the chat is gone (the leaver was the admin and the
    only member) or the chat's members are the old ones without the leaver,
    in the same order, the leaver has no unread entry, is not the admin, and
    the counter shown to every other user is unchanged. *)
Theorem leaveGroup_takes_leaver_out me chatId db res db' :
  chatController.leaveGroup me chatId db = (res, db') →
  (res_success res = false → db' = db)
  ∧ (res_success res = true →
     ∃ c,
       Store.findChat chatId db = Some c
       ∧ isGroupChat c = true ∧ me ∈ users c
       ∧ ((groupAdmin c = Some me
           ∧ filter (fun x => x ≠ me) (users c) = []
           ∧ Store.findChat chatId db' = None)
          ∨ ∃ c',
              Store.findChat chatId db' = Some c'
              ∧ users c' = filter (fun x => x ≠ me) (users c)
              ∧ (me ∉ users c')
              ∧ groupAdmin c' ≠ Some me
              ∧ Chat.findUnread me c' = None
              ∧ (∀ v, v ≠ me → Chat.unreadFor v c' = Chat.unreadFor v c))).
Proof.
  unfold chatController.leaveGroup, chatController.reply. intros Hrun.
  destruct (Store.findChat chatId db) as [c|] eqn:Hc; [|by leaf Hrun].
  destruct (isGroupChat c) eqn:Hg; simpl in Hrun; [|by leaf Hrun].
  case_bool_decide as Hmem; simpl in Hrun; [|by leaf Hrun].
  destruct (groupAdmin c) as [admin|] eqn:Ha; [|by leaf Hrun].
  pose proof (findChat_Some _ _ _ Hc) as [_ Hid].
  assert (∀ c0, chat_id c0 = chatId → users c0 = users c →
                unreadCount c0 = unreadCount c → groupAdmin c0 ≠ Some me →
            ∃ c',
              Store.findChat chatId
                (Store.saveChat
                   (set_unreadCount
                      (filter (fun item => unread_user item ≠ me)
                              (unreadCount c0))
                      (set_users (filter (fun x => x ≠ me) (users c0)) c0))
                   db) = Some c'
              ∧ users c' = filter (fun x => x ≠ me) (users c)
              ∧ (me ∉ users c')
              ∧ groupAdmin c' ≠ Some me
              ∧ Chat.findUnread me c' = None
              ∧ (∀ v, v ≠ me → Chat.unreadFor v c' = Chat.unreadFor v c))
    as Hleave.
  { intros c0 Hid0 Hus Hun Hadm. eexists. split.
    - by apply (findChat_saveChat _ _ c).
    - simpl. rewrite Hus, Hun. split; [done|]. split.
      { intros Hin. by apply list_elem_of_filter in Hin as [Hne _]. }
      split; [done|]. split; [apply find_unread_filter_same|].
      intros v Hv. unfold Chat.unreadFor, Chat.findUnread. simpl.
      by rewrite find_unread_filter_other. }
  destruct (decide (admin = me)) as [->|Hadmin].
  - destruct (filter (fun x => x ≠ me) (users c)) as [|first rest] eqn:Hothers.
    + leaf Hrun. split; [done|]. intros _. exists c.
      repeat (split; [done|]). left. repeat (split; [done|]).
      unfold Store.findChat, Store.deleteChatById. simpl.
      destruct (List.find _ _) as [d|] eqn:Hd; [|done].
      apply find_some in Hd as [Hin Hd]. apply bool_decide_eq_true in Hd.
      apply list_elem_of_In, list_elem_of_filter in Hin as [Hne _]. congruence.
    + leaf Hrun. split; [done|]. intros _. exists c.
      repeat (split; [done|]). right.
      destruct (Hleave (set_groupAdmin (Some first) c)) as (c' & Hc' & Hrest);
        try done.
      { simpl. intros [= ->].
        assert (me ∈ filter (fun x => x ≠ me) (users c)) as Hin
            by (rewrite Hothers; by left).
        by apply list_elem_of_filter in Hin as [Hne _]. }
      exists c'. simpl in Hc'. rewrite ?Hothers in Hc'. rewrite ?Hothers.
      split; [exact Hc'|exact Hrest].
  - leaf Hrun. split; [done|]. intros _. exists c.
    repeat (split; [done|]). right.
    destruct (Hleave c) as (c' & Hc' & Hrest); try done.
    { rewrite Ha. congruence. }
    exists c'. split; [exact Hc'|exact Hrest].
Qed.

Lemma leaveGroup_takes_leaver_out_witness :
  (chatController.leaveGroup 4%N 800%N exTeamDB).2 = exTeamDB
  ∧ ∃ c,
      Store.findChat 800%N exTeamDB = Some c
      ∧ isGroupChat c = true ∧ 1%N ∈ users c
      ∧ ((groupAdmin c = Some 1%N
          ∧ filter (fun x => x ≠ 1%N) (users c) = []
          ∧ Store.findChat 800%N
              (chatController.leaveGroup 1%N 800%N exTeamDB).2 = None)
         ∨ ∃ c',
             Store.findChat 800%N
               (chatController.leaveGroup 1%N 800%N exTeamDB).2 = Some c'
             ∧ users c' = filter (fun x => x ≠ 1%N) (users c)
             ∧ (1%N ∉ users c')
             ∧ groupAdmin c' ≠ Some 1%N
             ∧ Chat.findUnread 1%N c' = None
             ∧ (∀ v, v ≠ 1%N → Chat.unreadFor v c' = Chat.unreadFor v c)).
Proof.
  split.
  - apply (proj1 (leaveGroup_takes_leaver_out 4%N 800%N exTeamDB
                    (mkRes 400 false "You are not a member of this group")
                    _ eq_refl)).
    reflexivity.
  - apply (proj2 (leaveGroup_takes_leaver_out 1%N 800%N exTeamDB
                    (mkRes 200 true "Left group successfully") _ eq_refl)).
    reflexivity.
Defined.

(** ** Deleting a chat, reading a chat *)

(** X15. [deleteChat] fails closed and cascades: a request answered without
    success leaves the store as it was; a request answered with success came
    from a member of the chat (the admin, for a group chat), and afterwards
    no chat has the id, the messages stored are exactly the earlier messages
    of the other chats, and the users are untouched. *)
Theorem deleteChat_cascades_to_messages me chatId db res db' :
  chatController.deleteChat me chatId db = (res, db') →
  (res_success res = false → db' = db)
  ∧ (res_success res = true →
     ∃ c,
       Store.findChat chatId db = Some c
       ∧ me ∈ users c
       ∧ (isGroupChat c = true → groupAdmin c = Some me)
       ∧ Store.findChat chatId db' = None
       ∧ Chat_coll db' = filter (fun d => chat_id d ≠ chatId) (Chat_coll db)
       ∧ Message_coll db' = filter (fun m => chat m ≠ chatId) (Message_coll db)
       ∧ User_coll db' = User_coll db).
Proof.
  unfold chatController.deleteChat, chatController.reply. intros Hrun.
  destruct (Store.findChat chatId db) as [c|] eqn:Hc; [|by leaf Hrun].
  pose proof (findChat_Some _ _ _ Hc) as [_ Hid].
  case_bool_decide as Hmem; simpl in Hrun; [|by leaf Hrun].
  assert (Store.findChat chatId
            (Store.deleteChatById (chat_id c)
               (Store.deleteMessagesOf (chat_id c) db)) = None) as Hgone.
  { unfold Store.findChat, Store.deleteChatById. simpl.
    destruct (List.find _ _) as [d|] eqn:Hd; [|done].
    apply find_some in Hd as [Hin Hd]. apply bool_decide_eq_true in Hd.
    apply list_elem_of_In, list_elem_of_filter in Hin as [Hne _]. congruence. }
  destruct (isGroupChat c) eqn:Hg.
  - destruct (groupAdmin c) as [admin|] eqn:Ha; [|by leaf Hrun].
    destruct (decide (admin ≠ me)) as [Hne|Hne]; [by leaf Hrun|].
    assert (admin = me) as ->
        by (destruct (decide (admin = me)); [done|by destruct Hne]).
    leaf Hrun. split; [done|]. intros _. exists c.
    repeat split; try done.
  - leaf Hrun. split; [done|]. intros _. exists c.
    repeat split; try done. congruence.
Qed.

Lemma deleteChat_cascades_to_messages_witness :
  (chatController.deleteChat 2%N 800%N exTeamDB).2 = exTeamDB
  ∧ ∃ c,
      Store.findChat 800%N exTeamDB = Some c
      ∧ (1%N ∈ users c)
      ∧ (isGroupChat c = true → groupAdmin c = Some 1%N)
      ∧ Store.findChat 800%N
          (chatController.deleteChat 1%N 800%N exTeamDB).2 = None
      ∧ Chat_coll (chatController.deleteChat 1%N 800%N exTeamDB).2
        = filter (fun d => chat_id d ≠ 800%N) (Chat_coll exTeamDB)
      ∧ Message_coll (chatController.deleteChat 1%N 800%N exTeamDB).2
        = filter (fun m => chat m ≠ 800%N) (Message_coll exTeamDB)
      ∧ User_coll (chatController.deleteChat 1%N 800%N exTeamDB).2
        = User_coll exTeamDB.
Proof.
  split.
  - apply (proj1 (deleteChat_cascades_to_messages 2%N 800%N exTeamDB
                    (mkRes 403 false "Only group admin can delete the group")
                    _ eq_refl)).
    reflexivity.
  - apply (proj2 (deleteChat_cascades_to_messages 1%N 800%N exTeamDB
                    (mkRes 200 true "Chat deleted successfully") _ eq_refl)).
    reflexivity.
Defined.

Lemma unreadFor_reset_same now u c :
  Chat.unreadFor u (Chat.resetUnreadCount now u c) = 0.
Proof.
  unfold Chat.unreadFor, Chat.findUnread. simpl.
  rewrite findUnread_resetFirst_same. by destruct (List.find _ _).
Qed.

Lemma unreadFor_reset_other now u v c :
  v ≠ u →
  Chat.unreadFor v (Chat.resetUnreadCount now u c) = Chat.unreadFor v c.
Proof.
  intros Hv. unfold Chat.unreadFor, Chat.findUnread. simpl.
  by rewrite findUnread_resetFirst_other.
Qed.

(** X16. Marking a chat as read over REST and joining it over the socket
    do the same to the store.  For a user who is not a member of an existing
    chat both change nothing, and the socket handler tells only the caller,
    with an [error].  For a member both bring the user's counter to zero and
    leave every other counter and the members as they were; the socket
    handler also puts the socket in the chat's room and confirms to the
    caller only. *)
Theorem read_and_join_reset_own_counter now k chatId db :
  (chatRest.route_read now (conn_user k) chatId db).2
  = (router.on_join_chat now k chatId db).1.1
  ∧ (eventLoop.memberOf db (conn_user k) chatId = false →
     (router.on_join_chat now k chatId db)
     = (db, k, [to_self (conn_socket k)
                  (event (error "Not authorized to join this chat"))])
     ∧ res_success (chatRest.route_read now (conn_user k) chatId db).1 = false)
  ∧ (eventLoop.memberOf db (conn_user k) chatId = true →
     ∃ c c',
       Store.findChat chatId db = Some c
       ∧ Store.findChat chatId (router.on_join_chat now k chatId db).1.1
         = Some c'
       ∧ Chat.unreadFor (conn_user k) c' = 0
       ∧ (∀ v, v ≠ conn_user k → Chat.unreadFor v c' = Chat.unreadFor v c)
       ∧ users c' = users c
       ∧ (chatId ∈ conn_rooms (router.on_join_chat now k chatId db).1.2)
       ∧ (router.on_join_chat now k chatId db).2
         = [to_self (conn_socket k) (joined_chat chatId)]
       ∧ res_success (chatRest.route_read now (conn_user k) chatId db).1
         = true).
Proof.
  unfold chatRest.route_read, chatRest.isChatMember, chatRest.markChatAsRead,
    router.on_join_chat, eventLoop.memberOf, chatController.reply.
  destruct (Store.findChat chatId db) as [c|] eqn:Hc; [|done].
  destruct (bool_decide (conn_user k ∈ users c)) eqn:Hmem; simpl.
  - rewrite ?Hc, ?Hmem. simpl. split; [done|]. split; [done|]. intros _.
    exists c, (Chat.resetUnreadCount now (conn_user k) c).
    split; [done|]. split.
    { apply (findChat_saveChat _ _ c); [done|].
      simpl. by apply findChat_Some in Hc as [_ ?]. }
    split; [apply unreadFor_reset_same|].
    split; [intros v Hv; by apply unreadFor_reset_other|].
    split; [done|]. split; [|by split].
    unfold router.joinRoom.
    destruct (bool_decide (chatId ∈ conn_rooms k)) eqn:Hin;
      [by apply bool_decide_eq_true in Hin|]. simpl.
    apply elem_of_app. right. by apply list_elem_of_singleton.
  - done.
Qed.

Lemma read_and_join_reset_own_counter_witness :
  (router.on_join_chat 9000 (mkConn 13%N 3%N [3%N]) 100%N exTeamDB
   = (exTeamDB, mkConn 13%N 3%N [3%N],
      [to_self 13%N (event (error "Not authorized to join this chat"))])
   ∧ res_success (chatRest.route_read 9000 3%N 100%N exTeamDB).1 = false)
  ∧ ∃ c c',
      Store.findChat 800%N exTeamDB = Some c
      ∧ Store.findChat 800%N
          (router.on_join_chat 9000 (mkConn 13%N 3%N [3%N]) 800%N exTeamDB).1.1
        = Some c'
      ∧ Chat.unreadFor 3%N c' = 0
      ∧ (∀ v, v ≠ 3%N → Chat.unreadFor v c' = Chat.unreadFor v c)
      ∧ users c' = users c
      ∧ (800%N ∈ conn_rooms
                   (router.on_join_chat 9000 (mkConn 13%N 3%N [3%N]) 800%N
                      exTeamDB).1.2)
      ∧ (router.on_join_chat 9000 (mkConn 13%N 3%N [3%N]) 800%N exTeamDB).2
        = [to_self 13%N (joined_chat 800%N)]
      ∧ res_success (chatRest.route_read 9000 3%N 800%N exTeamDB).1 = true.
Proof.
  split.
  - apply (proj1 (proj2 (read_and_join_reset_own_counter 9000
                           (mkConn 13%N 3%N [3%N]) 100%N exTeamDB))).
    reflexivity.
  - apply (proj2 (proj2 (read_and_join_reset_own_counter 9000
                           (mkConn 13%N 3%N [3%N]) 800%N exTeamDB))).
    reflexivity.
Defined.

(** ** Deleting a message *)

Lemma insertDesc_Permutation m l :
  MessageStatics.insertDesc m l ≡ₚ m :: l.
Proof.
  induction l as [|x l IH]; [done|]. simpl.
  destruct (decide (createdAt x < createdAt m)); [done|].
  rewrite IH. apply Permutation_swap.
Qed.

Lemma sortByCreatedDesc_Permutation l :
  MessageStatics.sortByCreatedDesc l ≡ₚ l.
Proof.
  induction l as [|x l IH]; [done|]. simpl.
  by rewrite insertDesc_Permutation, IH.
Qed.

Lemma insertDesc_sorted m l :
  StronglySorted (fun a b => createdAt b <= createdAt a) l →
  StronglySorted (fun a b => createdAt b <= createdAt a)
                 (MessageStatics.insertDesc m l).
Proof.
  induction 1 as [|x l Hl IH Hx]; simpl; [by repeat constructor|].
  destruct (decide (createdAt x < createdAt m)) as [Hlt|Hge].
  - constructor; [by constructor|].
    constructor; [lia|]. eapply Forall_impl; [exact Hx|]. simpl. lia.
  - constructor; [done|].
    rewrite insertDesc_Permutation. constructor; [lia|done].
Qed.

Lemma sortByCreatedDesc_sorted l :
  StronglySorted (fun a b => createdAt b <= createdAt a)
                 (MessageStatics.sortByCreatedDesc l).
Proof.
  induction l as [|x l IH]; simpl; [constructor|]. by apply insertDesc_sorted.
Qed.

(** The head of the descending sort is a newest element. *)
Lemma head_sortByCreatedDesc l :
  match head (MessageStatics.sortByCreatedDesc l) with
  | None => l = []
  | Some m => m ∈ l ∧ ∀ x, x ∈ l → createdAt x <= createdAt m
  end.
Proof.
  pose proof (sortByCreatedDesc_Permutation l) as Hperm.
  pose proof (sortByCreatedDesc_sorted l) as Hsorted.
  destruct (MessageStatics.sortByCreatedDesc l) as [|m rest]; simpl.
  - by apply Permutation_nil_l in Hperm.
  - split; [rewrite <- Hperm; by left|].
    intros x Hx. rewrite <- Hperm in Hx.
    apply StronglySorted_inv in Hsorted as [_ Hall].
    apply elem_of_cons in Hx as [->|Hx]; [lia|].
    rewrite Forall_forall in Hall. by apply Hall.
Qed.

Lemma findMessage_saveChat id c db :
  Store.findMessage id (Store.saveChat c db) = Store.findMessage id db.
Proof. done. Qed.

Lemma saveMessage_ids m db :
  map message_id (Message_coll (Store.saveMessage m db))
  = map message_id (Message_coll db).
Proof.
  unfold Store.saveMessage. simpl.
  induction (Message_coll db) as [|d l IH]; [done|]. simpl.
  rewrite IH. by destruct (decide (message_id d = message_id m)) as [->|].
Qed.



Lemma deleteMessage_success_store now me messageId db res db' out m c :
  messageRest.deleteMessage now me messageId db = (res, db', out) →
  res_success res = true →
  Store.findMessage messageId db = Some m →
  Store.findChat (chat m) db = Some c →
  db' = if bool_decide (latestMessage c = Some messageId)
        then Store.saveChat
               (set_latestMessage
                  (message_id <$>
                     head (MessageStatics.sortByCreatedDesc
                             (MessageStatics.visibleIn (chat m)
                                (Store.saveMessage
                                   (MessageMethods.softDelete now me m) db))))
                  c)
               (Store.saveMessage (MessageMethods.softDelete now me m) db)
        else Store.saveMessage (MessageMethods.softDelete now me m) db.
Proof.
  unfold messageRest.deleteMessage, messageRest.reply. intros Hrun Hok Hm Hc.
  rewrite Hm in Hrun.
  change (Store.findChat (chat m)
            (Store.saveMessage (MessageMethods.softDelete now me m) db))
    with (Store.findChat (chat m) db) in Hrun.
  rewrite Hc in Hrun.
  destruct (bool_decide (sender m = me)); [by leaf Hrun|].
  destruct (isGroupChat c); [|by leaf Hrun].
  destruct (groupAdmin c) as [admin|]; [|by leaf Hrun].
  destruct (bool_decide (admin = me)); by leaf Hrun.
Qed.

Lemma visible_after_softDelete now me m db x :
  x ∈ MessageStatics.visibleIn (chat m)
        (Store.saveMessage (MessageMethods.softDelete now me m) db) →
  message_id x ≠ message_id m.
Proof.
  unfold MessageStatics.visibleIn, Store.saveMessage. simpl.
  intros Hx. apply list_elem_of_filter in Hx as [[_ Hvis] Hx].
  apply list_elem_of_In, in_map_iff in Hx as (d & Hd & _).
  destruct (decide (message_id d = message_id m)) as [Heq|Hne].
  - subst x. simpl in Hvis. done.
  - by subst x.
Qed.

(** X18. After a successful [deleteMessage] the chat never points at the
    deleted message: if the chat's [latestMessage] was another message the
    chat is unchanged; if it was the deleted message then only the pointer
    changes, and it is now either unset, when the chat has no message left
    that is not deleted, or the id of such a message with the latest
    [createdAt] among them. *)
Theorem deleteMessage_repoints_latestMessage
        now me messageId db res db' out m c :
  messageRest.deleteMessage now me messageId db = (res, db', out) →
  res_success res = true →
  Store.findMessage messageId db = Some m →
  Store.findChat (chat m) db = Some c →
  ∃ c',
    Store.findChat (chat m) db' = Some c'
    ∧ (latestMessage c ≠ Some messageId → c' = c)
    ∧ (latestMessage c = Some messageId →
       c' = set_latestMessage (latestMessage c') c
       ∧ latestMessage c' ≠ Some messageId
       ∧ match latestMessage c' with
         | None => MessageStatics.visibleIn (chat m) db' = []
         | Some id =>
             ∃ m2,
               m2 ∈ MessageStatics.visibleIn (chat m) db'
               ∧ message_id m2 = id
               ∧ ∀ x, x ∈ MessageStatics.visibleIn (chat m) db' →
                      createdAt x <= createdAt m2
         end).
Proof.
  intros Hrun Hok Hm Hc.
  rewrite (deleteMessage_success_store _ _ _ _ _ _ _ _ _ Hrun Hok Hm Hc).
  pose proof (findMessage_Some _ _ _ Hm) as Hid.
  pose proof (findChat_Some _ _ _ Hc) as [_ Hcid].
  case_bool_decide as Hlatest.
  - eexists. split; [by apply (findChat_saveChat _ _ c)|].
    split; [done|]. intros _. simpl. split; [done|].
    change (MessageStatics.visibleIn (chat m) (Store.saveChat ?x ?d))
      with (MessageStatics.visibleIn (chat m) d).
    pose proof (head_sortByCreatedDesc
                  (MessageStatics.visibleIn (chat m)
                     (Store.saveMessage (MessageMethods.softDelete now me m)
                                        db))) as Hhead.
    destruct (head _) as [m2|]; simpl.
    + destruct Hhead as [Hin Hmax]. split.
      * intros [= Heq]. apply visible_after_softDelete in Hin. congruence.
      * by exists m2.
    + by split.
  - exists c. split; [done|]. by split.
Qed.

Lemma deleteMessage_repoints_latestMessage_witness :
  ∃ c',
    Store.findChat (chat exTeamMessage)
      (messageRest.deleteMessage 9000 2%N 201%N exTeamDB).1.2 = Some c'
    ∧ (latestMessage exTeam ≠ Some 201%N → c' = exTeam)
    ∧ (latestMessage exTeam = Some 201%N →
       c' = set_latestMessage (latestMessage c') exTeam
       ∧ latestMessage c' ≠ Some 201%N
       ∧ match latestMessage c' with
         | None =>
             MessageStatics.visibleIn (chat exTeamMessage)
               (messageRest.deleteMessage 9000 2%N 201%N exTeamDB).1.2 = []
         | Some id =>
             ∃ m2,
               m2 ∈ MessageStatics.visibleIn (chat exTeamMessage)
                      (messageRest.deleteMessage 9000 2%N 201%N exTeamDB).1.2
               ∧ message_id m2 = id
               ∧ ∀ x,
                   x ∈ MessageStatics.visibleIn (chat exTeamMessage)
                         (messageRest.deleteMessage 9000 2%N 201%N
                            exTeamDB).1.2 →
                   createdAt x <= createdAt m2
         end).
Proof.
  apply (deleteMessage_repoints_latestMessage 9000 2%N 201%N exTeamDB
           (mkRes 200 true "Message deleted successfully")
           (messageRest.deleteMessage 9000 2%N 201%N exTeamDB).1.2
           (messageRest.deleteMessage 9000 2%N 201%N exTeamDB).2
           exTeamMessage exTeam); reflexivity.
Defined.

(** ** Reactions over REST and over the socket *)

Lemma saveReactions_Some m db db' :
  MessageMethods.saveReactions m db = Some db' → db' = Store.saveMessage m db.
Proof.
  unfold MessageMethods.saveReactions. destruct (forallb _ _); [|done].
  by intros [= <-].
Qed.

Lemma saveReactions_empty_emoji now u m db :
  MessageMethods.saveReactions (Message.addReaction now u EmptyString m) db
  = None.
Proof.
  unfold MessageMethods.saveReactions, Message.addReaction. simpl.
  rewrite forallb_app. simpl. by rewrite andb_false_r.
Qed.

(** X19. The REST endpoints for reactions and the [add_reaction] and
    [remove_reaction] handlers agree on every request: they leave the same
    store and make the same emissions, and the REST answer is a success
    exactly when something was emitted.  When something is emitted, for an
    addition and for a removal alike, it is one event, to the room of the
    message's chat, carrying the reaction list of the message as now
    stored: the earlier list with the user's reaction replaced, or taken
    out. *)
Theorem reactions_rest_and_socket_agree now s messageId emoji db :
  (messageRest.addReaction now (socket.userId s) messageId emoji db).1.2
  = (router.on_add_reaction now s messageId emoji db).1
  ∧ (messageRest.addReaction now (socket.userId s) messageId emoji db).2
    = (router.on_add_reaction now s messageId emoji db).2
  ∧ res_success
      (messageRest.addReaction now (socket.userId s) messageId emoji db).1.1
    = negb (bool_decide
              ((router.on_add_reaction now s messageId emoji db).2 = []))
  ∧ ((router.on_add_reaction now s messageId emoji db).2 = []
     ∨ ∃ m e,
         Store.findMessage messageId db = Some m
         ∧ emoji = Some e
         ∧ Store.findMessage messageId
             (router.on_add_reaction now s messageId emoji db).1
           = Some (Message.addReaction now (socket.userId s) e m)
         ∧ (router.on_add_reaction now s messageId emoji db).2
           = [to_room (chat m)
                (reaction_added messageId
                   (reactions (Message.addReaction now (socket.userId s) e m)))])
  ∧ (messageRest.removeReaction (socket.userId s) messageId db).1.2
    = (router.on_remove_reaction s messageId db).1
  ∧ (messageRest.removeReaction (socket.userId s) messageId db).2
    = (router.on_remove_reaction s messageId db).2
  ∧ res_success (messageRest.removeReaction (socket.userId s) messageId db).1.1
    = negb (bool_decide ((router.on_remove_reaction s messageId db).2 = []))
  ∧ ((router.on_remove_reaction s messageId db).2 = []
     ∨ ∃ m,
         Store.findMessage messageId db = Some m
         ∧ Store.findMessage messageId
             (router.on_remove_reaction s messageId db).1
           = Some (Message.removeReaction (socket.userId s) m)
         ∧ (router.on_remove_reaction s messageId db).2
           = [to_room (chat m)
                (reaction_removed messageId
                   (reactions
                      (Message.removeReaction (socket.userId s) m)))]).
Proof.
  assert (∀ m' m, Store.findMessage messageId db = Some m →
                  message_id m' = message_id m →
            Store.findMessage messageId (Store.saveMessage m' db) = Some m')
    as Hsaved.
  { intros m' m Hm Hid. apply (findMessage_saveMessage _ _ m); [done|].
    rewrite Hid. by apply findMessage_Some in Hm. }
  unfold messageRest.addReaction, router.on_add_reaction,
    messageRest.removeReaction, router.on_remove_reaction, messageRest.reply.
  destruct (Store.findMessage messageId db) as [m|] eqn:Hm.
  2:{ destruct emoji as [e|]; [destruct (bool_decide (e = EmptyString))|];
        simpl; split_and!; try done; by left. }
  pose proof (findMessage_Some _ _ _ Hm) as Hid.
  split_and!.
  8:{ destruct (MessageMethods.saveReactions
                  (Message.removeReaction (socket.userId s) m) db)
        as [db1|] eqn:Hsave; [|by left].
      apply saveReactions_Some in Hsave; subst db1.
      rewrite (Hsaved (Message.removeReaction (socket.userId s) m) m
                 eq_refl eq_refl). simpl.
      right. exists m. split; [done|].
      split; [by apply (Hsaved _ m)|]. by rewrite ?Hid. }
  5-7: destruct (MessageMethods.saveReactions
                   (Message.removeReaction (socket.userId s) m) db)
         as [db1|] eqn:Hsave; [|done];
       apply saveReactions_Some in Hsave; subst db1;
       rewrite (Hsaved (Message.removeReaction (socket.userId s) m) m
                  eq_refl eq_refl); simpl; by rewrite ?Hid.
  all: destruct (Store.findChat (chat m) db) as [c|];
    [|destruct emoji as [e|]; [destruct (bool_decide (e = EmptyString))|];
      simpl; try done; by left].
  all: destruct (bool_decide (socket.userId s ∈ users c)); simpl;
    [|destruct emoji as [e|]; [destruct (bool_decide (e = EmptyString))|];
      simpl; try done; by left].
  all: destruct emoji as [e|]; simpl;
    [destruct (bool_decide (e = EmptyString)) eqn:He; simpl;
     [apply bool_decide_eq_true in He; subst e|]|];
    rewrite ?saveReactions_empty_emoji; simpl; try done; try (by left).
  all: destruct (MessageMethods.saveReactions
                   (Message.addReaction now (socket.userId s) e m) db)
         as [db1|] eqn:Hsave; simpl; try done; try (by left).
  all: apply saveReactions_Some in Hsave; subst db1;
    rewrite (Hsaved (Message.addReaction now (socket.userId s) e m) m
               eq_refl eq_refl); simpl; rewrite ?Hid; try done.
  right. exists m, e. by rewrite (Hsaved (Message.addReaction now (socket.userId s) e m) m
               eq_refl eq_refl).
Qed.

(** ** Pages of messages *)

Lemma StronglySorted_rev {A} (R : relation A) (l : list A) :
  StronglySorted R l → StronglySorted (flip R) (rev l).
Proof.
  induction 1 as [|x l Hl IH Hx]; simpl; [constructor|].
  apply StronglySorted_app. split; [|split; [done|by repeat constructor]].
  intros a b Ha Hb. apply list_elem_of_singleton in Hb as ->.
  apply list_elem_of_In, in_rev, list_elem_of_In in Ha.
  rewrite Forall_forall in Hx. by apply Hx.
Qed.

Lemma StronglySorted_take_drop {A} (R : relation A) (l : list A) n k :
  StronglySorted R l → StronglySorted R (take n (drop k l)).
Proof.
  intros Hl.
  rewrite <- (take_drop k l) in Hl.
  apply StronglySorted_app in Hl as (_ & _ & Hdrop).
  rewrite <- (take_drop n (drop k l)) in Hdrop.
  by apply StronglySorted_app in Hdrop as (_ & Htake & _).
Qed.

Lemma hasMore_iff_page_before_last (total limit page : nat) :
  (1 ≤ limit)%nat →
  Nat.ltb (page * limit) total
  = Nat.ltb page (Nat.div (total + limit - 1) limit).
Proof.
  intros Hlimit.
  destruct (Nat.ltb_spec (page * limit) total) as [Hlt|Hge];
    symmetry; [apply Nat.ltb_lt|apply Nat.ltb_ge].
  - apply (Nat.div_le_lower_bound _ _ (S page)); [lia|]. nia.
  - apply Nat.lt_succ_r. apply Nat.Div0.div_lt_upper_bound. nia.
Qed.

(** X20. [getMessages] for a member of the chat and positive [page] and
    [limit] answers with a page that holds only stored messages of that chat
    that are not deleted, oldest first, as many as
    [min limit (total - (page - 1) * limit)], hence at most [limit] and none
    beyond the last page; [total] counts the messages of the chat that are
    not deleted, and [hasMore] is true exactly when [page] is smaller than
    [pages].  A user who is not a member gets no page. *)
Theorem getMessages_page me chatId page limit db c :
  Store.findChat chatId db = Some c →
  (me ∉ users c →
   (messageRest.getMessages me chatId (Some page) (Some limit) db).2 = None)
  ∧ (me ∈ users c →
     ∃ pg,
       messageRest.getMessages me chatId (Some page) (Some limit) db
       = (mkRes 200 true EmptyString, Some pg)
       ∧ (∀ m, m ∈ messageRest.page_messages pg →
               m ∈ Message_coll db ∧ chat m = chatId ∧ isDeleted m = false)
       ∧ StronglySorted (fun a b => createdAt a <= createdAt b)
                        (messageRest.page_messages pg)
       ∧ messageRest.page_total pg
         = List.length (MessageStatics.visibleIn chatId db)
       ∧ List.length (messageRest.page_messages pg)
         = Nat.min (Pos.to_nat limit)
                   (messageRest.page_total pg
                    - (Pos.to_nat page - 1) * Pos.to_nat limit)
       ∧ messageRest.page_hasMore pg
         = Nat.ltb (Pos.to_nat page) (messageRest.page_pages pg)
       ∧ messageRest.page_current pg = Pos.to_nat page).
Proof.
  intros Hc. unfold messageRest.getMessages. rewrite Hc. simpl. split.
  - intros Hme. by rewrite bool_decide_eq_false_2.
  - intros Hme. rewrite (bool_decide_eq_true_2 _ Hme). simpl.
    eexists. split; [reflexivity|]. simpl.
    unfold MessageStatics.getChatMessages.
    split; [|split; [|split; [done|split; [|split; [|done]]]]].
    + intros m Hm. apply list_elem_of_In, in_rev, list_elem_of_In in Hm.
      pose proof (elem_of_sublist _ _ _ Hm (sublist_take _ _)) as Hm1.
      pose proof (elem_of_sublist _ _ _ Hm1 (sublist_drop _ _)) as Hm2.
      rewrite sortByCreatedDesc_Permutation in Hm2.
      unfold MessageStatics.visibleIn in Hm2.
      by apply list_elem_of_filter in Hm2 as [[? ?] ?].
    + apply (StronglySorted_rev (fun a b => createdAt b <= createdAt a)).
      apply StronglySorted_take_drop, sortByCreatedDesc_sorted.
    + rewrite length_rev, length_take, length_drop.
      by rewrite (Permutation_length (sortByCreatedDesc_Permutation _)).
    + apply hasMore_iff_page_before_last. lia.
Qed.

Lemma getMessages_page_witness :
  (messageRest.getMessages 4%N 800%N (Some 1%positive) (Some 50%positive)
     exTeamDB).2 = None
  ∧ ∃ pg,
      messageRest.getMessages 2%N 800%N (Some 1%positive) (Some 50%positive)
        exTeamDB = (mkRes 200 true EmptyString, Some pg)
      ∧ (∀ m, m ∈ messageRest.page_messages pg →
              m ∈ Message_coll exTeamDB ∧ chat m = 800%N
              ∧ isDeleted m = false)
      ∧ StronglySorted (fun a b => createdAt a <= createdAt b)
                       (messageRest.page_messages pg)
      ∧ messageRest.page_total pg
        = List.length (MessageStatics.visibleIn 800%N exTeamDB)
      ∧ List.length (messageRest.page_messages pg)
        = Nat.min (Pos.to_nat 50)
                  (messageRest.page_total pg
                   - (Pos.to_nat 1 - 1) * Pos.to_nat 50)
      ∧ messageRest.page_hasMore pg
        = Nat.ltb (Pos.to_nat 1) (messageRest.page_pages pg)
      ∧ messageRest.page_current pg = Pos.to_nat 1.
Proof.
  split.
  - apply (proj1 (getMessages_page 4%N 800%N 1%positive 50%positive exTeamDB
                    exTeam eq_refl)).
    compute_done.
  - apply (proj2 (getMessages_page 2%N 800%N 1%positive 50%positive exTeamDB
                    exTeam eq_refl)).
    compute_done.
Defined.

(** ** Stores the system reaches *)

Lemma chatWellFormed_structure c c' :
  structure c' = structure c → chatWellFormed c → chatWellFormed c'.
Proof.
  unfold structure, chatWellFormed, adminIsMember, pairIfPrivate,
    unreadMatchesUsers.
  intros H. injection H as _ Hg Hu Ha Hm. by rewrite Hg, Hu, Ha, Hm.
Qed.

Lemma latestStored_ext db db' c c' :
  Message_coll db' = Message_coll db →
  latestMessage c' = latestMessage c → chat_id c' = chat_id c →
  latestStored db c → latestStored db' c'.
Proof. unfold latestStored. by intros -> -> ->. Qed.

Lemma elem_of_map_1 {A B} (f : A → B) (l : list A) x :
  x ∈ l → f x ∈ map f l.
Proof. intros H. apply list_elem_of_In, in_map. by apply list_elem_of_In. Qed.

Lemma elem_of_map_inv {A B} (f : A → B) (l : list A) y :
  y ∈ map f l → ∃ x, y = f x ∧ x ∈ l.
Proof.
  intros H. apply list_elem_of_In, in_map_iff in H as (x & <- & Hx).
  exists x. split; [done|]. by apply list_elem_of_In.
Qed.

Lemma find_unique {A} (key : A → ObjectId) id (l : list A) x d :
  NoDup (map key l) →
  List.find (fun a => bool_decide (key a = id)) l = Some x →
  d ∈ l → key d = id → d = x.
Proof.
  induction l as [|a l IH]; simpl; [done|].
  intros Hnd Hfind Hd Hid. apply NoDup_cons in Hnd as [Ha Hnd].
  destruct (decide (key a = id)) as [Haid|Haid].
  - rewrite bool_decide_eq_true_2 in Hfind by done.
    inversion Hfind; subst x.
    apply elem_of_cons in Hd as [Hd|Hd]; [done|].
    exfalso. apply Ha. rewrite Haid, <- Hid. by apply elem_of_map_1.
  - rewrite bool_decide_eq_false_2 in Hfind by done.
    apply elem_of_cons in Hd as [Hd|Hd]; [congruence|]. by apply IH.
Qed.

Lemma findChat_unique id db c d :
  NoDup (map chat_id (Chat_coll db)) →
  Store.findChat id db = Some c →
  d ∈ Chat_coll db → chat_id d = id → d = c.
Proof. apply find_unique. Qed.

Lemma findMessage_unique id db m d :
  NoDup (map message_id (Message_coll db)) →
  Store.findMessage id db = Some m →
  d ∈ Message_coll db → message_id d = id → d = m.
Proof. apply find_unique. Qed.

Lemma findMessage_elem id db m :
  Store.findMessage id db = Some m → m ∈ Message_coll db.
Proof.
  unfold Store.findMessage. intros H. apply find_some in H as [H _].
  by apply list_elem_of_In.
Qed.

Lemma updateChat_ids id f db :
  (∀ c, c ∈ Chat_coll db → chat_id c = id → chat_id (f c) = id) →
  map chat_id (Chat_coll (Store.updateChat id f db))
  = map chat_id (Chat_coll db).
Proof.
  intros Hf. unfold Store.updateChat. simpl. rewrite map_map.
  apply map_ext_in. intros c Hc.
  destruct (decide (chat_id c = id)) as [Heq|]; [|done].
  rewrite Hf; [done| by apply list_elem_of_In |done].
Qed.

Lemma NoDup_map_filter {A B} (f : A → B) (P : A → Prop)
      `{∀ x, Decision (P x)} (l : list A) :
  NoDup (map f l) → NoDup (map f (filter P l)).
Proof.
  induction l as [|a l IH]; simpl; [done|].
  intros Hnd. apply NoDup_cons in Hnd as [Ha Hnd].
  rewrite filter_cons. destruct (decide (P a)); [|by apply IH]. simpl.
  apply NoDup_cons. split; [|by apply IH].
  intros Hin. apply Ha. apply elem_of_map_inv in Hin as (x & -> & Hx).
  apply list_elem_of_filter in Hx as [_ Hx]. by apply elem_of_map_1.
Qed.

(** The store operations keep a store well-formed. *)
Lemma wf_updateChat id f db :
  storeWellFormed db →
  (∀ d, d ∈ Chat_coll db → chat_id d = id → chatWellFormed d →
        latestStored db d →
        chat_id (f d) = id ∧ chatWellFormed (f d) ∧ latestStored db (f d)) →
  storeWellFormed (Store.updateChat id f db).
Proof.
  intros (Hc & Hm & Hwf & Hl) Hf.
  rewrite Forall_forall in Hwf, Hl.
  repeat split.
  - rewrite updateChat_ids; [done|]. intros d Hd Hid.
    by apply (Hf d Hd Hid (Hwf d Hd) (Hl d Hd)).
  - done.
  - apply Forall_updateChat; [|by apply Forall_forall].
    intros d Hd Hid _. by apply (Hf d Hd Hid (Hwf d Hd) (Hl d Hd)).
  - apply Forall_forall. intros c' Hc'. simpl in Hc'.
    apply elem_of_map_inv in Hc' as (d & -> & Hd).
    destruct (decide (chat_id d = id)) as [Hid|Hid].
    + by apply (Hf d Hd Hid (Hwf d Hd) (Hl d Hd)).
    + by apply Hl.
Qed.

Lemma wf_saveChat c c' db :
  storeWellFormed db →
  Store.findChat (chat_id c') db = Some c →
  (chatWellFormed c → latestStored db c →
   chatWellFormed c' ∧ latestStored db c') →
  storeWellFormed (Store.saveChat c' db).
Proof.
  intros Hdb Hc Hc'. apply wf_updateChat; [done|].
  intros d Hd Hid Hdwf Hdl. split; [done|]. apply Hc'.
  - destruct Hdb as (Hnd & _).
    by rewrite <- (findChat_unique _ _ _ d Hnd Hc Hd Hid).
  - destruct Hdb as (Hnd & _).
    by rewrite <- (findChat_unique _ _ _ d Hnd Hc Hd Hid).
Qed.

(** A change of a stored chat that keeps its structure and its latest
    message. *)
Lemma wf_saveChat_same c c' db :
  storeWellFormed db →
  Store.findChat (chat_id c') db = Some c →
  structure c' = structure c → latestMessage c' = latestMessage c →
  storeWellFormed (Store.saveChat c' db).
Proof.
  intros Hdb Hc Hs Hl. apply (wf_saveChat c); [done|done|].
  intros Hwf Hls. split; [by apply (chatWellFormed_structure c)|].
  apply (latestStored_ext db db c); [done|done| |done].
  apply findChat_Some in Hc. by destruct Hc.
Qed.

Lemma wf_saveMessage m m' db :
  storeWellFormed db →
  Store.findMessage (message_id m') db = Some m →
  chat m' = chat m →
  (isDeleted m' = isDeleted m
   ∨ ∀ c, c ∈ Chat_coll db → latestMessage c ≠ Some (message_id m')) →
  storeWellFormed (Store.saveMessage m' db).
Proof.
  intros (Hc & Hm & Hwf & Hl) Hfind Hchat Hdel.
  repeat split; [done| by rewrite saveMessage_ids |done|].
  rewrite Forall_forall in Hl. apply Forall_forall. intros c Hcin id Hid.
  destruct (Hl c Hcin id Hid) as (x & Hx & Hxid & Hxchat & Hxdel).
  destruct (decide (message_id x = message_id m')) as [Heq|Hne].
  - assert (x = m) as -> by (by apply (findMessage_unique _ db m x Hm Hfind)).
    exists m'. split.
    { simpl. apply (elem_of_map_1
        (fun d => if decide (message_id d = message_id m') then m' else d))
        in Hx.
      by destruct (decide (message_id m = message_id m')). }
    split; [congruence|]. split; [congruence|].
    destruct Hdel as [Hdel|Hdel]; [congruence|].
    exfalso. apply (Hdel c Hcin). congruence.
  - exists x. split; [|done]. simpl.
    apply (elem_of_map_1
      (fun d => if decide (message_id d = message_id m') then m' else d))
      in Hx.
    by destruct (decide (message_id x = message_id m')).
Qed.

Lemma wf_createChat c db db' :
  storeWellFormed db → Store.createChat c db = Some db' →
  chatWellFormed c → latestMessage c = None →
  storeWellFormed db'.
Proof.
  intros (Hc & Hm & Hwf & Hl) Hcreate Hcwf Hnone.
  apply createChat_Some in Hcreate as [-> Hfresh]. simpl.
  repeat split; simpl.
  - rewrite map_app. apply NoDup_app. split; [done|]. split.
    + intros x Hx Hx'. apply list_elem_of_singleton in Hx'. by subst x.
    + apply NoDup_singleton.
  - done.
  - apply Forall_app. split; [done|]. by apply Forall_singleton.
  - apply Forall_app. split; [done|]. apply Forall_singleton.
    intros id Hid. congruence.
Qed.

Lemma wf_deleteChatById id db :
  storeWellFormed db → storeWellFormed (Store.deleteChatById id db).
Proof.
  intros (Hc & Hm & Hwf & Hl). repeat split; simpl.
  - by apply NoDup_map_filter.
  - done.
  - by apply Forall_deleteChatById.
  - by apply (Forall_deleteChatById (latestStored db)).
Qed.

(** [deleteChat]: the messages of the chat go with it. *)
Lemma wf_deleteChat_cascade id db :
  storeWellFormed db →
  storeWellFormed
    (Store.deleteChatById id (Store.deleteMessagesOf id db)).
Proof.
  intros (Hc & Hm & Hwf & Hl). repeat split; simpl.
  - by apply NoDup_map_filter.
  - by apply NoDup_map_filter.
  - by apply (Forall_deleteChatById _ id db).
  - rewrite Forall_forall in Hl. apply Forall_forall. intros c Hcin.
    apply list_elem_of_filter in Hcin as [Hne Hcin].
    intros mid Hmid.
    destruct (Hl c Hcin mid Hmid) as (x & Hx & Hxid & Hxchat & Hxdel).
    exists x. split; [|done]. apply list_elem_of_filter. split; [|done].
    congruence.
Qed.

(** One change applied to every chat that keeps structure and latest
    message. *)
Lemma wf_mapChats (g : ChatDoc → ChatDoc) db :
  (∀ c, structure (g c) = structure c) →
  (∀ c, latestMessage (g c) = latestMessage c) →
  storeWellFormed db →
  storeWellFormed (Store.withChats (map g (Chat_coll db)) db).
Proof.
  intros Hs Hlm (Hc & Hm & Hwf & Hl).
  assert (∀ c, chat_id (g c) = chat_id c) as Hid.
  { intros c. specialize (Hs c). unfold structure in Hs. congruence. }
  rewrite Forall_forall in Hwf, Hl.
  repeat split; simpl.
  - rewrite map_map. by rewrite (map_ext _ chat_id Hid).
  - done.
  - apply Forall_forall. intros c' Hc'.
    apply elem_of_map_inv in Hc' as (d & -> & Hd).
    apply (chatWellFormed_structure d); [done|]. by apply Hwf.
  - apply Forall_forall. intros c' Hc'.
    apply elem_of_map_inv in Hc' as (d & -> & Hd).
    apply (latestStored_ext db _ d); [done|done|done|]. by apply Hl.
Qed.

Lemma wf_createMessage now newId senderId content_ chatId mt reply db c m db1 :
  storeWellFormed db →
  Store.findChat chatId db = Some c →
  Store.createMessage now newId senderId content_ chatId mt reply db
  = inr (m, db1) →
  storeWellFormed db1
  ∧ Store.findChat chatId db1 = Some (set_latestMessage (Some newId) c)
  ∧ (m ∈ Message_coll db1)
  ∧ message_id m = newId ∧ chat m = chatId ∧ isDeleted m = false.
Proof.
  intros (Hc & Hm & Hwf & Hl) Hfind Hcreate.
  unfold Store.createMessage, Store.newMessage in Hcreate.
  destruct (Store.validMessage _); [|done].
  case_bool_decide as Hdup; [done|].
  inversion Hcreate; subst m db1; clear Hcreate.
  simpl in Hdup.
  rewrite Forall_forall in Hwf, Hl.
  split; [repeat split; simpl|].
  - rewrite map_map. apply (eq_ind_r NoDup Hc). apply map_ext.
    intros d. by destruct (decide (chat_id d = chatId)).
  - rewrite map_app. apply NoDup_app. split; [done|]. split.
    + intros x Hx Hx'. apply list_elem_of_singleton in Hx'. by subst x.
    + apply NoDup_singleton.
  - apply Forall_forall. intros c' Hc'.
    apply elem_of_map_inv in Hc' as (d & -> & Hd).
    destruct (decide (chat_id d = chatId)); [|by apply Hwf].
    apply (chatWellFormed_structure d); [done|]. by apply Hwf.
  - apply Forall_forall. intros c' Hc'.
    apply elem_of_map_inv in Hc' as (d & -> & Hd).
    destruct (decide (chat_id d = chatId)) as [Hid|Hid].
    + intros mid Hmid. simpl in Hmid. inversion Hmid; subst mid.
      eexists. split; [apply elem_of_app; right; apply list_elem_of_singleton;
                       reflexivity|].
      by simpl.
    + intros mid Hmid.
      destruct (Hl d Hd mid Hmid) as (x & Hx & Hrest).
      exists x. split; [|done]. apply elem_of_app. by left.
  - split.
    { apply (findChat_updateChat_same chatId
               (set_latestMessage (Some newId))
               db c Hfind).
      simpl. apply findChat_Some in Hfind. by destruct Hfind. }
    split; [apply elem_of_app; right; by apply list_elem_of_singleton|].
    done.
Qed.

Lemma createMessage_fresh_inl
      now newId senderId content_ chatId mt reply db db' :
  newId ∉ map message_id (Message_coll db) →
  Store.createMessage now newId senderId content_ chatId mt reply db = inl db' →
  db' = db.
Proof.
  intros Hfresh. unfold Store.createMessage.
  destruct (Store.validMessage _); [|by intros [= <-]].
  case_bool_decide as Hdup; [|done]. by simpl in Hdup.
Qed.

Lemma NoDup_uniqueOf l : NoDup (chatController.uniqueOf l).
Proof.
  induction l as [|x l IH]; simpl; [constructor|].
  apply NoDup_cons. split.
  - intros H. by apply list_elem_of_filter in H as [H _].
  - by apply NoDup_filter.
Qed.

(** The handlers keep a store well-formed. *)
Lemma wf_accessChat now newId me userId db :
  storeWellFormed db →
  storeWellFormed (chatController.accessChat now newId me userId db).2.
Proof.
  intros Hdb. unfold chatController.accessChat, chatController.reply.
  destruct userId as [target|]; [|done].
  destruct (decide (target = me)) as [|Hne]; [done|].
  destruct (negb (Store.userExists target db)); [done|].
  destruct (ChatStatics.findOrCreateOneOnOneChat now newId me target db)
    as [[r db']|] eqn:Hfc; [|done].
  assert (storeWellFormed db') as Hdb'.
  { unfold ChatStatics.findOrCreateOneOnOneChat in Hfc.
    destruct (List.find _ (Chat_coll db)); [by inversion Hfc; subst|].
    destruct (Store.createChat _ db) as [db''|] eqn:Hcreate; [|done].
    inversion Hfc; subst.
    apply (wf_createChat _ _ _ Hdb Hcreate); [|done].
    unfold chatWellFormed, adminIsMember, pairIfPrivate, unreadMatchesUsers.
    simpl. split_and!; [done| | |done].
    - intros _. exists me, target. split; [done|]. congruence.
    - apply NoDup_cons. split; [|apply NoDup_singleton].
      intros H. apply list_elem_of_singleton in H. congruence. }
  destruct r as [c|]; [|done].
  by destruct (List.find _ (users c)).
Qed.

Lemma wf_createGroupChat now newId me us name descr db :
  storeWellFormed db →
  storeWellFormed
    (chatController.createGroupChat now newId me us name descr db).2.
Proof.
  intros Hdb. unfold chatController.createGroupChat, chatController.reply.
  destruct us as [us|]; [|done].
  destruct (Nat.ltb _ _); [done|].
  destruct name as [name|]; [|done].
  destruct (Nat.eqb _ _); [done|].
  destruct (negb _); [done|].
  destruct (Store.createChat _ db) as [db'|] eqn:Hcreate; [|done].
  simpl. apply (wf_createChat _ _ _ Hdb Hcreate); [|done].
  unfold chatWellFormed, adminIsMember, pairIfPrivate, unreadMatchesUsers.
  split_and!.
  - intros _. exists me. split; [done|]. simpl. apply elem_of_cons. by left.
  - done.
  - apply (NoDup_uniqueOf (me :: us)).
  - apply map_unread_user_fresh.
Qed.

Lemma wf_route_add now me chatId userId db :
  storeWellFormed db →
  storeWellFormed (chatController.route_add now me chatId userId db).2.
Proof.
  intros Hdb. unfold chatController.route_add.
  destruct (chatController.isGroupAdmin me chatId db) as [r|c] eqn:Hadm;
    [done|].
  apply isGroupAdmin_inr in Hadm as (Hfind & Hid & Hg & Ha).
  unfold chatController.addToGroup, chatController.reply.
  destruct userId as [u|]; [|done].
  destruct (negb _); [done|].
  case_bool_decide as Hmem; [done|]. simpl.
  apply wf_updateChat; [done|].
  intros d Hd Hdid Hdwf Hdl.
  assert (d = c) as ->
    by (destruct Hdb as (Hnd & _); by eapply findChat_unique).
  split; [done|]. split; [|by apply (latestStored_ext db db c)].
  destruct Hdwf as (Hadmin & Hpair & Hnodup & Hunread).
  unfold chatWellFormed, adminIsMember, pairIfPrivate, unreadMatchesUsers.
  simpl. split_and!.
  - intros _. destruct (Hadmin Hg) as (a & Ha' & Hin).
    exists a. split; [done|]. apply elem_of_app. by left.
  - intros Hng. congruence.
  - apply NoDup_app. split; [done|]. split; [|apply NoDup_singleton].
    intros x Hx Hx'. apply list_elem_of_singleton in Hx'. by subst x.
  - rewrite map_app. simpl. by rewrite Hunread.
Qed.

Lemma wf_route_remove me chatId userId db :
  storeWellFormed db →
  storeWellFormed (chatController.route_remove me chatId userId db).2.
Proof.
  intros Hdb. unfold chatController.route_remove.
  destruct (chatController.isGroupAdmin me chatId db) as [r|c] eqn:Hadm;
    [done|].
  apply isGroupAdmin_inr in Hadm as (Hfind & Hid & Hg & Ha).
  unfold chatController.removeFromGroup, chatController.reply.
  destruct userId as [u|]; [|done].
  destruct (negb _); [done|].
  rewrite Ha.
  destruct (decide (me = u)) as [|Hne]; [done|]. simpl.
  apply wf_updateChat; [done|].
  intros d Hd Hdid Hdwf Hdl.
  assert (d = c) as ->
    by (destruct Hdb as (Hnd & _); by eapply findChat_unique).
  split; [done|]. split; [|by apply (latestStored_ext db db c)].
  destruct Hdwf as (Hadmin & Hpair & Hnodup & Hunread).
  unfold chatWellFormed, adminIsMember, pairIfPrivate. split_and!.
  - intros _. destruct (Hadmin Hg) as (a & Ha' & Hin).
    exists a. split; [done|]. simpl. apply list_elem_of_filter.
    split; [congruence|done].
  - simpl. intros Hng. congruence.
  - simpl. by apply NoDup_filter.
  - by apply unreadMatchesUsers_remove.
Qed.

Lemma wf_leaveGroup me chatId db :
  storeWellFormed db →
  storeWellFormed (chatController.leaveGroup me chatId db).2.
Proof.
  intros Hdb. unfold chatController.leaveGroup, chatController.reply.
  destruct (Store.findChat chatId db) as [c|] eqn:Hc; [|done].
  destruct (isGroupChat c) eqn:Hg; simpl; [|done].
  destruct (negb (bool_decide _)); [done|].
  destruct (groupAdmin c) as [admin|] eqn:Ha; [|done].
  pose proof (findChat_Some _ _ _ Hc) as [Hin Hid].
  assert (∀ c', chat_id c' = chat_id c → isGroupChat c' = true →
                latestMessage c' = latestMessage c →
                unreadMatchesUsers c' → NoDup (users c') →
                (∃ a, groupAdmin c' = Some a ∧ a ∈ users c' ∧ a ≠ me) →
            storeWellFormed
              (Store.saveChat
                 (set_unreadCount
                    (filter (fun item => unread_user item ≠ me)
                            (unreadCount c'))
                    (set_users (filter (fun x => x ≠ me) (users c')) c'))
                 db)) as Hleave.
  { intros c' Hid' Hg' Hl' Hu' Hnd' (a & Ha' & Hain & Hame).
    apply (wf_saveChat c); [done|simpl; congruence|].
    intros Hcwf Hcl. split.
    - unfold chatWellFormed, adminIsMember, pairIfPrivate. split_and!.
      + intros _. exists a. split; [done|]. simpl.
        by apply list_elem_of_filter.
      + simpl. congruence.
      + simpl. by apply NoDup_filter.
      + by apply unreadMatchesUsers_remove.
    - by apply (latestStored_ext db db c). }
  pose proof Hdb as (Hnd & Hm & Hwf & Hl).
  rewrite Forall_forall in Hwf.
  destruct (Hwf c Hin) as (Hadmin & Hpair & Hnodup & Hunread).
  destruct (Hadmin Hg) as (a & Ha' & Hain).
  assert (a = admin) as -> by congruence.
  destruct (decide (admin = me)) as [->|Hne].
  - destruct (filter _ (users c)) as [|first rest] eqn:Hothers.
    + simpl. by apply wf_deleteChatById.
    + simpl. rewrite <- Hothers.
      apply (Hleave (set_groupAdmin (Some first) c)); try done.
      exists first. split; [done|]. simpl.
      assert (first ∈ filter (fun x => x ≠ me) (users c)) as Hf
        by (rewrite Hothers; apply elem_of_cons; by left).
      by apply list_elem_of_filter in Hf as [? ?].
  - apply (Hleave c); try done. by exists admin.
Qed.

Lemma wf_deleteChat me chatId db :
  storeWellFormed db →
  storeWellFormed (chatController.deleteChat me chatId db).2.
Proof.
  intros Hdb. unfold chatController.deleteChat, chatController.reply.
  destruct (Store.findChat chatId db) as [c|]; [|done].
  destruct (negb (bool_decide _)); [done|].
  destruct (isGroupChat c).
  - destruct (groupAdmin c) as [admin|]; [|done].
    destruct (decide (admin ≠ me)); [done|]. simpl.
    by apply wf_deleteChat_cascade.
  - simpl. by apply wf_deleteChat_cascade.
Qed.

Lemma wf_route_rename me chatId name db :
  storeWellFormed db →
  storeWellFormed (chatRest.route_rename me chatId name db).2.
Proof.
  intros Hdb. unfold chatRest.route_rename.
  destruct (chatController.isGroupAdmin me chatId db) as [r|c]; [done|].
  unfold chatRest.renameGroup, chatController.reply.
  destruct name as [name|]; [|done].
  destruct (Nat.eqb _ _); [done|].
  destruct (Store.findChat chatId db) as [d|]; [|done]. simpl.
  apply wf_updateChat; [done|].
  intros x Hx Hxid Hxwf Hxl. split; [done|].
  split; [by apply (chatWellFormed_structure x)|].
  by apply (latestStored_ext db db x).
Qed.

Lemma structure_resetUnreadCount now u c :
  structure (Chat.resetUnreadCount now u c) = structure c.
Proof.
  unfold structure, Chat.resetUnreadCount. simpl.
  by rewrite map_unread_user_resetFirst.
Qed.

Lemma structure_incrementUnreadCount u c :
  structure (Chat.incrementUnreadCount u c) = structure c.
Proof.
  unfold structure, Chat.incrementUnreadCount. simpl. rewrite map_map.
  f_equal. apply map_ext. intros item.
  by destruct (decide (unread_user item ≠ u)).
Qed.

Lemma wf_route_read now me chatId db :
  storeWellFormed db →
  storeWellFormed (chatRest.route_read now me chatId db).2.
Proof.
  intros Hdb. unfold chatRest.route_read.
  destruct (chatRest.isChatMember me chatId db) as [r|c]; [done|].
  unfold chatRest.markChatAsRead, chatController.reply.
  destruct (Store.findChat chatId db) as [d|] eqn:Hd; [|done].
  destruct (negb (bool_decide _)); [done|]. simpl.
  apply findChat_Some in Hd as Hd'. destruct Hd' as [_ Hid].
  apply (wf_saveChat_same d); [done|simpl; by rewrite Hid| |done].
  apply structure_resetUnreadCount.
Qed.

Lemma wf_on_join_chat now k chatId db :
  storeWellFormed db →
  storeWellFormed (router.on_join_chat now k chatId db).1.1.
Proof.
  intros Hdb. unfold router.on_join_chat.
  destruct (Store.findChat chatId db) as [d|] eqn:Hd; [|done].
  case_bool_decide; [|done]. simpl.
  apply findChat_Some in Hd as Hd'. destruct Hd' as [_ Hid].
  apply (wf_saveChat_same d); [done|simpl; by rewrite Hid| |done].
  apply structure_resetUnreadCount.
Qed.

Lemma wf_on_typing s now chatId db :
  storeWellFormed db →
  storeWellFormed (socket.on_typing s now chatId db).1.1.
Proof.
  intros Hdb. unfold socket.on_typing.
  destruct (Store.findChat chatId db) as [d|] eqn:Hd; [|done].
  case_bool_decide; [|done]. simpl.
  apply findChat_Some in Hd as Hd'. destruct Hd' as [_ Hid].
  by apply (wf_saveChat_same d); [done|simpl; by rewrite Hid|..].
Qed.

Lemma wf_on_stop_typing s chatId db :
  storeWellFormed db →
  storeWellFormed (socket.on_stop_typing s chatId db).1.
Proof.
  intros Hdb. unfold socket.on_stop_typing.
  destruct (Store.findChat chatId db) as [d|] eqn:Hd; [|done].
  case_bool_decide; [|done]. simpl.
  apply findChat_Some in Hd as Hd'. destruct Hd' as [_ Hid].
  by apply (wf_saveChat_same d); [done|simpl; by rewrite Hid|..].
Qed.

Lemma wf_typingTimeout t db :
  storeWellFormed db →
  storeWellFormed (socket.typingTimeout t db).1.
Proof.
  intros Hdb. unfold socket.typingTimeout.
  destruct (Store.findChat (socket.timer_chat t) db) as [d|] eqn:Hd; [|done].
  simpl.
  apply findChat_Some in Hd as Hd'. destruct Hd' as [_ Hid].
  by apply (wf_saveChat_same d); [done|simpl; by rewrite Hid|..].
Qed.

Lemma wf_afterCreate now newId me content_ chatId mt reply db c :
  storeWellFormed db →
  newId ∉ map message_id (Message_coll db) →
  Store.findChat chatId db = Some c →
  storeWellFormed
    match Store.createMessage now newId me content_ chatId mt reply db with
    | inl db' => db'
    | inr (message, db1) =>
        Store.saveChat
          (messageController.chatAfterSend me (message_id message) c) db1
    end.
Proof.
  intros Hdb Hfresh Hc.
  destruct (Store.createMessage _ _ _ _ _ _ _ _) as [db'|[m db1]] eqn:Hm.
  - by rewrite (createMessage_fresh_inl _ _ _ _ _ _ _ _ _ Hfresh Hm).
  - destruct (wf_createMessage _ _ _ _ _ _ _ _ _ _ _ Hdb Hc Hm)
      as (Hdb1 & Hc1 & Hin & Hmid & Hmchat & Hmdel).
    pose proof (findChat_Some _ _ _ Hc) as [Hcin Hid].
    apply (wf_saveChat (set_latestMessage (Some newId) c));
      [done|simpl; by rewrite Hid|].
    intros Hwf _. split.
    + apply (chatWellFormed_structure (set_latestMessage (Some newId) c));
        [|done].
      unfold messageController.chatAfterSend.
      transitivity
        (structure (Chat.incrementUnreadCount me
                      (set_latestMessage (Some (message_id m)) c)));
        [done|].
      by rewrite structure_incrementUnreadCount.
    + intros mid Hl. simpl in Hl. inversion Hl; subst mid.
      exists m. simpl. by rewrite Hid.
Qed.

Lemma wf_sendMessage now newId me content_ chatId_ mt reply db :
  storeWellFormed db →
  newId ∉ map message_id (Message_coll db) →
  storeWellFormed
    (messageController.sendMessage now newId me content_ chatId_ mt reply
       db).1.2.
Proof.
  intros Hdb Hfresh.
  unfold messageController.sendMessage, messageController.reply.
  destruct chatId_ as [chatId|]; [|done].
  destruct (bool_decide _ && _); [done|].
  destruct (Store.findChat chatId db) as [c|] eqn:Hc; [|done].
  destruct (negb (bool_decide _)); [done|].
  match goal with |- context [if negb ?b then _ else _] => destruct b end;
    simpl; [|done].
  pose proof (wf_afterCreate now newId me (trim <$> content_) chatId
                (default "text" mt) reply db c Hdb Hfresh Hc) as H.
  by destruct (Store.createMessage _ _ _ _ _ _ _ _) as [db'|[m db1]].
Qed.

Lemma wf_on_send_message conn s now newId content_ chatId_ mt reply db :
  storeWellFormed db →
  newId ∉ map message_id (Message_coll db) →
  storeWellFormed
    (socket.on_send_message conn s now newId content_ chatId_ mt reply db).1.
Proof.
  intros Hdb Hfresh. unfold socket.on_send_message.
  destruct chatId_ as [chatId|]; [|done].
  destruct (Store.findChat chatId db) as [c|] eqn:Hc; [|done].
  destruct (negb (bool_decide _)); [done|].
  pose proof (wf_afterCreate now newId (socket.userId s) (trim <$> content_)
                chatId (default "text" mt) reply db c Hdb Hfresh Hc) as H.
  by destruct (Store.createMessage _ _ _ _ _ _ _ _) as [db'|[m db1]].
Qed.

Lemma wf_editMessage now me messageId content_ db :
  storeWellFormed db →
  storeWellFormed
    (messageController.editMessage now me messageId content_ db).1.2.
Proof.
  intros Hdb.
  unfold messageController.editMessage, messageController.reply.
  destruct content_ as [text|]; [|done].
  destruct (bool_decide _ || _); [done|].
  destruct (Store.findMessage messageId db) as [m|] eqn:Hm; [|done].
  destruct (negb (Store.userExists _ _)); [done|].
  destruct (decide (sender m ≠ me)); [done|].
  destruct (decide (createdAt m < _)); [done|].
  destruct (negb (Store.validContentField _)); [done|]. simpl.
  apply (wf_saveMessage m); [done| |done|by left].
  simpl. by rewrite (findMessage_Some _ _ _ Hm).
Qed.

Lemma wf_saveReactions m m' db db' :
  storeWellFormed db →
  Store.findMessage (message_id m) db = Some m →
  message_id m' = message_id m → chat m' = chat m →
  isDeleted m' = isDeleted m →
  MessageMethods.saveReactions m' db = Some db' →
  storeWellFormed db'.
Proof.
  intros Hdb Hm Hid Hchat Hdel. unfold MessageMethods.saveReactions.
  destruct (forallb _ _); [|done]. intros [= <-].
  apply (wf_saveMessage m); [done|by rewrite Hid|done|by left].
Qed.

Lemma wf_addReaction now me messageId emoji db :
  storeWellFormed db →
  storeWellFormed (messageRest.addReaction now me messageId emoji db).1.2.
Proof.
  intros Hdb. unfold messageRest.addReaction, messageRest.reply.
  destruct emoji as [e|]; [|done].
  case_bool_decide; [done|].
  destruct (Store.findMessage messageId db) as [m|] eqn:Hm; [|done].
  destruct (Store.findChat (chat m) db) as [c|]; [|done].
  destruct (negb (bool_decide _)); [done|].
  destruct (MessageMethods.saveReactions _ db) as [db'|] eqn:Hsave; [|done].
  assert (storeWellFormed db') as Hdb'.
  { apply (λ H1 H2 H3 H4, wf_saveReactions m _ db db' Hdb H1 H2 H3 H4 Hsave);
      try done.
    by rewrite (findMessage_Some _ _ _ Hm). }
  by destruct (Store.findMessage messageId db').
Qed.

Lemma wf_removeReaction me messageId db :
  storeWellFormed db →
  storeWellFormed (messageRest.removeReaction me messageId db).1.2.
Proof.
  intros Hdb. unfold messageRest.removeReaction, messageRest.reply.
  destruct (Store.findMessage messageId db) as [m|] eqn:Hm; [|done].
  destruct (MessageMethods.saveReactions _ db) as [db'|] eqn:Hsave; [|done].
  assert (storeWellFormed db') as Hdb'.
  { apply (λ H1 H2 H3 H4, wf_saveReactions m _ db db' Hdb H1 H2 H3 H4 Hsave);
      try done.
    by rewrite (findMessage_Some _ _ _ Hm). }
  by destruct (Store.findMessage messageId db').
Qed.

Lemma wf_on_add_reaction now s messageId emoji db :
  storeWellFormed db →
  storeWellFormed (router.on_add_reaction now s messageId emoji db).1.
Proof.
  intros Hdb. unfold router.on_add_reaction.
  destruct (Store.findMessage messageId db) as [m|] eqn:Hm; [|done].
  destruct (Store.findChat (chat m) db) as [c|]; [|done].
  case_bool_decide; [|done].
  destruct (MessageMethods.saveReactions _ db) as [db'|] eqn:Hsave; [|done].
  assert (storeWellFormed db') as Hdb'.
  { apply (λ H1 H2 H3 H4, wf_saveReactions m _ db db' Hdb H1 H2 H3 H4 Hsave);
      try done.
    by rewrite (findMessage_Some _ _ _ Hm). }
  by destruct (Store.findMessage messageId db').
Qed.

Lemma wf_on_remove_reaction s messageId db :
  storeWellFormed db →
  storeWellFormed (router.on_remove_reaction s messageId db).1.
Proof.
  intros Hdb. unfold router.on_remove_reaction.
  destruct (Store.findMessage messageId db) as [m|] eqn:Hm; [|done].
  destruct (MessageMethods.saveReactions _ db) as [db'|] eqn:Hsave; [|done].
  assert (storeWellFormed db') as Hdb'.
  { apply (λ H1 H2 H3 H4, wf_saveReactions m _ db db' Hdb H1 H2 H3 H4 Hsave);
      try done.
    by rewrite (findMessage_Some _ _ _ Hm). }
  by destruct (Store.findMessage messageId db').
Qed.

Lemma latest_points_to_chat db m d :
  storeWellFormed db →
  Store.findMessage (message_id m) db = Some m →
  d ∈ Chat_coll db → latestMessage d = Some (message_id m) →
  chat_id d = chat m.
Proof.
  intros (Hc & Hm & Hwf & Hl) Hfind Hd Hlatest.
  rewrite Forall_forall in Hl.
  destruct (Hl d Hd _ Hlatest) as (x & Hx & Hxid & Hxchat & _).
  by rewrite (findMessage_unique _ db m x Hm Hfind Hx Hxid) in Hxchat.
Qed.

Lemma findChat_None id db d :
  Store.findChat id db = None → d ∈ Chat_coll db → chat_id d ≠ id.
Proof.
  unfold Store.findChat. intros H Hd.
  pose proof (find_none _ _ H d (proj1 (list_elem_of_In _ _) Hd)) as Hf.
  simpl in Hf. by apply bool_decide_eq_false in Hf.
Qed.

(** The soft delete of [deleteMessage] and the update of [latestMessage]
    that follows it. *)
Lemma wf_softDelete_repoint now me m db :
  storeWellFormed db →
  Store.findMessage (message_id m) db = Some m →
  storeWellFormed
    match Store.findChat (chat m)
            (Store.saveMessage (MessageMethods.softDelete now me m) db) with
    | None => Store.saveMessage (MessageMethods.softDelete now me m) db
    | Some c =>
        if bool_decide (latestMessage c = Some (message_id m)) then
          Store.saveChat
            (set_latestMessage
               (message_id <$>
                  head (MessageStatics.sortByCreatedDesc
                          (MessageStatics.visibleIn (chat m)
                             (Store.saveMessage
                                (MessageMethods.softDelete now me m) db))))
               c)
            (Store.saveMessage (MessageMethods.softDelete now me m) db)
        else Store.saveMessage (MessageMethods.softDelete now me m) db
    end.
Proof.
  intros Hdb Hfind.
  change (Store.findChat (chat m)
            (Store.saveMessage (MessageMethods.softDelete now me m) db))
    with (Store.findChat (chat m) db).
  destruct (Store.findChat (chat m) db) as [c|] eqn:Hc.
  - pose proof (findChat_Some _ _ _ Hc) as [Hcin Hcid].
    case_bool_decide as Hlatest.
    + set (m2 := head _).
      change (Store.saveChat (set_latestMessage (message_id <$> m2) c)
                (Store.saveMessage (MessageMethods.softDelete now me m) db))
        with (Store.saveMessage (MessageMethods.softDelete now me m)
                (Store.saveChat (set_latestMessage (message_id <$> m2) c)
                   db)).
      assert (∀ x, m2 = Some x →
                   x ∈ Message_coll db ∧ chat x = chat m
                   ∧ isDeleted x = false ∧ message_id x ≠ message_id m)
        as Hm2.
      { intros x Hx. subst m2.
        pose proof (head_sortByCreatedDesc
                      (MessageStatics.visibleIn (chat m)
                         (Store.saveMessage
                            (MessageMethods.softDelete now me m) db)))
          as Hhead.
        rewrite Hx in Hhead. destruct Hhead as [Hvis _].
        pose proof (visible_after_softDelete _ _ _ _ _ Hvis) as Hne.
        unfold MessageStatics.visibleIn in Hvis.
        apply list_elem_of_filter in Hvis as [[Hchat Hdel] Hin].
        simpl in Hin. apply elem_of_map_inv in Hin as (d & Hd & Hdin).
        destruct (decide (message_id d = message_id m)) as [Heq|Hneq].
        - subst x. by simpl in Hdel.
        - by subst x. }
      apply (wf_saveMessage m).
      * apply (wf_saveChat c); [done|simpl; by rewrite Hcid|].
        intros Hcwf Hcl. split; [by apply (chatWellFormed_structure c)|].
        intros id Hid. simpl in Hid.
        destruct m2 as [x|]; [|done]. simpl in Hid. inversion Hid; subst id.
        destruct (Hm2 x eq_refl) as (Hxin & Hxchat & Hxdel & _).
        exists x. simpl. by rewrite Hcid.
      * by rewrite findMessage_saveChat.
      * done.
      * right. intros d Hd. simpl in Hd.
        apply elem_of_map_inv in Hd as (d0 & -> & Hd0). simpl.
        destruct (decide (chat_id d0 = chat_id c)) as [Heq|Hneq].
        -- simpl. destruct m2 as [x|]; [|done]. simpl.
           destruct (Hm2 x eq_refl) as (_ & _ & _ & Hne). congruence.
        -- intros Hpoint. apply Hneq.
           rewrite (latest_points_to_chat db m d0 Hdb Hfind Hd0 Hpoint).
           by rewrite Hcid.
    + apply (wf_saveMessage m); [done|done|done|].
      right. intros d Hd Hpoint. simpl in Hpoint.
      pose proof (latest_points_to_chat db m d Hdb Hfind Hd Hpoint) as Hdid.
      destruct Hdb as (Hnd & _).
      rewrite (findChat_unique _ _ _ d Hnd Hc Hd Hdid) in Hpoint.
      done.
  - apply (wf_saveMessage m); [done|done|done|].
    right. intros d Hd Hpoint. simpl in Hpoint.
    pose proof (latest_points_to_chat db m d Hdb Hfind Hd Hpoint) as Hdid.
    by apply (findChat_None _ _ d Hc Hd).
Qed.

Lemma wf_deleteMessage now me messageId db :
  storeWellFormed db →
  storeWellFormed (messageRest.deleteMessage now me messageId db).1.2.
Proof.
  intros Hdb. unfold messageRest.deleteMessage, messageRest.reply.
  destruct (Store.findMessage messageId db) as [m|] eqn:Hm; [|done].
  pose proof (findMessage_Some _ _ _ Hm) as Hid. subst messageId.
  pose proof (wf_softDelete_repoint now me m db Hdb Hm) as Hproceed.
  assert (storeWellFormed
            (match Store.findChat (chat m)
                     (Store.saveMessage (MessageMethods.softDelete now me m)
                        db) with
             | None =>
                 (mkRes 500 false "Server error while deleting message",
                  Store.saveMessage (MessageMethods.softDelete now me m) db,
                  @nil Send)
             | Some c =>
                 (mkRes 200 true "Message deleted successfully",
                  if bool_decide (latestMessage c = Some (message_id m)) then
                    Store.saveChat
                      (set_latestMessage
                         (message_id <$>
                            head (MessageStatics.sortByCreatedDesc
                                    (MessageStatics.visibleIn (chat m)
                                       (Store.saveMessage
                                          (MessageMethods.softDelete now me m)
                                          db))))
                         c)
                      (Store.saveMessage (MessageMethods.softDelete now me m)
                         db)
                  else Store.saveMessage (MessageMethods.softDelete now me m)
                         db,
                  [to_room (chat m)
                     (message_deleted (message_id m) (chat m))])
             end).1.2) as Hp.
  { by destruct (Store.findChat (chat m) _). }
  case_bool_decide; [exact Hp|].
  destruct (Store.findChat (chat m) db) as [c|] eqn:Hc; [|done].
  destruct (isGroupChat c); [|done].
  destruct (groupAdmin c) as [admin|]; [|done].
  case_bool_decide; [|done].
  pose proof Hp as Hp'. by rewrite ?Hc in Hp'.
Qed.

Lemma NoDup_map_inj {A B} (f : A → B) (l : list A) x y :
  NoDup (map f l) → x ∈ l → y ∈ l → f x = f y → x = y.
Proof.
  induction l as [|a l IH]; simpl; [by intros _ ?%elem_of_nil|].
  intros Hnd Hx Hy Hxy. apply NoDup_cons in Hnd as [Ha Hnd].
  apply elem_of_cons in Hx as [->|Hx]; apply elem_of_cons in Hy as [->|Hy].
  - done.
  - exfalso. apply Ha. rewrite Hxy. by apply elem_of_map_1.
  - exfalso. apply Ha. rewrite <- Hxy. by apply elem_of_map_1.
  - by apply IH.
Qed.

Lemma find_key_notin {A} (key : A → ObjectId) id (l : list A) :
  id ∉ map key l →
  List.find (fun a => bool_decide (key a = id)) l = None.
Proof.
  induction l as [|a l IH]; simpl; [done|]. intros Hnot.
  apply not_elem_of_cons in Hnot as [Hne Hnot].
  rewrite bool_decide_eq_false_2 by congruence. by apply IH.
Qed.

(** Saving changed copies of chats with distinct ids, one after the other,
    replaces each stored chat of such an id by the changed copy. *)
Lemma foldl_saveChat_chats (r : ChatDoc → ChatDoc) cs db :
  (∀ c, chat_id (r c) = chat_id c) →
  NoDup (map chat_id cs) →
  foldl (fun db c => Store.saveChat (r c) db) db cs
  = Store.withChats
      (map (fun d =>
              match List.find (fun c => bool_decide (chat_id c = chat_id d))
                              cs with
              | Some c => r c
              | None => d
              end)
           (Chat_coll db)) db.
Proof.
  intros Hr. revert db. induction cs as [|c cs IH]; intros db Hnd; simpl.
  - unfold Store.withChats. rewrite map_id. by destruct db.
  - apply NoDup_cons in Hnd as [Hc Hnd]. rewrite (IH _ Hnd).
    unfold Store.saveChat, Store.updateChat, Store.withChats. simpl.
    f_equal. rewrite map_map. apply map_ext. intros d. rewrite Hr.
    destruct (decide (chat_id d = chat_id c)) as [Heq|Hne].
    + rewrite Hr, (find_key_notin chat_id (chat_id c) cs Hc).
      by rewrite bool_decide_eq_true_2.
    + by rewrite bool_decide_eq_false_2.
Qed.

(** What [disconnect] leaves in the chat collection. *)
Lemma clearTyping_chats u db :
  NoDup (map chat_id (Chat_coll db)) →
  presence.clearTyping u db
  = Store.withChats
      (map (fun c => if decide (u ∈ users c)
                     then Chat.removeTypingUser u c else c)
           (Chat_coll db)) db.
Proof.
  intros Hnd. unfold presence.clearTyping, presence.chatsOf.
  rewrite foldl_saveChat_chats; [|done|by apply NoDup_map_filter].
  unfold Store.withChats. f_equal. apply map_ext_in. intros d Hd.
  apply list_elem_of_In in Hd.
  destruct (List.find _ _) as [c|] eqn:Hfind.
  - apply find_some in Hfind as [Hc Hid].
    apply list_elem_of_In, list_elem_of_filter in Hc as [Hu Hc].
    apply bool_decide_eq_true in Hid.
    assert (c = d) as -> by (by apply (NoDup_map_inj chat_id (Chat_coll db))).
    by destruct (decide (u ∈ users d)).
  - destruct (decide (u ∈ users d)) as [Hu|Hu]; [|done].
    assert (d ∈ filter (fun c => u ∈ users c) (Chat_coll db)) as Hin
      by (by apply list_elem_of_filter).
    pose proof (find_none _ _ Hfind d (proj1 (list_elem_of_In _ _) Hin)) as Hf.
    simpl in Hf. by apply bool_decide_eq_false in Hf.
Qed.

Lemma wf_clearTyping u db :
  storeWellFormed db → storeWellFormed (presence.clearTyping u db).
Proof.
  intros Hdb. rewrite clearTyping_chats by apply Hdb.
  apply wf_mapChats; [| |done].
  - intros c. by destruct (decide (u ∈ users c)).
  - intros c. by destruct (decide (u ∈ users c)).
Qed.

Lemma applySysOp_wf db op :
  storeWellFormed db → freshFor db op → storeWellFormed (applySysOp db op).
Proof.
  intros Hdb Hfresh. destruct op as [op| | | | | | | | | | | | | | | |]; simpl.
  - destruct op; simpl.
    + by apply wf_accessChat.
    + by apply wf_createGroupChat.
    + by apply wf_route_add.
    + by apply wf_route_remove.
    + by apply wf_leaveGroup.
  - by apply wf_deleteChat.
  - by apply wf_route_rename.
  - by apply wf_route_read.
  - by apply wf_sendMessage.
  - by apply wf_on_send_message.
  - by apply wf_editMessage.
  - by apply wf_deleteMessage.
  - by apply wf_addReaction.
  - by apply wf_removeReaction.
  - by apply wf_on_add_reaction.
  - by apply wf_on_remove_reaction.
  - by apply wf_on_join_chat.
  - by apply wf_on_typing.
  - by apply wf_on_stop_typing.
  - by apply wf_typingTimeout.
  - by apply wf_clearTyping.
Qed.

Lemma reachable_wf db : reachable db → storeWellFormed db.
Proof.
  induction 1 as [userIds|db op _ IH Hfresh].
  - repeat split; simpl; constructor.
  - by apply applySysOp_wf.
Qed.

Lemma findMessage_of_elem db m :
  NoDup (map message_id (Message_coll db)) →
  m ∈ Message_coll db → Store.findMessage (message_id m) db = Some m.
Proof.
  intros Hnd Hm.
  destruct (Store.findMessage (message_id m) db) as [x|] eqn:Hfind.
  - f_equal. symmetry. by apply (findMessage_unique _ db x m Hnd Hfind).
  - unfold Store.findMessage in Hfind.
    pose proof (find_none _ _ Hfind m (proj1 (list_elem_of_In _ _) Hm)) as Hf.
    simpl in Hf. by apply bool_decide_eq_false in Hf.
Qed.

Lemma findChat_of_elem db c :
  NoDup (map chat_id (Chat_coll db)) →
  c ∈ Chat_coll db → Store.findChat (chat_id c) db = Some c.
Proof.
  intros Hnd Hc.
  destruct (Store.findChat (chat_id c) db) as [x|] eqn:Hfind.
  - f_equal. symmetry. by apply (findChat_unique _ db x c Hnd Hfind).
  - by pose proof (findChat_None _ _ c Hfind Hc).
Qed.

Lemma exSent_reachable : reachable exSent.
Proof.
  apply reach_step; [|compute_done].
  apply reach_step; [apply reach_init|exact I].
Qed.

(** X21. In every store the system reaches, through whatever requests and
    events, a chat is the only one of its id, lists no member twice, has
    one unread entry per member in the order of the members, has its admin
    among its members when it is a group, and has exactly two distinct
    members when it is not. *)
Theorem reachable_chats_are_well_formed db c :
  reachable db → c ∈ Chat_coll db →
  Store.findChat (chat_id c) db = Some c
  ∧ NoDup (users c)
  ∧ map unread_user (unreadCount c) = users c
  ∧ (isGroupChat c = true →
     ∃ admin, groupAdmin c = Some admin ∧ admin ∈ users c)
  ∧ (isGroupChat c = false → ∃ a b, users c = [a; b] ∧ a ≠ b).
Proof.
  intros Hreach Hc.
  destruct (reachable_wf db Hreach) as (Hnd & _ & Hwf & _).
  rewrite Forall_forall in Hwf.
  destruct (Hwf c Hc) as (Hadmin & Hpair & Husers & Hunread).
  split; [by apply findChat_of_elem|]. by repeat split.
Qed.

Lemma reachable_chats_are_well_formed_witness :
  ∃ c, Store.findChat 100%N exSent = Some c
       ∧ Store.findChat (chat_id c) exSent = Some c
       ∧ NoDup (users c)
       ∧ map unread_user (unreadCount c) = users c
       ∧ (isGroupChat c = true →
          ∃ admin, groupAdmin c = Some admin ∧ admin ∈ users c)
       ∧ (isGroupChat c = false → ∃ a b, users c = [a; b] ∧ a ≠ b).
Proof.
  eexists. split; [reflexivity|].
  apply (reachable_chats_are_well_formed exSent);
    [apply exSent_reachable|compute_done].
Defined.

(** X22. In every store the system reaches, the [latestMessage] of a chat,
    when set, is the id of exactly one stored message; that message belongs
    to the chat and is not deleted. *)
Theorem reachable_latestMessage_is_live_message_of_chat db c id :
  reachable db → c ∈ Chat_coll db → latestMessage c = Some id →
  ∃ m, Store.findMessage id db = Some m
       ∧ chat m = chat_id c ∧ isDeleted m = false
       ∧ ∀ m', m' ∈ Message_coll db → message_id m' = id → m' = m.
Proof.
  intros Hreach Hc Hlatest.
  destruct (reachable_wf db Hreach) as (_ & Hnd & _ & Hl).
  rewrite Forall_forall in Hl.
  destruct (Hl c Hc id Hlatest) as (m & Hm & Hid & Hchat & Hdel).
  exists m. subst id. split; [by apply findMessage_of_elem|].
  split; [done|]. split; [done|].
  intros m' Hm' Hid'. by apply (NoDup_map_inj message_id (Message_coll db)).
Qed.

Lemma reachable_latestMessage_is_live_message_of_chat_witness :
  ∃ m, Store.findMessage 200%N exSent = Some m
       ∧ chat m = 100%N ∧ isDeleted m = false
       ∧ ∀ m', m' ∈ Message_coll exSent → message_id m' = 200%N → m' = m.
Proof.
  apply (reachable_latestMessage_is_live_message_of_chat exSent
           (messageController.chatAfterSend 1%N 200%N exChat) 200%N);
    [apply exSent_reachable|compute_done|reflexivity].
Defined.

(** ** Connecting and disconnecting *)

Lemma joinRoom_rooms room k r :
  r ∈ conn_rooms (router.joinRoom room k) ↔ r = room ∨ r ∈ conn_rooms k.
Proof.
  unfold router.joinRoom. case_bool_decide as Hin; simpl.
  - split; [by right|]. by intros [->|?].
  - rewrite elem_of_app, list_elem_of_singleton. tauto.
Qed.

Lemma joinRoom_NoDup room k :
  NoDup (conn_rooms k) → NoDup (conn_rooms (router.joinRoom room k)).
Proof.
  intros Hnd. unfold router.joinRoom. case_bool_decide as Hin; simpl; [done|].
  apply NoDup_app. split; [done|]. split; [|apply NoDup_singleton].
  intros x Hx Hx'. apply list_elem_of_singleton in Hx'. by subst x.
Qed.

Lemma joinRoom_ids room k :
  conn_socket (router.joinRoom room k) = conn_socket k
  ∧ conn_user (router.joinRoom room k) = conn_user k.
Proof. unfold router.joinRoom. by case_bool_decide. Qed.

Lemma foldl_joinRoom (cs : list ChatDoc) k :
  conn_socket (foldl (fun k c => router.joinRoom (chat_id c) k) k cs)
  = conn_socket k
  ∧ conn_user (foldl (fun k c => router.joinRoom (chat_id c) k) k cs)
    = conn_user k
  ∧ (NoDup (conn_rooms k) →
     NoDup (conn_rooms
              (foldl (fun k c => router.joinRoom (chat_id c) k) k cs)))
  ∧ ∀ r, r ∈ conn_rooms
               (foldl (fun k c => router.joinRoom (chat_id c) k) k cs)
         ↔ r ∈ conn_rooms k ∨ ∃ c, c ∈ cs ∧ chat_id c = r.
Proof.
  revert k. induction cs as [|c cs IH]; intros k; simpl.
  - repeat split; try done; [by left|].
    intros [?|(c & Hc & _)]; [done|]. by apply elem_of_nil in Hc.
  - destruct (IH (router.joinRoom (chat_id c) k)) as (Hs & Hu & Hnd & Hr).
    destruct (joinRoom_ids (chat_id c) k) as [Hs' Hu'].
    split; [congruence|]. split; [congruence|]. split.
    + intros Hk. by apply Hnd, joinRoom_NoDup.
    + intros r. rewrite Hr, joinRoom_rooms. split.
      * intros [[->|?]|(d & Hd & Hdr)].
        -- right. exists c. split; [apply elem_of_cons; by left|done].
        -- by left.
        -- right. exists d. split; [apply elem_of_cons; by right|done].
      * intros [?|(d & Hd & Hdr)]; [left; by right|].
        apply elem_of_cons in Hd as [->|Hd]; [left; by left|].
        right. by exists d.
Qed.

Lemma NoDup_map_of_key {A B} (key : A → ObjectId) (g : ObjectId → B)
      (l : list A) :
  (∀ x y, g x = g y → x = y) →
  NoDup (map key l) → NoDup (map (fun a => g (key a)) l).
Proof.
  intros Hg. induction l as [|a l IH]; simpl; [constructor|].
  intros Hnd. apply NoDup_cons in Hnd as [Ha Hnd].
  apply NoDup_cons. split; [|by apply IH].
  intros Hin. apply Ha. apply elem_of_map_inv in Hin as (x & Hx & Hxin).
  apply Hg in Hx. rewrite Hx. by apply elem_of_map_1.
Qed.

Lemma NoDup_flat_map_pair {A B} (key : A → ObjectId) (e1 e2 : ObjectId → B)
      (l : list A) :
  (∀ x y, e1 x = e1 y → x = y) →
  (∀ x y, e2 x = e2 y → x = y) →
  (∀ x y, e1 x ≠ e2 y) →
  NoDup (map key l) →
  NoDup (flat_map (fun a => [e1 (key a); e2 (key a)]) l).
Proof.
  intros H1 H2 H12. induction l as [|a l IH]; simpl; [constructor|].
  intros Hnd. apply NoDup_cons in Hnd as [Ha Hnd].
  assert (∀ e, e ∈ flat_map (fun a => [e1 (key a); e2 (key a)]) l →
               ∃ x, x ∈ l ∧ (e = e1 (key x) ∨ e = e2 (key x))) as Hin.
  { intros e He. apply list_elem_of_In, in_flat_map in He as (x & Hx & He).
    exists x. split; [by apply list_elem_of_In|].
    destruct He as [He|[He|He]]; [by left|by right|done]. }
  apply NoDup_cons. split; [|apply NoDup_cons; split; [|by apply IH]].
  - intros He. apply elem_of_cons in He as [He|He]; [by apply H12 in He|].
    apply Hin in He as (x & Hx & [He|He]); [|by apply H12 in He].
    apply H1 in He. apply Ha. rewrite He. by apply elem_of_map_1.
  - intros He. apply Hin in He as (x & Hx & [He|He]).
    + symmetry in He. by apply H12 in He.
    + apply H2 in He. apply Ha. rewrite He. by apply elem_of_map_1.
Qed.

Lemma length_flat_map_pair {A B} (f g : A → B) (l : list A) :
  List.length (flat_map (fun a => [f a; g a]) l) = (2 * List.length l)%nat.
Proof. induction l as [|a l IH]; simpl; [done|]. rewrite IH. lia. Qed.

(** X23. A new connection starts in the user's own room and in the room of
    every chat the user is a member of, and in no other room.  The store is
    unchanged; the registry now holds the socket for the user and is
    otherwise unchanged, so a notification to the user is sent and reaches
    the connection.  One [user_status_change] goes to the room of each chat
    of the user: the events are those of the chats of the user, as many as
    there are such chats, and none occurs twice, the chat ids being
    distinct.  None of them reaches the connecting socket itself. *)
Theorem connection_joins_own_room_and_chat_rooms now s w :
  let w' := (presence.on_connection now s w).1.1 in
  let k := (presence.on_connection now s w).1.2 in
  let out := (presence.on_connection now s w).2 in
  conn_socket k = socket.socket_id s
  ∧ conn_user k = socket.userId s
  ∧ NoDup (conn_rooms k)
  ∧ (∀ r, r ∈ conn_rooms k
          ↔ r = socket.userId s
            ∨ ∃ c, c ∈ Chat_coll (w_db w)
                   ∧ socket.userId s ∈ users c ∧ chat_id c = r)
  ∧ w_db w' = w_db w
  ∧ w_registry w' !! socket.userId s = Some (socket.socket_id s)
  ∧ (∀ v, v ≠ socket.userId s → w_registry w' !! v = w_registry w !! v)
  ∧ (∀ n, router.sendNotificationToUser (w_registry w') (socket.userId s) n
          = (true, [to_room (socket.userId s) n])
          ∧ router.delivered (to_room (socket.userId s) n) k = true)
  ∧ (∀ e, e ∈ out
          ↔ ∃ c, c ∈ Chat_coll (w_db w) ∧ socket.userId s ∈ users c
                 ∧ e = to_others (socket.socket_id s) (chat_id c)
                         (user_status_change (socket.userId s) true))
  ∧ (∀ e, e ∈ out → router.delivered e k = false)
  ∧ List.length out
    = List.length (filter (fun c => socket.userId s ∈ users c)
                          (Chat_coll (w_db w)))
  ∧ (NoDup (map chat_id (Chat_coll (w_db w))) → NoDup out).
Proof.
  intros w' k out. subst w' k out. unfold presence.on_connection. simpl.
  destruct (foldl_joinRoom
              (presence.chatsOf (socket.userId s) (w_db w))
              (router.joinRoom (socket.userId s)
                 (mkConn (socket.socket_id s) (socket.userId s) [])))
    as (Hs & Hu & Hnd & Hr).
  assert (∀ r, r ∈ conn_rooms
                     (foldl (fun k c => router.joinRoom (chat_id c) k)
                        (router.joinRoom (socket.userId s)
                           (mkConn (socket.socket_id s) (socket.userId s) []))
                        (presence.chatsOf (socket.userId s) (w_db w)))
               ↔ r = socket.userId s
                 ∨ ∃ c, c ∈ Chat_coll (w_db w)
                        ∧ socket.userId s ∈ users c ∧ chat_id c = r)
    as Hrooms.
  { intros r. rewrite Hr, joinRoom_rooms. simpl. unfold presence.chatsOf.
    split.
    - intros [[->|Hnil]|(c & Hc & Hcr)]; [by left|by apply elem_of_nil in Hnil|].
      apply list_elem_of_filter in Hc as [Hmem Hc]. right. by exists c.
    - intros [->|(c & Hc & Hmem & Hcr)]; [left; by left|].
      right. exists c. split; [|done]. by apply list_elem_of_filter. }
  split; [done|]. split; [done|].
  split; [apply Hnd, joinRoom_NoDup; simpl; constructor|].
  split; [exact Hrooms|]. split; [done|].
  split; [by rewrite lookup_insert_eq|].
  split; [intros v Hv; by rewrite lookup_insert_ne|].
  split.
  { intros n. unfold router.sendNotificationToUser.
    rewrite lookup_insert_eq. split; [done|]. simpl.
    apply bool_decide_eq_true. apply Hrooms. by left. }
  split.
  - intros e. unfold presence.chatsOf. split.
    + intros He. apply elem_of_map_inv in He as (c & -> & Hc).
      apply list_elem_of_filter in Hc as [Hmem Hc]. by exists c.
    + intros (c & Hc & Hmem & ->).
      apply (elem_of_map_1
               (fun c => to_others (socket.socket_id s) (chat_id c)
                           (user_status_change (socket.userId s) true))).
      by apply list_elem_of_filter.
  - split; [|split].
    + intros e He. apply elem_of_map_inv in He as (c & -> & Hc). simpl.
      rewrite Hs. simpl. rewrite (bool_decide_eq_true_2 _ eq_refl). simpl.
      apply andb_false_r.
    + by rewrite length_map.
    + intros Hids. unfold presence.chatsOf.
      apply (NoDup_map_of_key chat_id
               (fun id => to_others (socket.socket_id s) id
                            (user_status_change (socket.userId s) true))).
      * intros x y Hxy. by inversion Hxy.
      * by apply NoDup_map_filter.
Qed.

Lemma connection_joins_own_room_and_chat_rooms_witness :
  (presence.on_connection 7000 exAlice exWorld).2
  = [to_others 11%N 100%N (user_status_change 1%N true)]
  ∧ NoDup (presence.on_connection 7000 exAlice exWorld).2.
Proof.
  split; [reflexivity|].
  apply (connection_joins_own_room_and_chat_rooms 7000 exAlice exWorld).
  compute_done.
Defined.

Lemma findChat_mapChats (g : ChatDoc → ChatDoc) id db :
  (∀ c, chat_id (g c) = chat_id c) →
  Store.findChat id (Store.withChats (map g (Chat_coll db)) db)
  = g <$> Store.findChat id db.
Proof.
  intros Hg. unfold Store.findChat. simpl.
  induction (Chat_coll db) as [|c l IH]; [done|]. simpl. rewrite Hg.
  by destruct (bool_decide (chat_id c = id)).
Qed.

(** X24. When a socket disconnects, the registry loses the entry of the
    user, whatever socket it held, so a notification to the user is no
    longer sent; every other entry stays.  In every chat the user is a member
    of, the typing entries of the user are removed and nothing else changes;
    every other chat and every message is untouched.  The room of each chat
    of the user gets one [user_status_change] and one [user_stopped_typing]:
    the events are those two for each chat of the user, twice as many as
    there are such chats, and none occurs twice.  No other room gets
    anything, and none of it reaches the disconnecting socket. *)
Theorem disconnect_clears_typing_and_registry now s w :
  NoDup (map chat_id (Chat_coll (w_db w))) →
  let w' := (presence.on_disconnect now s w).1 in
  let out := (presence.on_disconnect now s w).2 in
  w_registry w' !! socket.userId s = None
  ∧ (∀ v, v ≠ socket.userId s → w_registry w' !! v = w_registry w !! v)
  ∧ (∀ n, router.sendNotificationToUser (w_registry w') (socket.userId s) n
          = (false, []))
  ∧ (∀ id, Store.findChat id (w_db w')
           = (fun c => if decide (socket.userId s ∈ users c)
                       then Chat.removeTypingUser (socket.userId s) c
                       else c) <$> Store.findChat id (w_db w))
  ∧ (∀ c, c ∈ Chat_coll (w_db w') → socket.userId s ∈ users c →
          typingOf (socket.userId s) c = [])
  ∧ Message_coll (w_db w') = Message_coll (w_db w)
  ∧ (∀ e, e ∈ out
          ↔ ∃ c, c ∈ Chat_coll (w_db w) ∧ socket.userId s ∈ users c
                 ∧ (e = to_others (socket.socket_id s) (chat_id c)
                          (user_status_change (socket.userId s) false)
                    ∨ e = to_others (socket.socket_id s) (chat_id c)
                            (event (user_stopped_typing (socket.userId s)
                                                        (chat_id c)))))
  ∧ (∀ k e, conn_socket k = socket.socket_id s → e ∈ out →
            router.delivered e k = false)
  ∧ List.length out
    = (2 * List.length (filter (fun c => socket.userId s ∈ users c)
                               (Chat_coll (w_db w))))%nat
  ∧ NoDup out.
Proof.
  intros Hnd w' out. subst w' out. unfold presence.on_disconnect. simpl.
  rewrite (clearTyping_chats _ _ Hnd).
  assert (∀ e, e ∈ flat_map
                     (fun c =>
                        [to_others (socket.socket_id s) (chat_id c)
                           (user_status_change (socket.userId s) false);
                         to_others (socket.socket_id s) (chat_id c)
                           (event (user_stopped_typing (socket.userId s)
                                                       (chat_id c)))])
                     (presence.chatsOf (socket.userId s) (w_db w))
               ↔ ∃ c, c ∈ Chat_coll (w_db w) ∧ socket.userId s ∈ users c
                      ∧ (e = to_others (socket.socket_id s) (chat_id c)
                               (user_status_change (socket.userId s) false)
                         ∨ e = to_others (socket.socket_id s) (chat_id c)
                                 (event (user_stopped_typing
                                           (socket.userId s) (chat_id c)))))
    as Hout.
  { intros e. unfold presence.chatsOf. split.
    - intros He. apply list_elem_of_In, in_flat_map in He as (c & Hc & He).
      apply list_elem_of_In, list_elem_of_filter in Hc as [Hmem Hc].
      exists c. split; [done|]. split; [done|].
      destruct He as [He|[He|He]]; [subst e; by left|subst e; by right|done].
    - intros (c & Hc & Hmem & He).
      apply list_elem_of_In, in_flat_map. exists c. split.
      + apply list_elem_of_In. by apply list_elem_of_filter.
      + destruct He as [-> | ->]; [by left|right; by left]. }
  split; [by rewrite lookup_delete_eq|].
  split; [intros v Hv; by rewrite lookup_delete_ne|].
  split.
  { intros n. unfold router.sendNotificationToUser.
    by rewrite lookup_delete_eq. }
  split.
  { intros id. apply findChat_mapChats. intros c.
    by destruct (decide (socket.userId s ∈ users c)). }
  split.
  { intros c Hc Hmem. simpl in Hc.
    apply elem_of_map_inv in Hc as (d & -> & Hd).
    destruct (decide (socket.userId s ∈ users d)) as [Hu|Hu]; [|done].
    unfold typingOf, Chat.removeTypingUser. simpl.
    apply (filter_excluded _ typing_user). }
  split; [done|]. split; [exact Hout|].
  split; [|split].
  - intros k e Hk He.
    apply Hout in He as (c & _ & _ & [He|He]); subst e; simpl;
      rewrite Hk, (bool_decide_eq_true_2 _ eq_refl); apply andb_false_r.
  - apply (length_flat_map_pair
             (fun c => to_others (socket.socket_id s) (chat_id c)
                         (user_status_change (socket.userId s) false))
             (fun c => to_others (socket.socket_id s) (chat_id c)
                         (event (user_stopped_typing (socket.userId s)
                                                     (chat_id c))))).
  - unfold presence.chatsOf.
    apply (NoDup_flat_map_pair chat_id
             (fun id => to_others (socket.socket_id s) id
                          (user_status_change (socket.userId s) false))
             (fun id => to_others (socket.socket_id s) id
                          (event (user_stopped_typing (socket.userId s) id)))).
    + intros x y Hxy. by inversion Hxy.
    + intros x y Hxy. by inversion Hxy.
    + intros x y Hxy. by inversion Hxy.
    + by apply NoDup_map_filter.
Qed.

Lemma disconnect_clears_typing_and_registry_witness :
  let w' := (presence.on_disconnect 7000 exBob exWorld).1 in
  let out := (presence.on_disconnect 7000 exBob exWorld).2 in
  w_registry w' !! 2%N = None
  ∧ (∀ v, v ≠ 2%N → w_registry w' !! v = exConnected !! v)
  ∧ (∀ n, router.sendNotificationToUser (w_registry w') 2%N n = (false, []))
  ∧ (∀ id, Store.findChat id (w_db w')
           = (fun c => if decide (2%N ∈ users c)
                       then Chat.removeTypingUser 2%N c
                       else c) <$> Store.findChat id (w_db exWorld))
  ∧ (∀ c, c ∈ Chat_coll (w_db w') → 2%N ∈ users c → typingOf 2%N c = [])
  ∧ Message_coll (w_db w') = Message_coll (w_db exWorld)
  ∧ (∀ e, e ∈ out
          ↔ ∃ c, c ∈ Chat_coll (w_db exWorld) ∧ 2%N ∈ users c
                 ∧ (e = to_others 12%N (chat_id c)
                          (user_status_change 2%N false)
                    ∨ e = to_others 12%N (chat_id c)
                            (event (user_stopped_typing 2%N (chat_id c)))))
  ∧ (∀ k e, conn_socket k = 12%N → e ∈ out →
            router.delivered e k = false)
  ∧ List.length out
    = (2 * List.length (filter (fun c => 2%N ∈ users c)
                               (Chat_coll (w_db exWorld))))%nat
  ∧ NoDup out.
Proof.
  apply (disconnect_clears_typing_and_registry 7000 exBob exWorld).
  compute_done.
Defined.

(** ** What the chat list shows of typing *)

Lemma elem_of_shownTyping now me c v :
  v ∈ chatRest.shownTyping now me c
  ↔ v ≠ me
    ∧ ∃ item, item ∈ typingUsers c ∧ typing_user item = v
              ∧ now - 5000 < typing_timestamp item.
Proof.
  unfold chatRest.shownTyping, Chat.cleanOldTypingIndicators. simpl. split.
  - intros Hv. apply elem_of_map_inv in Hv as (item & -> & Hitem).
    apply list_elem_of_filter in Hitem as [Hme Hitem].
    apply list_elem_of_filter in Hitem as [Hts Hitem].
    split; [done|]. exists item. split; [done|]. split; [done|lia].
  - intros (Hme & item & Hitem & <- & Hts).
    apply (elem_of_map_1 typing_user).
    apply list_elem_of_filter. split; [done|].
    apply list_elem_of_filter. split; [lia|done].
Qed.

(** X25. What [getChats] shows after a member started typing at time [t]:
    the chat list of any other member shows the user as typing exactly
    while fewer than 5000 ms have passed since [t], the user's own chat list
    never does, the typing shown of every other user and the unread counter
    shown are as before; and once [stop_typing] has been handled, or the
    timer of the typing event has run, the user is shown as typing to
    nobody. *)
Theorem getChats_shows_typing_for_five_seconds s t chatId db c :
  Store.findChat chatId db = Some c →
  socket.userId s ∈ users c →
  ∃ c1 c2 c3,
    Store.findChat chatId (socket.on_typing s t chatId db).1.1 = Some c1
    ∧ Store.findChat chatId
        (socket.on_stop_typing s chatId
           (socket.on_typing s t chatId db).1.1).1 = Some c2
    ∧ Store.findChat chatId
        (socket.typingTimeout (socket.mkTimer (t + 5000) s chatId)
           (socket.on_typing s t chatId db).1.1).1 = Some c3
    ∧ ∀ now me,
        (socket.userId s ∈ chatRest.shownTyping now me c1
         ↔ me ≠ socket.userId s ∧ now < t + 5000)
        ∧ (∀ v, v ≠ socket.userId s →
                v ∈ chatRest.shownTyping now me c1
                ↔ v ∈ chatRest.shownTyping now me c)
        ∧ chatRest.shownUnread me c1 = chatRest.shownUnread me c
        ∧ (socket.userId s ∉ chatRest.shownTyping now me c2)
        ∧ (socket.userId s ∉ chatRest.shownTyping now me c3).
Proof.
  intros Hc Hmem.
  pose proof (findChat_Some _ _ _ Hc) as [_ Hid].
  unfold socket.on_typing. rewrite Hc, (bool_decide_eq_true_2 _ Hmem). simpl.
  pose proof (findChat_saveChat chatId db c
                (Chat.addTypingUser t (socket.userId s) c) Hc Hid) as Hc1.
  unfold socket.on_stop_typing, socket.typingTimeout. simpl.
  rewrite Hc1. simpl. rewrite (bool_decide_eq_true_2 _ Hmem). simpl.
  eexists _, _, _. split; [reflexivity|].
  split; [by apply (findChat_saveChat _ _ _ _ Hc1)|].
  split; [by apply (findChat_saveChat _ _ _ _ Hc1)|].
  assert (∀ now me d,
            socket.userId s
            ∉ chatRest.shownTyping now me
                (Chat.removeTypingUser (socket.userId s) d)) as Hgone.
  { intros now me d Hin.
    apply elem_of_shownTyping in Hin as (_ & item & Hitem & Hu & _).
    simpl in Hitem. by apply list_elem_of_filter in Hitem as [Hne _]. }
  intros now me. split; [|split; [|split; [done|split; apply Hgone]]].
  - rewrite elem_of_shownTyping. simpl. split.
    + intros (Hme & item & Hitem & Hu & Hts). split; [done|].
      apply elem_of_app in Hitem as [Hitem|Hitem].
      * by apply list_elem_of_filter in Hitem as [Hne _].
      * apply list_elem_of_singleton in Hitem. subst item. simpl in Hts. lia.
    + intros (Hme & Hts). split; [done|].
      exists (mkTyping (socket.userId s) t). split; [|split; [done|simpl; lia]].
      apply elem_of_app. right. by apply list_elem_of_singleton.
  - intros v Hv. rewrite !elem_of_shownTyping. simpl. split.
    + intros (Hme & item & Hitem & Hu & Hts). split; [done|].
      apply elem_of_app in Hitem as [Hitem|Hitem].
      * apply list_elem_of_filter in Hitem as [_ Hitem]. by exists item.
      * apply list_elem_of_singleton in Hitem. subst item. by simpl in Hu.
    + intros (Hme & item & Hitem & Hu & Hts). split; [done|].
      exists item. split; [|done]. apply elem_of_app. left.
      apply list_elem_of_filter. split; [congruence|done].
Qed.

Lemma getChats_shows_typing_for_five_seconds_witness :
  ∃ c1 c2 c3,
    Store.findChat 100%N (socket.on_typing exBob 1000 100%N exDB).1.1 = Some c1
    ∧ Store.findChat 100%N
        (socket.on_stop_typing exBob 100%N
           (socket.on_typing exBob 1000 100%N exDB).1.1).1 = Some c2
    ∧ Store.findChat 100%N
        (socket.typingTimeout (socket.mkTimer (1000 + 5000) exBob 100%N)
           (socket.on_typing exBob 1000 100%N exDB).1.1).1 = Some c3
    ∧ ∀ now me,
        (2%N ∈ chatRest.shownTyping now me c1
         ↔ me ≠ 2%N ∧ now < 1000 + 5000)
        ∧ (∀ v, v ≠ 2%N →
                v ∈ chatRest.shownTyping now me c1
                ↔ v ∈ chatRest.shownTyping now me exChat)
        ∧ chatRest.shownUnread me c1 = chatRest.shownUnread me exChat
        ∧ (2%N ∉ chatRest.shownTyping now me c2)
        ∧ (2%N ∉ chatRest.shownTyping now me c3).
Proof.
  apply (getChats_shows_typing_for_five_seconds exBob 1000 100%N exDB exChat);
    [reflexivity|compute_done].
Defined.

(** ** Rooms of a connection *)

(** X26. [leave_chat] takes the socket out of the room it names, whatever
    room that is and whether or not the user is a member of a chat of that
    id, and keeps every other room; only the caller hears [left_chat].
    Afterwards nothing sent to that room reaches the socket, until a
    [join_chat] of a member puts it back.  The room may be the user's own:
    a connection that has left it no longer receives the notifications that
    [sendNotificationToUser] still reports as sent. *)
Theorem leave_chat_leaves_any_room k chatId :
  let k' := (router.on_leave_chat k chatId).1 in
  let out := (router.on_leave_chat k chatId).2 in
  conn_socket k' = conn_socket k
  ∧ conn_user k' = conn_user k
  ∧ (chatId ∉ conn_rooms k')
  ∧ (∀ r, r ≠ chatId → r ∈ conn_rooms k' ↔ r ∈ conn_rooms k)
  ∧ (∀ e k2, e ∈ out →
             router.delivered e k2 = true ↔ conn_socket k2 = conn_socket k)
  ∧ (∀ sig from, router.delivered (to_room chatId sig) k' = false
                 ∧ router.delivered (to_others from chatId sig) k' = false)
  ∧ (∀ now db c,
       Store.findChat chatId db = Some c → conn_user k ∈ users c →
       chatId ∈ conn_rooms (router.on_join_chat now k' chatId db).1.2)
  ∧ (∀ now s w n,
       router.sendNotificationToUser
         (w_registry (presence.on_connection now s w).1.1) (socket.userId s) n
       = (true, [to_room (socket.userId s) n])
       ∧ router.delivered (to_room (socket.userId s) n)
           (router.on_leave_chat (presence.on_connection now s w).1.2
              (socket.userId s)).1 = false).
Proof.
  intros k' out. subst k' out. unfold router.on_leave_chat. simpl.
  assert (∀ k0 room, room ∉ conn_rooms (router.leaveRoom room k0)) as Hout.
  { intros k0 room Hin. simpl in Hin.
    by apply list_elem_of_filter in Hin as [Hne _]. }
  split; [done|]. split; [done|]. split; [apply Hout|].
  split.
  { intros r Hr. rewrite list_elem_of_filter. tauto. }
  split.
  { intros e k2 He. apply list_elem_of_singleton in He. subst e. simpl.
    apply bool_decide_eq_true. }
  split.
  { intros sig from. simpl.
    rewrite (bool_decide_eq_false_2 _ (Hout k chatId)). done. }
  split.
  { intros now db c Hc Hmem. unfold router.on_join_chat. rewrite Hc.
    change (conn_user (router.leaveRoom chatId k)) with (conn_user k).
    rewrite (bool_decide_eq_true_2 _ Hmem). simpl.
    apply joinRoom_rooms. by left. }
  intros now s w n. split.
  - unfold router.sendNotificationToUser, presence.on_connection. simpl.
    by rewrite lookup_insert_eq.
  - simpl. apply bool_decide_eq_false_2. apply Hout.
Qed.

(** ** Counting unread messages *)

(** X27. A message sent over REST (any the endpoint accepts, with or
    without content) counts as unread, in the sense of [getUnreadCount], for
    every user but its sender and for every read time before the send time,
    in the chat it was sent to: there the count grows by one, and every
    other count is unchanged. *)
Theorem getUnreadCount_counts_a_sent_message
        now newId me content_ chatId mt reply db res db' out :
  messageController.sendMessage now newId me content_ (Some chatId) mt reply db
  = (res, db', out) →
  res_success res = true →
  ∀ id v lastReadTime,
    MessageStatics.getUnreadCount id v lastReadTime db'
    = (MessageStatics.getUnreadCount id v lastReadTime db
       + if bool_decide (id = chatId ∧ v ≠ me ∧ (lastReadTime < now)%Z)
         then 1 else 0)%nat.
Proof.
  intros Hrun Hok id v lastReadTime.
  destruct (sendMessage_success _ _ _ _ _ _ _ _ _ _ _ Hrun Hok)
    as (c & m & db1 & Hc & Hmem & Hcreate & -> & _).
  pose proof (createMessage_inr _ _ _ _ _ _ _ _ _ _ Hcreate)
    as (-> & Hmid & Hnew).
  subst m. unfold Store.newMessage, MessageStatics.getUnreadCount. simpl.
  rewrite filter_app, length_app. f_equal.
  rewrite filter_cons, filter_nil. simpl.
  case_bool_decide as Hcount.
  - destruct Hcount as (-> & Hv & Hts).
    rewrite decide_True; [done|]. repeat split; [congruence|lia].
  - rewrite decide_False; [done|].
    intros (Hid & Hv & Hts & _). apply Hcount.
    repeat split; [congruence|congruence|lia].
Qed.

(** At a message of type image without content. *)
Lemma getUnreadCount_counts_a_sent_message_witness :
  MessageStatics.getUnreadCount 100%N 2%N 0 exDB = 0%nat
  ∧ ∀ id v lastReadTime,
      MessageStatics.getUnreadCount id v lastReadTime
        (messageController.sendMessage 5000 200%N 1%N None
           (Some 100%N) (Some "image") None exDB).1.2
      = (MessageStatics.getUnreadCount id v lastReadTime exDB
         + if bool_decide (id = 100%N ∧ v ≠ 1%N ∧ (lastReadTime < 5000)%Z)
           then 1 else 0)%nat.
Proof.
  split; [reflexivity|].
  apply (getUnreadCount_counts_a_sent_message 5000 200%N 1%N None
           100%N (Some "image") None exDB
           (mkRes 201 true "Message sent successfully")
           (messageController.sendMessage 5000 200%N 1%N None
              (Some 100%N) (Some "image") None exDB).1.2
           (messageController.sendMessage 5000 200%N 1%N None
              (Some 100%N) (Some "image") None exDB).2);
    reflexivity.
Defined.

(** ** Creating a group *)

Lemma validUsers_registered (registered us : list ObjectId) :
  NoDup registered →
  List.length (List.filter (fun u => bool_decide (u ∈ us)) registered)
  = List.length us →
  ∀ u, u ∈ us → u ∈ registered.
Proof.
  intros Hreg Hlen u Hu.
  assert (List.filter (fun u => bool_decide (u ∈ us)) registered ⊆+ us) as Hsub.
  { apply NoDup_submseteq; [by apply NoDup_bool_filter|].
    intros x Hx. apply list_elem_of_In, filter_In in Hx as [_ Hx].
    by apply bool_decide_eq_true in Hx. }
  apply submseteq_length_Permutation in Hsub; [|lia].
  rewrite <- Hsub in Hu. apply list_elem_of_In, filter_In in Hu as [Hu _].
  by apply list_elem_of_In.
Qed.

Lemma filter_ne_absent (x : ObjectId) (l : list ObjectId) :
  x ∉ l → filter (fun y => y ≠ x) l = l.
Proof.
  induction l as [|y l IH]; [done|]. intros Hx.
  apply not_elem_of_cons in Hx as [Hne Hx].
  rewrite filter_cons, decide_True by congruence. by rewrite IH.
Qed.

Lemma NoDup_filter_ne_length (x : ObjectId) (l : list ObjectId) :
  NoDup l →
  (List.length l ≤ S (List.length (filter (fun y => y ≠ x) l)))%nat.
Proof.
  induction 1 as [|y l Hy Hl IH]; simpl; [lia|].
  rewrite filter_cons. destruct (decide (y ≠ x)) as [Hne|Heq]; simpl; [lia|].
  assert (y = x) as -> by (by destruct (decide (y = x))).
  rewrite filter_ne_absent by done. lia.
Qed.

Lemma unreadFor_fresh now v (l : list ObjectId) c :
  unreadCount c = map (fun userId => mkUnread userId 0 now) l →
  Chat.unreadFor v c = 0.
Proof.
  unfold Chat.unreadFor, Chat.findUnread. intros ->.
  induction l as [|x l IH]; [done|]. simpl.
  by destruct (bool_decide (x = v)).
Qed.

(** X28. [createGroupChat] changes the store only when it answers with
    success, and then by one new group chat: under the fresh id, named by
    the trimmed, non-empty name, with the requester as admin and first
    member, followed by the listed users other than the requester, each
    once and each a registered user; the group has at least two members,
    shows every user an unread counter of zero, and has no latest message
    and nobody typing. *)
Theorem createGroupChat_makes_requester_admin_of_listed
        now newId me us name descr db res db' :
  NoDup (User_coll db) →
  chatController.createGroupChat now newId me us name descr db = (res, db') →
  (res_success res = false → db' = db)
  ∧ (res_success res = true →
     ∃ c listed chatName_,
       us = Some listed ∧ name = Some chatName_
       ∧ Chat_coll db' = Chat_coll db ++ [c]
       ∧ Message_coll db' = Message_coll db
       ∧ chat_id c = newId ∧ Store.findChat newId db = None
       ∧ isGroupChat c = true ∧ groupAdmin c = Some me
       ∧ chatName c = trim chatName_ ∧ chatName c ≠ EmptyString
       ∧ users c = me :: filter (fun u => u ≠ me) listed
       ∧ NoDup (users c)
       ∧ (∀ u, u ∈ listed → u ∈ User_coll db)
       ∧ (2 ≤ List.length (users c))%nat
       ∧ (∀ v, Chat.unreadFor v c = 0)
       ∧ latestMessage c = None ∧ typingUsers c = []).
Proof.
  intros Hreg. unfold chatController.createGroupChat, chatController.reply.
  destruct us as [listed|]; [|by intros [= <- <-]].
  destruct (Nat.ltb (List.length listed) 2) eqn:Hlen; [by intros [= <- <-]|].
  destruct name as [chatName_|]; [|by intros [= <- <-]].
  destruct (Nat.eqb (String.length (trim chatName_)) 0) eqn:Hname;
    [by intros [= <- <-]|].
  destruct (Nat.eqb _ (List.length listed)) eqn:Hvalid; simpl;
    [|by intros [= <- <-]].
  destruct (Store.createChat _ db) as [db1|] eqn:Hcreate;
    [|by intros [= <- <-]].
  intros [= <- <-]. split; [done|]. intros _.
  apply createChat_Some in Hcreate as [-> Hfresh]. simpl in Hfresh.
  apply Nat.eqb_eq in Hvalid. apply Nat.ltb_ge in Hlen.
  apply Nat.eqb_neq in Hname.
  pose proof (validUsers_NoDup _ _ Hreg Hvalid) as Hnodup.
  pose proof (uniqueOf_NoDup _ Hnodup) as Huniq.
  eexists _, listed, chatName_. split; [done|]. split; [done|].
  split; [reflexivity|]. simpl. rewrite Huniq.
  split; [done|]. split; [done|].
  split; [by apply (find_key_notin chat_id)|].
  split; [done|]. split; [done|]. split; [done|].
  split; [by destruct (trim chatName_)|].
  split; [done|].
  split.
  { apply NoDup_cons. split; [|by apply NoDup_filter].
    intros Hin. by apply list_elem_of_filter in Hin as [Hne _]. }
  split; [by apply validUsers_registered|].
  split.
  { pose proof (NoDup_filter_ne_length me listed Hnodup). simpl. lia. }
  split; [|done].
  intros v.
  by apply (unreadFor_fresh now v (me :: filter (fun u => u ≠ me) listed)).
Qed.

Lemma createGroupChat_makes_requester_admin_of_listed_witness :
  ∃ c listed chatName_,
    Some [1%N; 2%N] = Some listed ∧ Some "team" = Some chatName_
    ∧ Chat_coll
        (chatController.createGroupChat 9000 700%N 1%N (Some [1%N; 2%N])
           (Some "team") None exDB).2 = Chat_coll exDB ++ [c]
    ∧ Message_coll
        (chatController.createGroupChat 9000 700%N 1%N (Some [1%N; 2%N])
           (Some "team") None exDB).2 = Message_coll exDB
    ∧ chat_id c = 700%N ∧ Store.findChat 700%N exDB = None
    ∧ isGroupChat c = true ∧ groupAdmin c = Some 1%N
    ∧ chatName c = trim chatName_ ∧ chatName c ≠ EmptyString
    ∧ users c = 1%N :: filter (fun u => u ≠ 1%N) listed
    ∧ NoDup (users c)
    ∧ (∀ u, u ∈ listed → u ∈ User_coll exDB)
    ∧ (2 ≤ List.length (users c))%nat
    ∧ (∀ v, Chat.unreadFor v c = 0)
    ∧ latestMessage c = None ∧ typingUsers c = [].
Proof.
  apply (proj2 (createGroupChat_makes_requester_admin_of_listed
                  9000 700%N 1%N (Some [1%N; 2%N]) (Some "team") None exDB
                  (mkRes 201 true "Group chat created successfully")
                  (chatController.createGroupChat 9000 700%N 1%N
                     (Some [1%N; 2%N]) (Some "team") None exDB).2
                  ltac:(compute_done) eq_refl));
    reflexivity.
Defined.
